(** * The bundle cache of @osd/optimizer

    A shallow embedding of
    - [common/bundle.ts] (class [Bundle], [parseBundles]),
    - [worker/run_compilers.ts] (the [done] handler of [observeCompiler]),
    - the cache decision of [optimizer/bundle_cache.ts], as far as the
      integration test [integration_tests/bundle_cache.test.ts] and the
      specification describe it.

    JavaScript values are a tagged union, exceptions are the left summand of
    a sum, objects are property lists in insertion order, a [Map] is a
    [gmap], a [Set] is a duplicate-free list in insertion order. *)

From Stdlib Require Import ZArith String Ascii List Lia.
From Stdlib Require Import Structures.OrderedTypeEx.
From stdpp Require Import base option list strings gmap sorting.

Set Warnings "-register-all".

Local Open Scope string_scope.
Local Open Scope list_scope.

(** ** JavaScript values and exceptions *)

(** A value as [JSON.parse] produces it, plus [undefined]. Numbers are only
    ever inspected for their type and truthiness, an integer stands for them. *)
Inductive value : Type :=
| VUndefined
| VNull
| VBool (b : bool)
| VNumber (n : Z)
| VString (s : string)
| VArray (elements : list value)
| VObject (props : list (string * value)).

(** What a [throw] carries: [message] is read by the [catch] blocks of
    [parseBundles] and [readBundleDeps], [code] by the one around
    [Fs.readFileSync]. *)
Inductive exn : Type :=
| Error (message : string)
| SyntaxError (message : string)
| TypeError (message : string)
| SystemError (code : string) (message : string).

Definition exn_message (e : exn) : string :=
  match e with
  | Error m | SyntaxError m | TypeError m | SystemError _ m => m
  end.

Definition exn_code (e : exn) : option string :=
  match e with
  | SystemError c _ => Some c
  | _ => None
  end.

(** A computation that returns or throws. *)
Definition result (A : Type) : Type := exn + A.

Definition ret {A} (a : A) : result A := inr a.
Definition throw {A} (e : exn) : result A := inl e.

Definition bind {A B} (m : result A) (k : A → result B) : result B :=
  match m with
  | inl e => inl e
  | inr a => k a
  end.

Notation "x <- m ;; k" := (bind m (λ x, k))
  (at level 100, m at next level, right associativity, only parsing).

(** [try { m } catch (error) { h error }] *)
Definition try_catch {A} (m : result A) (h : exn → result A) : result A :=
  match m with
  | inl e => h e
  | inr a => inr a
  end.

(** [array.map(f)] when [f] may throw: the first throw ends the loop. *)
Fixpoint map_throwing {A B} (f : A → result B) (l : list A) : result (list B) :=
  match l with
  | [] => ret []
  | a :: l' => b <- f a ;; bs <- map_throwing f l' ;; ret (b :: bs)
  end.

Definition typeof (v : value) : string :=
  match v with
  | VUndefined => "undefined"
  | VNull => "object"
  | VBool _ => "boolean"
  | VNumber _ => "number"
  | VString _ => "string"
  | VArray _ => "object"
  | VObject _ => "object"
  end.

(** ToBoolean *)
Definition truthy (v : value) : bool :=
  match v with
  | VUndefined | VNull => false
  | VBool b => b
  | VNumber n => negb (n =? 0)%Z
  | VString s => negb (String.eqb s EmptyString)
  | VArray _ | VObject _ => true
  end.

(** [a || b] *)
Definition js_or (a b : value) : value := if truthy a then a else b.

Definition Array_isArray (v : value) : bool :=
  match v with
  | VArray _ => true
  | _ => false
  end.

Definition is_undefined (v : value) : bool :=
  match v with
  | VUndefined => true
  | _ => false
  end.

Definition is_string (v : value) : bool :=
  match v with
  | VString _ => true
  | _ => false
  end.

(** An object as its own properties in insertion order; a [JsObject value]
    is what [VObject] carries. *)
Definition JsObject (V : Type) : Type := list (string * V).

Fixpoint obj_get {V} (k : string) (o : JsObject V) : option V :=
  match o with
  | [] => None
  | (k', v) :: o' => if decide (k = k') then Some v else obj_get k o'
  end.

(** [o[k] = v]: an existing property keeps its place. *)
Fixpoint obj_set {V} (k : string) (v : V) (o : JsObject V) : JsObject V :=
  match o with
  | [] => [(k, v)]
  | (k', v') :: o' =>
      if decide (k = k') then (k, v) :: o' else (k', v') :: obj_set k v o'
  end.

Definition obj_keys {V} (o : JsObject V) : list string := o.*1.

(** [v.k] on the result of [JSON.parse]: arrays have none of the names read
    here, a missing property reads as [undefined]. *)
Definition get_prop (v : value) (k : string) : value :=
  match v with
  | VObject props => default VUndefined (obj_get k props)
  | _ => VUndefined
  end.

(** A byte that continues a UTF-8 sequence: [10xxxxxx]. *)
Definition is_continuation (c : ascii) : bool :=
  (128 <=? nat_of_ascii c)%nat && (nat_of_ascii c <? 192)%nat.

(** [for (const c of s)]: a string spreads into its code points. A string is
    held as the bytes of its UTF-8 text, so a code point is a byte with the
    continuation bytes that follow it. *)
Definition string_chars (s : string) : list string :=
  let '(pending, chars) :=
    foldr (λ c '(pending, chars),
             if is_continuation c then (String c pending, chars)
             else (EmptyString, String c pending :: chars))
      (EmptyString, []) (list_ascii_of_string s) in
  match pending with
  | EmptyString => chars
  | _ => pending :: chars
  end.

Definition startsWith (s pre : string) : bool := String.prefix pre s.

Definition endsWith (s suf : string) : bool :=
  (String.length suf <=? String.length s)%nat
  && String.eqb
       (String.substring (String.length s - String.length suf)
          (String.length suf) s) suf.

(** [Array.prototype.sort]: stable; [x] goes after [y] when the comparator
    says [Gt]. *)
Fixpoint sort_insert {A} (cmp : A → A → comparison) (x : A) (l : list A) : list A :=
  match l with
  | [] => [x]
  | y :: l' =>
      match cmp x y with
      | Gt => y :: sort_insert cmp x l'
      | _ => x :: l
      end
  end.

Definition Array_sort {A} (cmp : A → A → comparison) (l : list A) : list A :=
  foldr (sort_insert cmp) [] l.

(** [Map.prototype.get] on a [Map<string, string | undefined>]. *)
Definition Map_get (m : gmap string (option string)) (k : string) : option string :=
  default None (m !! k).

(** [new Map(entries)]: later entries overwrite earlier ones. *)
Definition Map_of_entries (entries : list (string * option string))
  : gmap string (option string) :=
  foldl (λ m e, <[e.1 := e.2]> m) ∅ entries.

(** [Set.prototype.add]; [Array.from(set)] is the list itself. *)
Definition Set_add (x : string) (s : list string) : list string :=
  if decide (x ∈ s) then s else s ++ [x].

(** ** What Node.js provides *)

(** The built-ins the code calls. They are not part of the repository; the
    laws a proof needs from them are hypotheses of that proof. *)
Class NodeRuntime : Type := {
  (** [String.prototype.localeCompare] *)
  localeCompare : string → string → comparison;
  JSON_parse : string → result value;
  JSON_stringify : value → string;
  Path_isAbsolute : string → bool;
  (** [Path.resolve(...segments)] and [Path.join(...segments)] *)
  Path_resolve : list string → string;
  Path_join : list string → string;
}.

(** [localeCompare] orders the strings totally. *)
Record CompareOrder (cmp : string → string → comparison) : Prop := {
  cmp_eq : ∀ a b, cmp a b = Eq → a = b;
  cmp_antisym : ∀ a b, cmp b a = CompOpp (cmp a b);
  cmp_trans : ∀ a b c, cmp a b ≠ Gt → cmp b c ≠ Gt → cmp a c ≠ Gt;
}.

(** [localeCompare] is consistent: turning the arguments round turns the
    result round, and "not after" is transitive. Two different strings may
    compare equal, as canonically equivalent strings do under
    [String.prototype.localeCompare]. *)
Record ComparePreorder (cmp : string → string → comparison) : Prop := {
  pre_flip : ∀ a b, cmp b a = CompOpp (cmp a b);
  pre_trans : ∀ a b c, cmp a b ≠ Gt → cmp b c ≠ Gt → cmp a c ≠ Gt;
}.

(** What [JSON.parse(JSON.stringify(v))] is for data without numbers:
    properties whose value is [undefined] are left out, an [undefined]
    array element becomes [null]. *)
Fixpoint toJSON (v : value) : value :=
  match v with
  | VArray l =>
      VArray ((λ x, match x with VUndefined => VNull | _ => toJSON x end) <$> l)
  | VObject props =>
      VObject
        ((fix go (ps : list (string * value)) : list (string * value) :=
            match ps with
            | [] => []
            | (k, VUndefined) :: ps' => go ps'
            | (k, x) :: ps' => (k, toJSON x) :: go ps'
            end) props)
  | _ => v
  end.

(** ** common/array_helpers.ts *)

Section array_helpers.
Context `{NodeRuntime}.

(** Modelled from the spec: [common/array_helpers.ts] ([ascending],
    [entriesToObject], [includes]) is not among the sources. [ascending]
    makes the comparator for [sort] from a getter, so that the table is
    "sorted by path"; the strings are compared by [localeCompare]. *)
Definition ascending {A} (getter : A → string) (a b : A) : comparison :=
  localeCompare (getter a) (getter b).

(** Modelled from the spec: [entriesToObject] (see [ascending]) assigns the
    entries to a fresh object in order. *)
Definition entriesToObject {V} (entries : list (string * V)) : JsObject V :=
  foldl (λ o e, obj_set e.1 e.2 o) [] entries.

(** Modelled from the spec: [includes(array, value)] (see [ascending]) is
    [array.includes(value)], here for an array of strings. *)
Definition includes (arr : list string) (v : value) : bool :=
  match v with
  | VString s => bool_decide (s ∈ arr)
  | _ => false
  end.

End array_helpers.

(** ** common/bundle.ts *)

Definition VALID_BUNDLE_TYPES : list string := ["plugin"; "entry"].

Definition DEFAULT_IMPLICIT_BUNDLE_DEPS : list string := ["core"].

Definition isStringArray (input : value) : bool :=
  match input with
  | VArray l => forallb is_string l
  | _ => false
  end.

(** Reading a value at the type a check has narrowed it to. *)
Definition as_string (v : value) : string :=
  match v with
  | VString s => s
  | _ => EmptyString
  end.

Definition as_strings (v : value) : list string :=
  match v with
  | VArray l => as_string <$> l
  | _ => []
  end.

Definition as_optional_string (v : value) : option string :=
  match v with
  | VString s => Some s
  | _ => None
  end.

Definition of_optional_string (o : option string) : value :=
  match o with
  | Some s => VString s
  | None => VUndefined
  end.

Module BundleSpec.

Record t : Type := mk {
  type : string;
  id : string;
  publicDirNames : list string;
  contextDir : string;
  sourceRoot : string;
  outputDir : string;
  banner : option string;
  manifestPath : option string;
}.

(** The spec as the object literal that [toSpec] builds. *)
Definition to_value (s : t) : value :=
  VObject
    [("type", VString (type s));
     ("id", VString (id s));
     ("publicDirNames", VArray (VString <$> publicDirNames s));
     ("contextDir", VString (contextDir s));
     ("sourceRoot", VString (sourceRoot s));
     ("outputDir", VString (outputDir s));
     ("manifestPath", of_optional_string (manifestPath s));
     ("banner", of_optional_string (banner s))].

End BundleSpec.

Module CacheKey.

(** What [createCacheKey] returns: [{ spec, hashes }], the hash of a file
    being a string or [undefined]. *)
Record t : Type := mk {
  spec : BundleSpec.t;
  hashes : JsObject (option string);
}.

End CacheKey.

Module BundleCache.

(** The record kept in the cache file; every field may be missing. *)
Record State : Type := mkState {
  optimizerCacheKey : option string;
  cacheKey : option CacheKey.t;
  moduleCount : option nat;
  workUnits : option nat;
  files : option (list string);
  bundleRefExportIds : option (list string);
}.

Definition empty_state : State :=
  {| optimizerCacheKey := None; cacheKey := None; moduleCount := None;
     workUnits := None; files := None; bundleRefExportIds := None |}.

(** Modelled from the spec: [common/bundle_cache.ts] (class [BundleCache])
    is not among the sources. Section 4.2: a file-backed record at a fixed
    path beneath the bundle's output directory. The disk is a map from
    paths to records. *)
Record t : Type := mk { path : string }.

(** Modelled from the spec: [BundleCache.get] (see [t]); a missing file
    yields the empty record. *)
Definition get (disk : gmap string State) (c : t) : State :=
  default empty_state (disk !! path c).

(** Modelled from the spec: [BundleCache.set] (see [t]); [writable] tells
    whether the write goes through, a write that does not throws. *)
Definition set (writable : bool) (c : t) (s : State) (disk : gmap string State)
  : result unit * gmap string State :=
  if writable then (ret (), <[path c := s]> disk)
  else (throw (SystemError "EACCES" "permission denied"), disk).

End BundleCache.

Definition dquote : string := String (ascii_of_nat 34) EmptyString.

(** [Fs.readFileSync(path, 'utf8')] against the files on disk. *)
Definition FileSystem : Type := string → result string.

Module Bundle.

Record t : Type := mk {
  type : string;
  id : string;
  publicDirNames : list string;
  contextDir : string;
  sourceRoot : string;
  outputDir : string;
  banner : option string;
  manifestPath : option string;
  cache : BundleCache.t;
}.

Record BundleDeps : Type := mkDeps {
  implicit : list string;
  explicit : list string;
}.

Section methods.
Context `{NodeRuntime}.

(** [constructor(spec: BundleSpec)] *)
Definition new (spec : BundleSpec.t) : t :=
  {| type := BundleSpec.type spec;
     id := BundleSpec.id spec;
     publicDirNames := BundleSpec.publicDirNames spec;
     contextDir := BundleSpec.contextDir spec;
     sourceRoot := BundleSpec.sourceRoot spec;
     outputDir := BundleSpec.outputDir spec;
     manifestPath := BundleSpec.manifestPath spec;
     banner := BundleSpec.banner spec;
     cache :=
       BundleCache.mk
         (Path_resolve [BundleSpec.outputDir spec; ".osd-optimizer-cache"]) |}.

Definition toSpec (b : t) : BundleSpec.t :=
  {| BundleSpec.type := type b;
     BundleSpec.id := id b;
     BundleSpec.publicDirNames := publicDirNames b;
     BundleSpec.contextDir := contextDir b;
     BundleSpec.sourceRoot := sourceRoot b;
     BundleSpec.outputDir := outputDir b;
     BundleSpec.manifestPath := manifestPath b;
     BundleSpec.banner := banner b |}.

(** [files.map((p) => [p, hashes.get(p)] as const)] *)
Definition hash_entries (files : list string) (hashes : gmap string (option string))
  : list (string * option string) :=
  (λ p, (p, Map_get hashes p)) <$> files.

Definition createCacheKey (b : t) (files : list string)
    (hashes : gmap string (option string)) : CacheKey.t :=
  {| CacheKey.spec := toSpec b;
     CacheKey.hashes :=
       entriesToObject (Array_sort (ascending fst) (hash_entries files hashes)) |}.

(** [[...DEFAULT_IMPLICIT_BUNDLE_DEPS, ...v]]: an array spreads into its
    elements, a string into its characters, nothing else is iterable. *)
Definition spread (v : value) : result (list value) :=
  match v with
  | VArray l => ret l
  | VString s => ret (VString <$> string_chars s)
  | _ => throw (TypeError "value is not iterable")
  end.

Definition manifest_shape_message (manifestPath : string) : string :=
  "Expected " +:+ dquote +:+ "requiredBundles" +:+ dquote +:+ " and "
  +:+ dquote +:+ "requiredPlugins" +:+ dquote +:+ " in manifest file ["
  +:+ manifestPath +:+ "] to be arrays of strings".

Definition manifest_parse_message (manifestPath message : string) : string :=
  "unable to parse manifest at [" +:+ manifestPath +:+ "], error: ["
  +:+ message +:+ "]".

Definition readBundleDeps (fs : FileSystem) (b : t) : result BundleDeps :=
  if negb (truthy (of_optional_string (manifestPath b))) then
    ret {| implicit := DEFAULT_IMPLICIT_BUNDLE_DEPS; explicit := [] |}
  else
    let manifestPath := default EmptyString (manifestPath b) in
    json <- try_catch (fs manifestPath)
              (λ error,
                 if negb (bool_decide (exn_code error = Some "ENOENT"))
                 then throw error
                 else ret "{}") ;;
    parsedManifest <- try_catch (JSON_parse json)
              (λ error,
                 throw (Error (manifest_parse_message manifestPath
                                 (exn_message error)))) ;;
    checked <-
      (if String.eqb (typeof parsedManifest) "object" && truthy parsedManifest
       then
         let explicit := js_or (get_prop parsedManifest "requiredBundles") (VArray []) in
         plugins <- spread (js_or (get_prop parsedManifest "requiredPlugins") (VArray [])) ;;
         let implicit := VArray ((VString <$> DEFAULT_IMPLICIT_BUNDLE_DEPS) ++ plugins) in
         if isStringArray explicit && isStringArray implicit
         then ret (Some {| explicit := as_strings explicit;
                           implicit := as_strings implicit |})
         else ret None
       else ret None) ;;
    match checked with
    | Some deps => ret deps
    | None => throw (Error (manifest_shape_message manifestPath))
    end.

End methods.
End Bundle.

Section parseBundles.
Context `{NodeRuntime}.

(** The callback of [specs.map] in [parseBundles]. *)
Definition parseBundleSpec (spec : value) : result Bundle.t :=
  if negb (truthy spec && String.eqb (typeof spec) "object") then
    throw (Error "`bundles[]` must be an object")
  else
  let type := get_prop spec "type" in
  if negb (includes VALID_BUNDLE_TYPES type) then
    throw (Error "`bundles[]` must have a valid `type`")
  else
  let id := get_prop spec "id" in
  if negb (String.eqb (typeof id) "string") then
    throw (Error "`bundles[]` must have a string `id` property")
  else
  let publicDirNames := get_prop spec "publicDirNames" in
  if negb (Array_isArray publicDirNames)
     || negb (forallb (λ d, String.eqb (typeof d) "string")
                (match publicDirNames with VArray l => l | _ => [] end)) then
    throw (Error "`bundles[]` must have an array of strings `publicDirNames` property")
  else
  let contextDir := get_prop spec "contextDir" in
  if negb (String.eqb (typeof contextDir) "string"
           && Path_isAbsolute (as_string contextDir)) then
    throw (Error "`bundles[]` must have an absolute path `contextDir` property")
  else
  let sourceRoot := get_prop spec "sourceRoot" in
  if negb (String.eqb (typeof sourceRoot) "string"
           && Path_isAbsolute (as_string sourceRoot)) then
    throw (Error "`bundles[]` must have an absolute path `sourceRoot` property")
  else
  let outputDir := get_prop spec "outputDir" in
  if negb (String.eqb (typeof outputDir) "string"
           && Path_isAbsolute (as_string outputDir)) then
    throw (Error "`bundles[]` must have an absolute path `outputDir` property")
  else
  let manifestPath := get_prop spec "manifestPath" in
  if negb (is_undefined manifestPath)
     && negb (String.eqb (typeof manifestPath) "string"
              && Path_isAbsolute (as_string manifestPath)) then
    throw (Error "`bundles[]` must have an absolute path `manifestPath` property")
  else
  let banner := get_prop spec "banner" in
  if negb (is_undefined banner)
     && negb (String.eqb (typeof banner) "string") then
    throw (Error "`bundles[]` must have a string `banner` property")
  else
    ret (Bundle.new
           {| BundleSpec.type := as_string type;
              BundleSpec.id := as_string id;
              BundleSpec.publicDirNames := as_strings publicDirNames;
              BundleSpec.contextDir := as_string contextDir;
              BundleSpec.sourceRoot := as_string sourceRoot;
              BundleSpec.outputDir := as_string outputDir;
              BundleSpec.banner := as_optional_string banner;
              BundleSpec.manifestPath := as_optional_string manifestPath |}).

Definition parseBundles (json : value) : result (list Bundle.t) :=
  try_catch
    (match json with
     | VString json =>
         specs <- JSON_parse json ;;
         match specs with
         | VArray specs => map_throwing parseBundleSpec specs
         | _ => throw (Error "must be an array")
         end
     | _ => throw (Error "must be a JSON string")
     end)
    (λ error, throw (Error ("unable to parse bundles: " +:+ exn_message error))).

(** What [parseBundles] checks of a spec. *)
Definition valid_spec (s : BundleSpec.t) : bool :=
  bool_decide (BundleSpec.type s ∈ VALID_BUNDLE_TYPES)
  && Path_isAbsolute (BundleSpec.contextDir s)
  && Path_isAbsolute (BundleSpec.sourceRoot s)
  && Path_isAbsolute (BundleSpec.outputDir s)
  && match BundleSpec.manifestPath s with
     | Some m => Path_isAbsolute m
     | None => true
     end.

End parseBundles.

(** ** worker/run_compilers.ts *)

Definition EXTRA_SCSS_WORK_UNITS : nat := 100.

Module ParsedPath.

(** What [observeCompiler] reads of the result of [parseFilePath]. *)
Record t : Type := mk {
  root : string;
  dirs : list string;
  filename : option string;
}.

End ParsedPath.

(** [common/parse_path.ts] is not among the sources: [parseFilePath] is a
    parameter of the embedding. *)
Class OptimizerCommon : Type := {
  parseFilePath : string → ParsedPath.t;
}.

(** A module of [stats.compilation.modules]. [worker/webpack_helpers.ts]
    and [worker/bundle_ref_module.ts] are not among the sources; the tag says
    which of [isNormalModule], [instanceof BundleRefModule],
    [isConcatenatedModule], [isExternalModule], [isIgnoredModule] holds of the
    module, [UnknownModule] that none does. A normal module carries
    [getModulePath(module)] and [module.buildInfo.fileDependencies], a bundle
    reference [module.ref.exportId], a concatenated module [module.modules],
    an unknown one its [inspect(module)]. *)
Inductive WebpackModule : Type :=
| NormalModule (path : string) (fileDependencies : list string)
| BundleRefModule (exportId : string)
| ConcatenatedModule (modules : list WebpackModule)
| ExternalModule
| IgnoredModule
| UnknownModule (inspect : string).

Module Stats.

(** [webpack.Stats] as the handler reads it: [failure] is
    [failedStatsToErrorMessage(stats)] when [isFailureStats(stats)],
    [fileDependencies_size] is [stats.compilation.fileDependencies.size]. *)
Record t : Type := mk {
  needAdditionalPass : bool;
  failure : option string;
  fileDependencies_size : nat;
  modules : list WebpackModule;
}.

End Stats.

Module WorkerConfig.

Record t : Type := mk {
  watch : bool;
  profileWebpack : bool;
  optimizerCacheKey : string;
}.

End WorkerConfig.

(** Modelled from the spec: [common/compiler_messages.ts] ([CompilerMsgs])
    is not among the sources. The four messages of section 3, made by
    [running()], [compilerSuccess({ moduleCount })],
    [compilerFailure({ failure })] and [error(error)] for one bundle id. *)
Inductive CompilerMsg : Type :=
| compilerRunning (bundleId : string)
| compilerSuccess (bundleId : string) (moduleCount : nat)
| compilerFailure (bundleId : string) (failure : string)
| compilerError (bundleId : string) (message : string).

(** [array.lastIndexOf(x)], [-1] when [x] does not occur. *)
Fixpoint lastIndexOf_from (i : Z) (l : list string) (x : string) : Z :=
  match l with
  | [] => (-1)%Z
  | y :: l' =>
      let later := lastIndexOf_from (i + 1) l' x in
      if (0 <=? later)%Z then later
      else if decide (y = x) then i else (-1)%Z
  end.

Definition lastIndexOf (l : list string) (x : string) : Z := lastIndexOf_from 0 l x.

(** [array[i]] and [array.slice(0, n)] for [i], [n] that are not negative. *)
Definition Array_at {A} (l : list A) (i : Z) : option A := l !! Z.to_nat i.
Definition Array_slice0 {A} (l : list A) (n : Z) : list A := take (Z.to_nat n) l.

Module Pass.

(** The four variables the loop over the modules updates. *)
Record t : Type := mk {
  bundleRefExportIds : list string;
  referencedFiles : list string;
  moduleCount : nat;
  workUnits : nat;
}.

End Pass.

Module Handled.

(** What one call of the handler does: [msg] is what it returns to
    [maybeMap] ([None] for [undefined]) or throws, [stats_json] tells whether
    [stats.json] was written, [done_scheduled] whether [done$.next()] was
    scheduled, [persisted] is what the promise chain settled to, [disk] the
    cache files afterwards. *)
Record t : Type := mk {
  msg : result (option CompilerMsg);
  stats_json : bool;
  done_scheduled : bool;
  persisted : option (result unit);
  disk : gmap string BundleCache.State;
}.

End Handled.

Section observeCompiler.
Context `{NodeRuntime} `{OptimizerCommon}.

(** The state before the loop. *)
Definition initial_pass (bundle : Bundle.t) (stats : Stats.t) : Pass.t :=
  {| Pass.bundleRefExportIds := [];
     Pass.referencedFiles :=
       if truthy (of_optional_string (Bundle.manifestPath bundle))
       then Set_add (default EmptyString (Bundle.manifestPath bundle)) []
       else [];
     Pass.moduleCount := 0;
     Pass.workUnits := Stats.fileDependencies_size stats |}.

(** One turn of [for (const module of stats.compilation.modules)]. *)
Definition classify (st : Pass.t) (module : WebpackModule) : result Pass.t :=
  match module with
  | NormalModule path fileDependencies =>
      let moduleCount := Pass.moduleCount st + 1 in
      let parsedPath := parseFilePath path in
      if negb (bool_decide ("node_modules" ∈ ParsedPath.dirs parsedPath)) then
        let referencedFiles := Set_add path (Pass.referencedFiles st) in
        if endsWith path ".scss" then
          ret {| Pass.bundleRefExportIds := Pass.bundleRefExportIds st;
                 Pass.referencedFiles :=
                   foldl (λ s depPath, Set_add depPath s) referencedFiles
                     fileDependencies;
                 Pass.moduleCount := moduleCount;
                 Pass.workUnits := Pass.workUnits st + EXTRA_SCSS_WORK_UNITS |}
        else
          ret {| Pass.bundleRefExportIds := Pass.bundleRefExportIds st;
                 Pass.referencedFiles := referencedFiles;
                 Pass.moduleCount := moduleCount;
                 Pass.workUnits := Pass.workUnits st |}
      else
        let nmIndex := lastIndexOf (ParsedPath.dirs parsedPath) "node_modules" in
        match Array_at (ParsedPath.dirs parsedPath) (nmIndex + 1) with
        | None =>
            throw (TypeError "Cannot read property 'startsWith' of undefined")
        | Some dir =>
            let isScoped := startsWith dir "@" in
            ret {| Pass.bundleRefExportIds := Pass.bundleRefExportIds st;
                   Pass.referencedFiles :=
                     Set_add
                       (Path_join
                          (ParsedPath.root parsedPath
                           :: Array_slice0 (ParsedPath.dirs parsedPath)
                                (nmIndex + 1 + (if isScoped then 2 else 1))
                           ++ ["package.json"]))
                       (Pass.referencedFiles st);
                   Pass.moduleCount := moduleCount;
                   Pass.workUnits := Pass.workUnits st |}
        end
  | BundleRefModule exportId =>
      ret {| Pass.bundleRefExportIds := Pass.bundleRefExportIds st ++ [exportId];
             Pass.referencedFiles := Pass.referencedFiles st;
             Pass.moduleCount := Pass.moduleCount st;
             Pass.workUnits := Pass.workUnits st |}
  | ConcatenatedModule modules =>
      ret {| Pass.bundleRefExportIds := Pass.bundleRefExportIds st;
             Pass.referencedFiles := Pass.referencedFiles st;
             Pass.moduleCount := Pass.moduleCount st + length modules;
             Pass.workUnits := Pass.workUnits st |}
  | ExternalModule | IgnoredModule => ret st
  | UnknownModule inspect =>
      throw (Error ("Unexpected module type: " +:+ inspect))
  end.

(** The whole loop: a throw leaves it. *)
Fixpoint classify_all (st : Pass.t) (modules : list WebpackModule) : result Pass.t :=
  match modules with
  | [] => ret st
  | module :: rest => st' <- classify st module ;; classify_all st' rest
  end.

(** A module that adds [EXTRA_SCSS_WORK_UNITS]: a normal module outside
    [node_modules] whose path ends in [.scss]. *)
Definition is_stylesheet_module (module : WebpackModule) : bool :=
  match module with
  | NormalModule path _ =>
      negb (bool_decide ("node_modules" ∈ ParsedPath.dirs (parseFilePath path)))
      && endsWith path ".scss"
  | _ => false
  end.

(** A normal module under [node_modules]. *)
Definition is_dependency_module (module : WebpackModule) : bool :=
  match module with
  | NormalModule path _ =>
      bool_decide ("node_modules" ∈ ParsedPath.dirs (parseFilePath path))
  | _ => false
  end.

(** A kind the loop has a branch for. *)
Definition known_kind (module : WebpackModule) : bool :=
  match module with
  | UnknownModule _ => false
  | _ => true
  end.

(** What is outside the handler: the promise [getHashes(files)] settles to,
    whether the cache file and [stats.json] can be written. *)
Record Outside : Type := mkOutside {
  getHashes : list string → result (gmap string (option string));
  cache_writable : bool;
  stats_writable : bool;
}.

(** A promise that runs against the cache files on disk. *)
Definition Promise (A : Type) : Type :=
  gmap string BundleCache.State → result A * gmap string BundleCache.State.

Definition Promise_settled {A} (r : result A) : Promise A := λ disk, (r, disk).

(** [p.then(f)] *)
Definition Promise_then {A B} (p : Promise A) (f : A → Promise B) : Promise B :=
  λ disk,
    match p disk with
    | (inr a, disk') => f a disk'
    | (inl e, disk') => (inl e, disk')
    end.

(** [p.catch(h)] *)
Definition Promise_catch {A} (p : Promise A) (h : exn → Promise A) : Promise A :=
  λ disk,
    match p disk with
    | (inl e, disk') => h e disk'
    | settled => settled
    end.

(** [getHashes(files).then(...).catch(...)] of the handler. *)
Definition persist (out : Outside) (workerConfig : WorkerConfig.t)
    (bundle : Bundle.t) (st : Pass.t) (files : list string) : Promise unit :=
  Promise_catch
    (Promise_then (Promise_settled (getHashes out files))
       (λ hashes,
          BundleCache.set (cache_writable out) (Bundle.cache bundle)
            {| BundleCache.bundleRefExportIds := Some (Pass.bundleRefExportIds st);
               BundleCache.optimizerCacheKey :=
                 Some (WorkerConfig.optimizerCacheKey workerConfig);
               BundleCache.cacheKey := Some (Bundle.createCacheKey bundle files hashes);
               BundleCache.moduleCount := Some (Pass.moduleCount st);
               BundleCache.workUnits := Some (Pass.workUnits st);
               BundleCache.files := Some files |}))
    (λ _err, Promise_settled (ret ())).


(** The callback of [maybeMap] on [complete$]. *)
Definition complete (out : Outside) (workerConfig : WorkerConfig.t)
    (bundle : Bundle.t) (stats : Stats.t) (disk : gmap string BundleCache.State)
  : Handled.t :=
  if Stats.needAdditionalPass stats then
    Handled.mk (ret None) false false None disk
  else if WorkerConfig.profileWebpack workerConfig && negb (stats_writable out) then
    Handled.mk (throw (SystemError "EACCES" "permission denied")) false false None disk
  else
    let stats_json := WorkerConfig.profileWebpack workerConfig in
    let done_scheduled := negb (WorkerConfig.watch workerConfig) in
    match Stats.failure stats with
    | Some failure =>
        Handled.mk (ret (Some (compilerFailure (Bundle.id bundle) failure)))
          stats_json done_scheduled None disk
    | None =>
        match classify_all (initial_pass bundle stats) (Stats.modules stats) with
        | inl e => Handled.mk (throw e) stats_json done_scheduled None disk
        | inr st =>
            let files := Array_sort (ascending (λ p, p)) (Pass.referencedFiles st) in
            let '(settled, disk') := persist out workerConfig bundle st files disk in
            Handled.mk
              (ret (Some (compilerSuccess (Bundle.id bundle) (Pass.moduleCount st))))
              stats_json done_scheduled (Some settled) disk'
        end
    end.

End observeCompiler.

(** ** optimizer/bundle_cache.ts *)

Inductive NotCachedReason : Type :=
| cache_disabled
| missing_optimizer_cache_key
| optimizer_cache_key_mismatch
| bundle_references_outdated
| missing_cache_key
| cache_key_mismatch.

(** The two values a [diff] is rendered from. *)
Inductive CacheKeyDiff : Type :=
| diff_optimizerCacheKey (expected : option string) (received : string)
| diff_bundleRefExportIds (expected received : list string)
| diff_cacheKey (expected received : CacheKey.t).

(** ["bundle cached"] and ["bundle not cached"] events. *)
Inductive BundleCacheEvent : Type :=
| bundle_cached
| bundle_not_cached (reason : NotCachedReason) (diff : option CacheKeyDiff).

#[global] Instance NotCachedReason_eq_dec : EqDecision NotCachedReason.
Proof. solve_decision. Defined.

#[global] Instance BundleSpec_eq_dec : EqDecision BundleSpec.t.
Proof. solve_decision. Defined.

#[global] Instance CacheKey_eq_dec : EqDecision CacheKey.t.
Proof. solve_decision. Defined.

(** Modelled from the spec: the deep (structural) equality that sections 3
    and 4.3 compare cache keys with is not among the sources. Two objects
    are equal when they have the same property names, in whatever order,
    with equal values. *)
Definition obj_deep_equal {V} `{EqDecision V} (a b : JsObject V) : bool :=
  forallb (λ k, bool_decide (obj_get k a = obj_get k b)) (obj_keys a ++ obj_keys b).

(** Modelled from the spec: deep equality (see [obj_deep_equal]) of two
    cache keys, [{ spec, hashes }]. *)
Definition deep_equal (a b : CacheKey.t) : bool :=
  bool_decide (CacheKey.spec a = CacheKey.spec b)
  && obj_deep_equal (CacheKey.hashes a) (CacheKey.hashes b).

Module OptimizerConfig.

Record t : Type := mk {
  cache : bool;
  bundles : list Bundle.t;
}.

End OptimizerConfig.

(** Two arrays of ids hold the same ids. *)
Definition same_ids (a b : list string) : bool :=
  forallb (λ x, bool_decide (x ∈ b)) a && forallb (λ x, bool_decide (x ∈ a)) b.

Section bundle_cache.
Context `{NodeRuntime}.

(** Modelled from the spec: [optimizer/bundle_cache.ts]
    ([getBundleCacheEvent$]) is not among the sources, only its integration
    test is. The checks and their order are those of section 4.3, with one
    more case in step 2 that the test "optimizerCacheKey is missing" shows:
    it stores a record without [optimizerCacheKey], passes a key, and
    expects the reason "missing optimizer cache key". So that reason is
    given when the key that is passed in is absent and when the stored
    record lacks the key. The stored and the recomputed cache key are
    compared by deep equality. [resolved] are the export ids the bundle
    references now, [hashes] the hashes of the files on disk. *)
Definition bundleCacheEvent (cache : bool) (optimizerCacheKey : option string)
    (resolved : list string) (hashes : gmap string (option string))
    (disk : gmap string BundleCache.State) (bundle : Bundle.t)
  : BundleCacheEvent :=
  if negb cache then bundle_not_cached cache_disabled None
  else
    match optimizerCacheKey with
    | None => bundle_not_cached missing_optimizer_cache_key None
    | Some current =>
        let state := BundleCache.get disk (Bundle.cache bundle) in
        match BundleCache.optimizerCacheKey state with
        | None => bundle_not_cached missing_optimizer_cache_key None
        | Some cached =>
            if negb (String.eqb cached current) then
              bundle_not_cached optimizer_cache_key_mismatch
                (Some (diff_optimizerCacheKey (Some cached) current))
            else
              let ids := default [] (BundleCache.bundleRefExportIds state) in
              if negb (same_ids ids resolved) then
                bundle_not_cached bundle_references_outdated
                  (Some (diff_bundleRefExportIds resolved ids))
              else
                match BundleCache.cacheKey state with
                | None => bundle_not_cached missing_cache_key None
                | Some cachedKey =>
                    let key :=
                      Bundle.createCacheKey bundle
                        (default [] (BundleCache.files state)) hashes in
                    if deep_equal cachedKey key then bundle_cached
                    else bundle_not_cached cache_key_mismatch
                           (Some (diff_cacheKey cachedKey key))
                end
        end
    end.

(** Modelled from the spec: [getBundleCacheEvent$(config, optimizerCacheKey)]
    (see [bundleCacheEvent]) gives the events of the bundles of the config,
    each with its bundle. *)
Definition getBundleCacheEvent (config : OptimizerConfig.t)
    (optimizerCacheKey : option string) (resolved : Bundle.t → list string)
    (hashes : gmap string (option string))
    (disk : gmap string BundleCache.State)
  : list (Bundle.t * BundleCacheEvent) :=
  (λ bundle,
     (bundle,
      bundleCacheEvent (OptimizerConfig.cache config) optimizerCacheKey
        (resolved bundle) hashes disk bundle))
  <$> OptimizerConfig.bundles config.

(** Section 4.3 word for word, to set against the tests: step 2 asks
    whether the key that is passed in is there, step 3 compares the stored
    key, there or not, with it. *)
Definition decision_of_section_4_3 (cache : bool)
    (optimizerCacheKey : option string) (resolved : list string)
    (hashes : gmap string (option string))
    (disk : gmap string BundleCache.State) (bundle : Bundle.t)
  : BundleCacheEvent :=
  if negb cache then bundle_not_cached cache_disabled None
  else
    match optimizerCacheKey with
    | None => bundle_not_cached missing_optimizer_cache_key None
    | Some current =>
        let state := BundleCache.get disk (Bundle.cache bundle) in
        if negb (bool_decide (BundleCache.optimizerCacheKey state = Some current)) then
          bundle_not_cached optimizer_cache_key_mismatch
            (Some (diff_optimizerCacheKey (BundleCache.optimizerCacheKey state)
                     current))
        else
          let ids := default [] (BundleCache.bundleRefExportIds state) in
          if negb (same_ids ids resolved) then
            bundle_not_cached bundle_references_outdated
              (Some (diff_bundleRefExportIds resolved ids))
          else
            match BundleCache.cacheKey state with
            | None => bundle_not_cached missing_cache_key None
            | Some cachedKey =>
                let key :=
                  Bundle.createCacheKey bundle
                    (default [] (BundleCache.files state)) hashes in
                if deep_equal cachedKey key then bundle_cached
                else bundle_not_cached cache_key_mismatch
                       (Some (diff_cacheKey cachedKey key))
            end
    end.

End bundle_cache.

(** ** A runtime to evaluate on

    POSIX paths without [.] and [..] segments, strings compared by their
    characters, and JSON texts of strings, integers, arrays and objects. This
    instance is what the examples below are computed with; the general
    statements hold for every [NodeRuntime]. *)

Module Posix.

Definition dq : ascii := ascii_of_nat 34.
Definition backslash : ascii := ascii_of_nat 92.

Definition is_space (c : ascii) : bool :=
  Ascii.eqb c " " || Ascii.eqb c (ascii_of_nat 10)
  || Ascii.eqb c (ascii_of_nat 13) || Ascii.eqb c (ascii_of_nat 9).

Fixpoint skip_ws (s : list ascii) : list ascii :=
  match s with
  | c :: s' => if is_space c then skip_ws s' else s
  | [] => []
  end.

(** The characters of a string literal after its opening quote. *)
Fixpoint parse_string_body (s : list ascii) : option (string * list ascii) :=
  match s with
  | [] => None
  | c :: s' =>
      if Ascii.eqb c dq then Some (EmptyString, s')
      else if Ascii.eqb c backslash then
        match s' with
        | e :: s'' =>
            match parse_string_body s'' with
            | Some (r, rest) =>
                Some (String (if Ascii.eqb e "n" then ascii_of_nat 10 else e) r, rest)
            | None => None
            end
        | [] => None
        end
      else
        match parse_string_body s' with
        | Some (r, rest) => Some (String c r, rest)
        | None => None
        end
  end.

Definition digit_of (c : ascii) : option Z :=
  let n := nat_of_ascii c in
  if (48 <=? n)%nat && (n <=? 57)%nat then Some (Z.of_nat (n - 48)) else None.

Definition is_digit (c : ascii) : bool :=
  match digit_of c with
  | Some _ => true
  | None => false
  end.

Fixpoint parse_digits (acc : Z) (s : list ascii) : Z * list ascii :=
  match s with
  | c :: s' =>
      match digit_of c with
      | Some d => parse_digits (10 * acc + d) s'
      | None => (acc, s)
      end
  | [] => (acc, [])
  end.

Fixpoint strip_prefix (pre s : list ascii) : option (list ascii) :=
  match pre, s with
  | [], _ => Some s
  | p :: pre', c :: s' => if Ascii.eqb p c then strip_prefix pre' s' else None
  | _ :: _, [] => None
  end.

Fixpoint parse_value (fuel : nat) (s : list ascii) : option (value * list ascii) :=
  match fuel with
  | 0 => None
  | S fuel =>
      match skip_ws s with
      | [] => None
      | c :: rest =>
          if Ascii.eqb c dq then
            match parse_string_body rest with
            | Some (str, rest') => Some (VString str, rest')
            | None => None
            end
          else if Ascii.eqb c "[" then
            match skip_ws rest with
            | c' :: rest' =>
                if Ascii.eqb c' "]" then Some (VArray [], rest')
                else
                  match parse_elements fuel rest with
                  | Some (vs, rest'') => Some (VArray vs, rest'')
                  | None => None
                  end
            | [] => None
            end
          else if Ascii.eqb c "{" then
            match skip_ws rest with
            | c' :: rest' =>
                if Ascii.eqb c' "}" then Some (VObject [], rest')
                else
                  match parse_members fuel rest with
                  | Some (ps, rest'') => Some (VObject ps, rest'')
                  | None => None
                  end
            | [] => None
            end
          else if Ascii.eqb c "-" then
            match rest with
            | d :: _ =>
                if is_digit d
                then let '(n, rest') := parse_digits 0 rest in
                     Some (VNumber (- n), rest')
                else None
            | [] => None
            end
          else if is_digit c then
            let '(n, rest') := parse_digits 0 (c :: rest) in
            Some (VNumber n, rest')
          else
            match strip_prefix (list_ascii_of_string "true") (c :: rest) with
            | Some rest' => Some (VBool true, rest')
            | None =>
                match strip_prefix (list_ascii_of_string "false") (c :: rest) with
                | Some rest' => Some (VBool false, rest')
                | None =>
                    match strip_prefix (list_ascii_of_string "null") (c :: rest) with
                    | Some rest' => Some (VNull, rest')
                    | None => None
                    end
                end
            end
      end
  end
with parse_elements (fuel : nat) (s : list ascii) : option (list value * list ascii) :=
  match fuel with
  | 0 => None
  | S fuel =>
      match parse_value fuel s with
      | Some (v, s1) =>
          match skip_ws s1 with
          | c :: s2 =>
              if Ascii.eqb c "," then
                match parse_elements fuel s2 with
                | Some (vs, s3) => Some (v :: vs, s3)
                | None => None
                end
              else if Ascii.eqb c "]" then Some ([v], s2)
              else None
          | [] => None
          end
      | None => None
      end
  end
with parse_members (fuel : nat) (s : list ascii)
  : option (list (string * value) * list ascii) :=
  match fuel with
  | 0 => None
  | S fuel =>
      match skip_ws s with
      | q :: s0 =>
          if Ascii.eqb q dq then
            match parse_string_body s0 with
            | Some (k, s1) =>
                match skip_ws s1 with
                | colon :: s2 =>
                    if Ascii.eqb colon ":" then
                      match parse_value fuel s2 with
                      | Some (v, s3) =>
                          match skip_ws s3 with
                          | c :: s4 =>
                              if Ascii.eqb c "," then
                                match parse_members fuel s4 with
                                | Some (ps, s5) =>
                                    Some ((k, default v (obj_get k ps))
                                          :: filter (λ e, e.1 ≠ k) ps, s5)
                                | None => None
                                end
                              else if Ascii.eqb c "}" then Some ([(k, v)], s4)
                              else None
                          | [] => None
                          end
                      | None => None
                      end
                    else None
                | [] => None
                end
            | None => None
            end
          else None
      | [] => None
      end
  end.

Definition parse (text : string) : result value :=
  let s := list_ascii_of_string text in
  match parse_value (2 * length s + 2) s with
  | Some (v, rest) =>
      match skip_ws rest with
      | [] => ret v
      | _ => throw (SyntaxError "Unexpected token in JSON")
      end
  | None => throw (SyntaxError "Unexpected end of JSON input")
  end.

Fixpoint escape (s : string) : string :=
  match s with
  | EmptyString => EmptyString
  | String c s' =>
      if Ascii.eqb c dq || Ascii.eqb c backslash
      then String backslash (String c (escape s'))
      else String c (escape s')
  end.

Definition quote (s : string) : string :=
  String dq (escape s) +:+ String dq EmptyString.

Fixpoint digits_of (fuel : nat) (n : N) (acc : string) : string :=
  match fuel with
  | 0 => acc
  | S fuel =>
      let acc' := String (ascii_of_N (48 + n mod 10)) acc in
      if (n / 10 =? 0)%N then acc' else digits_of fuel (n / 10)%N acc'
  end.

Definition number_text (n : Z) : string :=
  let digits := digits_of (S (N.to_nat (N.log2 (Z.abs_N n)))) (Z.abs_N n) EmptyString in
  if (n <? 0)%Z then String "-" digits else digits.

Fixpoint stringify (v : value) : string :=
  match v with
  | VUndefined | VNull => "null"
  | VBool b => if b then "true" else "false"
  | VNumber n => number_text n
  | VString s => quote s
  | VArray l => "[" +:+ String.concat "," (map stringify l) +:+ "]"
  | VObject props =>
      "{" +:+
      String.concat ","
        (omap (λ x, x)
           (map (λ kv : string * value,
                   let '(k, x) := kv in
                   if is_undefined x then None
                   else Some (quote k +:+ ":" +:+ stringify x)) props))
      +:+ "}"
  end.

Fixpoint split_on (sep : ascii) (s : string) : list string :=
  match s with
  | EmptyString => [EmptyString]
  | String c s' =>
      if Ascii.eqb c sep then EmptyString :: split_on sep s'
      else
        match split_on sep s' with
        | h :: t => String c h :: t
        | [] => [String c EmptyString]
        end
  end.

(** Runs of [/] collapse. *)
Fixpoint normalize (s : string) : string :=
  match s with
  | String a s' =>
      match s' with
      | String b _ =>
          if Ascii.eqb a "/" && Ascii.eqb b "/" then normalize s'
          else String a (normalize s')
      | EmptyString => s
      end
  | EmptyString => EmptyString
  end.

Definition join (segments : list string) : string :=
  normalize (String.concat "/" (filter (λ s, s ≠ EmptyString) segments)).

#[export] Instance runtime : NodeRuntime := {|
  localeCompare := String.compare;
  JSON_parse := parse;
  JSON_stringify := stringify;
  Path_isAbsolute := String.prefix "/";
  Path_resolve := join;
  Path_join := join;
|}.

(** [A] to [Z] become [a] to [z]. *)
Definition lower (s : string) : string :=
  string_of_list_ascii
    ((λ c, let n := nat_of_ascii c in
           if (65 <=? n)%nat && (n <=? 90)%nat then ascii_of_nat (n + 32) else c)
       <$> list_ascii_of_string s).

(** The same runtime with a comparator that has ties: it does not tell
    upper case from lower case. *)
Definition caseless : NodeRuntime := {|
  localeCompare := λ a b, String.compare (lower a) (lower b);
  JSON_parse := parse;
  JSON_stringify := stringify;
  Path_isAbsolute := String.prefix "/";
  Path_resolve := join;
  Path_join := join;
|}.

(** A path splits at [/] into a root, directories and a file name. *)
#[export] Instance common : OptimizerCommon := {|
  parseFilePath path :=
    match split_on "/" path with
    | root :: others =>
        {| ParsedPath.root := if String.eqb root EmptyString then "/" else root;
           ParsedPath.dirs := removelast others;
           ParsedPath.filename :=
             match last others with
             | Some (String c name) => Some (String c name)
             | _ => None
             end |}
    | [] =>
        {| ParsedPath.root := "/"; ParsedPath.dirs := []; ParsedPath.filename := None |}
    end
|}.

End Posix.

(** ** The mock repository of the tests

    Plugin [foo] of [__fixtures__/mock_repo] and the records the tests of
    [bundle_cache.test.ts] store for it, evaluated with the runtime above. *)

Module Examples.
Import Posix.

Definition foo_spec : BundleSpec.t :=
  {| BundleSpec.type := "plugin";
     BundleSpec.id := "foo";
     BundleSpec.publicDirNames := ["public"];
     BundleSpec.contextDir := "/mock_repo/plugins/foo";
     BundleSpec.sourceRoot := "/mock_repo";
     BundleSpec.outputDir := "/mock_repo/plugins/foo/target/public";
     BundleSpec.banner := None;
     BundleSpec.manifestPath := Some "/mock_repo/plugins/foo/opensearch_dashboards.json" |}.

Definition foo : Bundle.t := Bundle.new foo_spec.

Definition files : list string :=
  ["/mock_repo/plugins/foo/public/ext.ts";
   "/mock_repo/plugins/foo/public/index.ts";
   "/mock_repo/plugins/foo/public/lib.ts"].

Definition hash_entries : list (string * option string) :=
  [("/mock_repo/plugins/foo/public/ext.ts", Some "hash-of-ext");
   ("/mock_repo/plugins/foo/public/index.ts", Some "hash-of-index");
   ("/mock_repo/plugins/foo/public/lib.ts", Some "hash-of-lib")].

Definition hashes : gmap string (option string) := Map_of_entries hash_entries.

(** [bundle.cache.set({ cacheKey, optimizerCacheKey, files, moduleCount,
    bundleRefExportIds })] on an empty disk. *)
Definition stored (cacheKey : option CacheKey.t) (optimizerCacheKey : option string)
    (bundleRefExportIds : list string) : gmap string BundleCache.State :=
  {[ BundleCache.path (Bundle.cache foo) :=
       {| BundleCache.optimizerCacheKey := optimizerCacheKey;
          BundleCache.cacheKey := cacheKey;
          BundleCache.moduleCount := Some (length files);
          BundleCache.workUnits := None;
          BundleCache.files := Some files;
          BundleCache.bundleRefExportIds := Some bundleRefExportIds |} ]}.

Definition cacheKey : CacheKey.t := Bundle.createCacheKey foo files hashes.

(** A key of another state of the files, for the test that stores ['old']. *)
Definition old_cacheKey : CacheKey.t := Bundle.createCacheKey foo files ∅.

(** The config of the tests, with [cache: false] in the second. *)
Definition config (cache : bool) : OptimizerConfig.t :=
  {| OptimizerConfig.cache := cache; OptimizerConfig.bundles := [foo] |}.

(** Plugin [foo] references no other bundle. *)
Definition resolved (bundle : Bundle.t) : list string := [].

(** A manifest file with the given content at the manifest path of [foo],
    and nothing else on disk. *)
Definition manifest_on_disk (manifest : value) : FileSystem :=
  λ path,
    if String.eqb path "/mock_repo/plugins/foo/opensearch_dashboards.json"
    then ret (Posix.stringify manifest)
    else throw (SystemError "ENOENT" "no such file or directory").

Definition no_files : FileSystem :=
  λ path, throw (SystemError "ENOENT" "no such file or directory").


(** A pass over a source file, a stylesheet with one import, a module of a
    scoped package, a bundle reference and a concatenated module. *)
Definition modules : list WebpackModule :=
  [NormalModule "/mock_repo/plugins/foo/public/index.ts" [];
   NormalModule "/mock_repo/plugins/foo/public/styles.scss"
     ["/mock_repo/plugins/foo/public/_vars.scss"];
   NormalModule "/mock_repo/node_modules/@scope/pkg/lib/x.js" [];
   BundleRefModule "plugin/bar/public";
   ConcatenatedModule [ExternalModule; IgnoredModule];
   ExternalModule].

Definition stats : Stats.t :=
  {| Stats.needAdditionalPass := false;
     Stats.failure := None;
     Stats.fileDependencies_size := 7;
     Stats.modules := modules |}.

(** A pass with one module, a file right below [node_modules]. *)
Definition stats_below_node_modules : Stats.t :=
  {| Stats.needAdditionalPass := false;
     Stats.failure := None;
     Stats.fileDependencies_size := 1;
     Stats.modules := [NormalModule "/mock_repo/node_modules/x.js" []] |}.

Definition workerConfig : WorkerConfig.t :=
  {| WorkerConfig.watch := false;
     WorkerConfig.profileWebpack := false;
     WorkerConfig.optimizerCacheKey := "optimizerCacheKey" |}.

(** Hashing works and the cache file can be written. *)
Definition outside_ok : Outside :=
  {| getHashes := λ files, ret (Map_of_entries ((λ p, (p, Some "hash")) <$> files));
     cache_writable := true;
     stats_writable := true |}.

(** Hashing fails and the cache file cannot be written. *)
Definition outside_broken : Outside :=
  {| getHashes := λ files, throw (SystemError "EIO" "i/o error");
     cache_writable := false;
     stats_writable := true |}.

End Examples.

(** ** integration_tests/bundle_cache.test.ts

    Each test builds the config of plugin [foo], hands a record to
    [bundle.cache.set], asks [getBundleCacheEvent$(config,
    optimizerCacheKey)] for the events and matches them against an inline
    snapshot. *)

Module CacheTest.

(** What a test sets up and what its snapshot holds: [cache] of the config,
    the record it stores, the key it passes, and the event of the snapshot
    (the reason, and the two values the [diff] shows, if any). *)
Record t : Type := mk {
  cache : bool;
  record : BundleCache.State;
  optimizerCacheKey : option string;
  snapshot : BundleCacheEvent;
}.

End CacheTest.

Module CacheTests.
Import Posix Examples.

(** The record of a test: [files], [moduleCount: files.length] and the
    three fields that differ from test to test. *)
Definition record (cacheKey : option CacheKey.t) (optimizerCacheKey : option string)
    (bundleRefExportIds : list string) : BundleCache.State :=
  {| BundleCache.optimizerCacheKey := optimizerCacheKey;
     BundleCache.cacheKey := cacheKey;
     BundleCache.moduleCount := Some (length files);
     BundleCache.workUnits := None;
     BundleCache.files := Some files;
     BundleCache.bundleRefExportIds := Some bundleRefExportIds |}.

(** "emits bundle cached event when everything is updated", lines 65-101. *)
Definition everything_is_updated : CacheTest.t :=
  {| CacheTest.cache := true;
     CacheTest.record := record (Some cacheKey) (Some "optimizerCacheKey") [];
     CacheTest.optimizerCacheKey := Some "optimizerCacheKey";
     CacheTest.snapshot := bundle_cached |}.

(** "... when cacheKey is up to date but caching is disabled in config",
    lines 103-141. *)
Definition caching_is_disabled : CacheTest.t :=
  {| CacheTest.cache := false;
     CacheTest.record := record (Some cacheKey) (Some "optimizerCacheKey") [];
     CacheTest.optimizerCacheKey := Some "optimizerCacheKey";
     CacheTest.snapshot := bundle_not_cached cache_disabled None |}.

(** "... when optimizerCacheKey is missing", lines 143-180: the record has
    [optimizerCacheKey: undefined], the call passes ['optimizerCacheKey'],
    the snapshot has no [diff]. *)
Definition optimizerCacheKey_is_missing : CacheTest.t :=
  {| CacheTest.cache := true;
     CacheTest.record := record (Some cacheKey) None [];
     CacheTest.optimizerCacheKey := Some "optimizerCacheKey";
     CacheTest.snapshot := bundle_not_cached missing_optimizer_cache_key None |}.

(** "... when optimizerCacheKey is outdated, includes diff", lines 182-224:
    the diff expects ["old"] and receives ["optimizerCacheKey"]. *)
Definition optimizerCacheKey_is_outdated : CacheTest.t :=
  {| CacheTest.cache := true;
     CacheTest.record := record (Some cacheKey) (Some "old") [];
     CacheTest.optimizerCacheKey := Some "optimizerCacheKey";
     CacheTest.snapshot :=
       bundle_not_cached optimizer_cache_key_mismatch
         (Some (diff_optimizerCacheKey (Some "old") "optimizerCacheKey")) |}.

(** "... when bundleRefExportIds is outdated, includes diff", lines 226-269:
    the diff expects the empty array and receives the stored one. *)
Definition bundleRefExportIds_is_outdated : CacheTest.t :=
  {| CacheTest.cache := true;
     CacheTest.record :=
       record (Some cacheKey) (Some "optimizerCacheKey") ["plugin/bar/public"];
     CacheTest.optimizerCacheKey := Some "optimizerCacheKey";
     CacheTest.snapshot :=
       bundle_not_cached bundle_references_outdated
         (Some (diff_bundleRefExportIds [] ["plugin/bar/public"])) |}.

(** "... when cacheKey is missing", lines 271-304. *)
Definition cacheKey_is_missing : CacheTest.t :=
  {| CacheTest.cache := true;
     CacheTest.record := record None (Some "optimizerCacheKey") [];
     CacheTest.optimizerCacheKey := Some "optimizerCacheKey";
     CacheTest.snapshot := bundle_not_cached missing_cache_key None |}.

(** "... when cacheKey is outdated", lines 306-350. The test stores the key
    ['old'] and mocks [createCacheKey] to return ['new']; here the stored
    key is the key of another state of the files, and the recomputed key is
    the key of the files as they are. *)
Definition cacheKey_is_outdated : CacheTest.t :=
  {| CacheTest.cache := true;
     CacheTest.record := record (Some old_cacheKey) (Some "optimizerCacheKey") [];
     CacheTest.optimizerCacheKey := Some "optimizerCacheKey";
     CacheTest.snapshot :=
       bundle_not_cached cache_key_mismatch
         (Some (diff_cacheKey old_cacheKey cacheKey)) |}.

Definition all : list CacheTest.t :=
  [everything_is_updated; caching_is_disabled; optimizerCacheKey_is_missing;
   optimizerCacheKey_is_outdated; bundleRefExportIds_is_outdated;
   cacheKey_is_missing; cacheKey_is_outdated].

(** [bundle.cache.set(record)] on the disk of the test. *)
Definition disk (test : CacheTest.t) : gmap string BundleCache.State :=
  {[ BundleCache.path (Bundle.cache foo) := CacheTest.record test ]}.

(** The events a decision procedure gives in the setting of a test. *)
Definition events_of
    (decide_event : bool → option string → list string →
                    gmap string (option string) → gmap string BundleCache.State →
                    Bundle.t → BundleCacheEvent)
    (test : CacheTest.t) : list (Bundle.t * BundleCacheEvent) :=
  (λ bundle,
     (bundle,
      decide_event (CacheTest.cache test) (CacheTest.optimizerCacheKey test)
        (resolved bundle) hashes (disk test) bundle))
  <$> OptimizerConfig.bundles (config (CacheTest.cache test)).

End CacheTests.

(** ** What the statements below speak of *)

(** An optional array of strings as the value of a manifest property. *)
Definition of_optional_strings (o : option (list string)) : value :=
  match o with
  | Some l => VArray (VString <$> l)
  | None => VUndefined
  end.


(** The number of modules that add [EXTRA_SCSS_WORK_UNITS]. *)
Definition stylesheet_modules `{OptimizerCommon} (modules : list WebpackModule) : nat :=
  length (List.filter is_stylesheet_module modules).

(** ** More of what the statements speak of *)

(** The names [parseBundles] reads of a spec. *)
Definition BUNDLE_SPEC_KEYS : list string :=
  ["type"; "id"; "publicDirNames"; "contextDir"; "sourceRoot"; "outputDir";
   "manifestPath"; "banner"].

(** What the checks of [parseBundles] have established of an element of
    the array once it has become a bundle: the element is an object; its
    [type] is one of [VALID_BUNDLE_TYPES]; its [id] is a string; its
    [publicDirNames] is an array of strings; its [contextDir], [sourceRoot]
    and [outputDir] are strings and absolute paths; its [manifestPath] is
    [undefined] or a string and an absolute path; its [banner] is
    [undefined] or a string. The bundle holds these very values, and its
    cache is at [.osd-optimizer-cache] below its [outputDir]. *)
Definition passes_checks `{NodeRuntime} (spec : value) (b : Bundle.t) : Prop :=
  truthy spec = true
  ∧ typeof spec = "object"
  ∧ get_prop spec "type" = VString (Bundle.type b)
  ∧ Bundle.type b ∈ VALID_BUNDLE_TYPES
  ∧ get_prop spec "id" = VString (Bundle.id b)
  ∧ get_prop spec "publicDirNames" = VArray (VString <$> Bundle.publicDirNames b)
  ∧ get_prop spec "contextDir" = VString (Bundle.contextDir b)
  ∧ Path_isAbsolute (Bundle.contextDir b) = true
  ∧ get_prop spec "sourceRoot" = VString (Bundle.sourceRoot b)
  ∧ Path_isAbsolute (Bundle.sourceRoot b) = true
  ∧ get_prop spec "outputDir" = VString (Bundle.outputDir b)
  ∧ Path_isAbsolute (Bundle.outputDir b) = true
  ∧ get_prop spec "manifestPath" = of_optional_string (Bundle.manifestPath b)
  ∧ (∀ mp, Bundle.manifestPath b = Some mp → Path_isAbsolute mp = true)
  ∧ get_prop spec "banner" = of_optional_string (Bundle.banner b)
  ∧ BundleCache.path (Bundle.cache b)
    = Path_resolve [Bundle.outputDir b; ".osd-optimizer-cache"].

(** What a turn of the loop adds to [moduleCount]. *)
Definition counted (module : WebpackModule) : nat :=
  match module with
  | NormalModule _ _ => 1
  | ConcatenatedModule modules => length modules
  | _ => 0
  end.

Definition counted_modules (modules : list WebpackModule) : nat :=
  sum_list (counted <$> modules).

(** The export ids of the bundle references among the modules, in order. *)
Definition exportIds (modules : list WebpackModule) : list string :=
  omap (λ module,
          match module with
          | BundleRefModule exportId => Some exportId
          | _ => None
          end) modules.

(** A call of a hook of the compiler: [beforeRun], [watchRun], [done] with
    its stats, [failed] with its error. A [done] comes with what is outside
    the handler during that call. *)
Inductive HookEvent : Type :=
| hook_beforeRun
| hook_watchRun
| hook_done (stats : Stats.t) (out : Outside)
| hook_failed (error : exn).

(** The observable [observeCompiler] returns: still open, completed by
    [takeUntil(done$)], or ended by an error, which is what a callback threw. *)
Inductive StreamState : Type :=
| stream_open
| stream_completed
| stream_errored (thrown : exn + CompilerMsg).

Module Stream.

(** The state of the observable, the messages it has emitted in order, and
    the cache files. *)
Record t : Type := mk {
  state : StreamState;
  emitted : list CompilerMsg;
  disk : gmap string BundleCache.State;
}.

End Stream.

Definition bundleId_of (msg : CompilerMsg) : string :=
  match msg with
  | compilerRunning bundleId
  | compilerSuccess bundleId _
  | compilerFailure bundleId _
  | compilerError bundleId _ => bundleId
  end.

(** A message that ends a pass. *)
Definition is_terminal (msg : CompilerMsg) : bool :=
  match msg with
  | compilerSuccess _ _ | compilerFailure _ _ => true
  | _ => false
  end.

Section observeCompiler_stream.
Context `{NodeRuntime} `{OptimizerCommon}.

(** [Rx.merge(started$, complete$, error$).pipe(takeUntil(done$))] on one
    call of a hook. [started$] maps [beforeRun] and [watchRun] to
    [compilerMsgs.running()]. [complete$] passes the stats of [done] to the
    handler: [undefined] is dropped by [maybeMap], a message is emitted, a
    throw ends the observable with what was thrown. The [done$.next()] the
    handler schedules with [process.nextTick] runs once the hook has
    returned, before the next call of a hook. [error$] throws
    [compilerMsgs.error(error)]. An observable that has ended takes no
    further notice. *)
Definition observe_step (workerConfig : WorkerConfig.t) (bundle : Bundle.t)
    (s : Stream.t) (event : HookEvent) : Stream.t :=
  match Stream.state s with
  | stream_open =>
      match event with
      | hook_beforeRun | hook_watchRun =>
          Stream.mk stream_open
            (Stream.emitted s ++ [compilerRunning (Bundle.id bundle)])
            (Stream.disk s)
      | hook_done stats out =>
          let handled := complete out workerConfig bundle stats (Stream.disk s) in
          match Handled.msg handled with
          | inl e =>
              Stream.mk (stream_errored (inl e)) (Stream.emitted s)
                (Handled.disk handled)
          | inr msg =>
              Stream.mk
                (if Handled.done_scheduled handled then stream_completed
                 else stream_open)
                (Stream.emitted s ++ option_list msg)
                (Handled.disk handled)
          end
      | hook_failed error =>
          Stream.mk
            (stream_errored (inr (compilerError (Bundle.id bundle) (exn_message error))))
            (Stream.emitted s) (Stream.disk s)
      end
  | _ => s
  end.

(** The observable over the calls of the hooks of one compiler. *)
Definition observeCompiler (workerConfig : WorkerConfig.t) (bundle : Bundle.t)
    (disk : gmap string BundleCache.State) (events : list HookEvent) : Stream.t :=
  foldl (observe_step workerConfig bundle) (Stream.mk stream_open [] disk) events.

End observeCompiler_stream.

Module Run.

(** The observable [runCompilers] returns: its state, the messages it has
    emitted in order, the state of the observable of each compiler, and the
    cache files. *)
Record t : Type := mk {
  state : StreamState;
  emitted : list CompilerMsg;
  compilers : list StreamState;
  disk : gmap string BundleCache.State;
}.

End Run.

Definition is_completed (state : StreamState) : bool :=
  match state with
  | stream_completed => true
  | _ => false
  end.

(** [mergeMap] has completed once its source, the entries of
    [multiCompiler.compilers], is used up and every inner observable has
    completed. *)
Definition merged_state (compilers : list StreamState) : StreamState :=
  if forallb is_completed compilers then stream_completed else stream_open.

Section runCompilers_stream.
Context `{NodeRuntime} `{OptimizerCommon}.

(** The merged observable on one call of a hook of the compiler at
    [compilerIndex], which is the compiler of [bundles[compilerIndex]]. The
    message the inner observable emits is emitted; an error of an inner
    observable ends the merged one with that error; the completion of the
    last inner observable completes it. The [Rx.defer] that starts the
    compilers emits nothing. *)
Definition run_step (workerConfig : WorkerConfig.t) (bundles : list Bundle.t)
    (r : Run.t) (call : nat * HookEvent) : Run.t :=
  match Run.state r with
  | stream_open =>
      match bundles !! call.1, Run.compilers r !! call.1 with
      | Some bundle, Some inner =>
          let s :=
            observe_step workerConfig bundle (Stream.mk inner [] (Run.disk r)) call.2 in
          let compilers := <[call.1 := Stream.state s]> (Run.compilers r) in
          Run.mk
            (match Stream.state s with
             | stream_errored thrown => stream_errored thrown
             | _ => merged_state compilers
             end)
            (Run.emitted r ++ Stream.emitted s) compilers (Stream.disk s)
      | _, _ => r
      end
  | _ => r
  end.

(** The observable over the calls of the hooks of the compilers, each call
    with the index of its compiler. *)
Definition runCompilers (workerConfig : WorkerConfig.t) (bundles : list Bundle.t)
    (disk : gmap string BundleCache.State) (calls : list (nat * HookEvent)) : Run.t :=
  let compilers := replicate (length bundles) stream_open in
  foldl (run_step workerConfig bundles)
    (Run.mk (merged_state compilers) [] compilers disk) calls.

End runCompilers_stream.

(** The calls of the hooks of the compiler at [compilerIndex]. *)
Definition calls_of (compilerIndex : nat) (calls : list (nat * HookEvent))
  : list HookEvent :=
  snd <$> List.filter (λ call, bool_decide (call.1 = compilerIndex)) calls.

(** The messages so far are all [Running], or they are followed by one
    message that ends a pass and completes the observable. *)
Definition run_shape (bundle : Bundle.t) (s : Stream.t) : Prop :=
  (Stream.state s ≠ stream_completed
   ∧ Forall (λ msg, msg = compilerRunning (Bundle.id bundle)) (Stream.emitted s))
  ∨ (Stream.state s = stream_completed
     ∧ ∃ running last,
         Stream.emitted s = running ++ [last]
         ∧ Forall (λ msg, msg = compilerRunning (Bundle.id bundle)) running
         ∧ is_terminal last = true
         ∧ bundleId_of last = Bundle.id bundle).

Definition count_of (b : bool) : nat := if b then 1 else 0.

(** The messages that end a pass are as many as the compilers that have
    completed, and the merged observable has completed exactly when all
    have. *)
Definition run_counted (r : Run.t) : Prop :=
  length (List.filter is_terminal (Run.emitted r))
  = length (List.filter is_completed (Run.compilers r))
  ∧ (Run.state r = stream_completed ↔ forallb is_completed (Run.compilers r) = true).

Section references.
Context `{NodeRuntime} `{OptimizerCommon}.

(** The files a turn of the loop adds to [referencedFiles] for a module: the
    path of a normal module outside [node_modules], with its file
    dependencies when it ends in [.scss]; the [package.json] of the package
    of a normal module below [node_modules]; nothing for the other kinds. *)
Definition references (module : WebpackModule) : list string :=
  match module with
  | NormalModule path fileDependencies =>
      let parsedPath := parseFilePath path in
      if negb (bool_decide ("node_modules" ∈ ParsedPath.dirs parsedPath)) then
        path :: (if endsWith path ".scss" then fileDependencies else [])
      else
        let nmIndex := lastIndexOf (ParsedPath.dirs parsedPath) "node_modules" in
        match Array_at (ParsedPath.dirs parsedPath) (nmIndex + 1) with
        | None => []
        | Some dir =>
            [Path_join
               (ParsedPath.root parsedPath
                :: Array_slice0 (ParsedPath.dirs parsedPath)
                     (nmIndex + 1 + (if startsWith dir "@" then 2 else 1))
                ++ ["package.json"])]
        end
  | _ => []
  end.

(** The record the handler hands to [bundle.cache.set] after the loop. *)
Definition record_of (workerConfig : WorkerConfig.t) (bundle : Bundle.t)
    (st : Pass.t) (files : list string) (hashes : gmap string (option string))
  : BundleCache.State :=
  {| BundleCache.bundleRefExportIds := Some (Pass.bundleRefExportIds st);
     BundleCache.optimizerCacheKey :=
       Some (WorkerConfig.optimizerCacheKey workerConfig);
     BundleCache.cacheKey := Some (Bundle.createCacheKey bundle files hashes);
     BundleCache.moduleCount := Some (Pass.moduleCount st);
     BundleCache.workUnits := Some (Pass.workUnits st);
     BundleCache.files := Some files |}.

End references.

(** A [done] whose compilation asks for another pass. *)
Definition asks_additional_pass (event : HookEvent) : bool :=
  match event with
  | hook_done stats _ => Stats.needAdditionalPass stats
  | _ => false
  end.

(** More of the mock repository: a second plugin, and calls of the hooks. *)
Module Scenarios.
Import Posix Examples.

Definition bar_spec : BundleSpec.t :=
  {| BundleSpec.type := "plugin";
     BundleSpec.id := "bar";
     BundleSpec.publicDirNames := ["public"];
     BundleSpec.contextDir := "/mock_repo/plugins/bar";
     BundleSpec.sourceRoot := "/mock_repo";
     BundleSpec.outputDir := "/mock_repo/plugins/bar/target/public";
     BundleSpec.banner := Some "/*! bar */";
     BundleSpec.manifestPath := None |}.

(** The object of [foo_spec] with its properties in another order and one
    more property. *)
Definition foo_properties_reordered : list (string * value) :=
  [("extra", VNumber 1);
   ("banner", VUndefined);
   ("outputDir", VString "/mock_repo/plugins/foo/target/public");
   ("manifestPath", VString "/mock_repo/plugins/foo/opensearch_dashboards.json");
   ("sourceRoot", VString "/mock_repo");
   ("contextDir", VString "/mock_repo/plugins/foo");
   ("publicDirNames", VArray [VString "public"]);
   ("id", VString "foo");
   ("type", VString "plugin")].

Definition foo_object_reordered : value := VObject foo_properties_reordered.

(** The properties of [foo_spec] as [JSON.parse] gives them. *)
Definition foo_properties : list (string * value) :=
  [("type", VString "plugin");
   ("id", VString "foo");
   ("publicDirNames", VArray [VString "public"]);
   ("contextDir", VString "/mock_repo/plugins/foo");
   ("sourceRoot", VString "/mock_repo");
   ("outputDir", VString "/mock_repo/plugins/foo/target/public");
   ("manifestPath", VString "/mock_repo/plugins/foo/opensearch_dashboards.json")].

Definition bar : Bundle.t := Bundle.new bar_spec.

(** The manifest of [foo] with a required plugin and a required bundle. *)
Definition foo_manifest : value :=
  VObject
    [("id", VString "foo");
     ("requiredPlugins", VArray [VString "data"]);
     ("requiredBundles", VArray [VString "bar"])].

(** The same manifest on a disk where every other path holds a file. *)
Definition crowded_disk : FileSystem :=
  λ path,
    if String.eqb path "/mock_repo/plugins/foo/opensearch_dashboards.json"
    then ret (Posix.stringify foo_manifest)
    else ret "{}".

(** A spec with a relative [contextDir]. *)
Definition relative_object : value :=
  VObject
    [("type", VString "plugin");
     ("id", VString "baz");
     ("publicDirNames", VArray []);
     ("contextDir", VString "plugins/baz");
     ("sourceRoot", VString "/mock_repo");
     ("outputDir", VString "/mock_repo/plugins/baz/target/public")].

(** A pass that asks for another one. *)
Definition stats_additional_pass : Stats.t :=
  {| Stats.needAdditionalPass := true;
     Stats.failure := None;
     Stats.fileDependencies_size := 7;
     Stats.modules := modules |}.

(** A pass that ends with errors of the compilation. *)
Definition stats_failure : Stats.t :=
  {| Stats.needAdditionalPass := false;
     Stats.failure := Some "Module not found";
     Stats.fileDependencies_size := 7;
     Stats.modules := [UnknownModule "CssModule {}"] |}.

Definition watchConfig : WorkerConfig.t :=
  {| WorkerConfig.watch := true;
     WorkerConfig.profileWebpack := false;
     WorkerConfig.optimizerCacheKey := "optimizerCacheKey" |}.

(** A run: a pass that asks for another one, then the pass that ends it, then
    a call that comes too late. *)
Definition run_events : list HookEvent :=
  [hook_beforeRun;
   hook_done stats_additional_pass outside_ok;
   hook_done stats outside_ok;
   hook_beforeRun;
   hook_done stats_failure outside_ok].

(** Watching: two passes, the second one fails. *)
Definition watch_events : list HookEvent :=
  [hook_watchRun;
   hook_done stats outside_ok;
   hook_watchRun;
   hook_done stats_failure outside_ok].

(** The compilers of [foo] and [bar], each with its calls: [foo] ends its
    pass while [bar] is still compiling. *)
Definition calls : list (nat * HookEvent) :=
  [(0, hook_beforeRun);
   (1, hook_beforeRun);
   (0, hook_done stats outside_ok)].

(** The same while watching. *)
Definition watch_calls : list (nat * HookEvent) :=
  [(0, hook_watchRun);
   (1, hook_watchRun);
   (0, hook_done stats outside_ok)].

End Scenarios.

(** * Properties *)

(** ** Sorting and objects *)

Section sorting.
Context {A : Type} (cmp : A → A → comparison).

(** [a] may stand before [b]. *)
Definition cmp_le (a b : A) : Prop := cmp a b ≠ Gt.

Hypothesis cmp_flip : ∀ a b, cmp b a = CompOpp (cmp a b).
Hypothesis cmp_le_trans : ∀ a b c, cmp_le a b → cmp_le b c → cmp_le a c.

Lemma sort_insert_Permutation (x : A) (l : list A) : sort_insert cmp x l ≡ₚ x :: l.
Proof.
  induction l as [|y l IH]; simpl; [done|].
  destruct (cmp x y); try done.
  rewrite IH. apply Permutation_swap.
Qed.

Lemma Array_sort_Permutation (l : list A) : Array_sort cmp l ≡ₚ l.
Proof.
  induction l as [|x l IH]; simpl; [done|].
  unfold Array_sort in *. simpl.
  rewrite sort_insert_Permutation. by rewrite IH.
Qed.

Lemma sort_insert_sorted (x : A) (l : list A) :
  StronglySorted cmp_le l → StronglySorted cmp_le (sort_insert cmp x l).
Proof using cmp_flip cmp_le_trans.
  induction 1 as [|y l Hl IH Hy]; simpl.
  { repeat constructor. }
  destruct (cmp x y) eqn:Hxy.
  - constructor; [by constructor|].
    assert (cmp_le x y) by (unfold cmp_le; congruence).
    constructor; [done|].
    eapply Forall_impl; [exact Hy|]. intros z Hz. by eapply cmp_le_trans.
  - constructor; [by constructor|].
    assert (cmp_le x y) by (unfold cmp_le; congruence).
    constructor; [done|].
    eapply Forall_impl; [exact Hy|]. intros z Hz. by eapply cmp_le_trans.
  - constructor; [done|].
    assert (cmp_le y x) as Hyx.
    { unfold cmp_le. rewrite cmp_flip, Hxy. done. }
    rewrite sort_insert_Permutation. by constructor.
Qed.

Lemma Array_sort_sorted (l : list A) : StronglySorted cmp_le (Array_sort cmp l).
Proof using cmp_flip cmp_le_trans.
  induction l as [|x l IH]; [constructor|].
  by apply sort_insert_sorted.
Qed.

End sorting.

Lemma StronglySorted_remove_middle {A} (R : relation A) (l1 l2 : list A) (x : A) :
  StronglySorted R (l1 ++ x :: l2) → StronglySorted R (l1 ++ l2).
Proof.
  induction l1 as [|y l1 IH]; simpl; intros Hs.
  - by apply StronglySorted_inv in Hs as [? _].
  - apply StronglySorted_inv in Hs as [Hs Hy].
    constructor; [by apply IH|].
    rewrite Forall_app in Hy |- *. destruct Hy as [? Hy].
    split; [done|]. by apply Forall_cons in Hy as [_ ?].
Qed.

Section objects.
Context {V : Type}.
Implicit Types (o : JsObject V) (k p : string) (v : V).

Lemma obj_get_set p k v o :
  obj_get p (obj_set k v o) = if decide (p = k) then Some v else obj_get p o.
Proof.
  induction o as [|[k' v'] o IH]; simpl.
  - by repeat case_decide.
  - repeat (case_decide; simpl; subst); try done; congruence.
Qed.

Lemma obj_keys_set k v o :
  obj_keys (obj_set k v o) = Set_add k (obj_keys o).
Proof.
  unfold obj_keys.
  induction o as [|[k' v'] o IH]; csimpl; [done|].
  destruct (decide (k = k')) as [->|Hne]; csimpl.
  - unfold Set_add. rewrite decide_True; [done|]. apply elem_of_cons. by left.
  - rewrite IH. unfold Set_add.
    destruct (decide (k ∈ o.*1)) as [Hin|Hout].
    + rewrite decide_True; [done|]. apply elem_of_cons. by right.
    + rewrite decide_False; [done|]. rewrite elem_of_cons. by intros [?|?].
Qed.

Lemma obj_get_assign (g : string → V) (entries : list (string * V)) o p :
  (∀ e, e ∈ entries → e.2 = g e.1) →
  obj_get p (foldl (λ o e, obj_set e.1 e.2 o) o entries)
  = if decide (p ∈ entries.*1) then Some (g p) else obj_get p o.
Proof.
  revert o. induction entries as [|[k v] entries IH]; intros o Hg; csimpl.
  { done. }
  rewrite IH by (intros e He; apply Hg; apply elem_of_cons; by right).
  destruct (decide (p ∈ entries.*1)) as [Hin|Hout].
  - rewrite decide_True; [done|]. apply elem_of_cons. by right.
  - rewrite obj_get_set. destruct (decide (p = k)) as [->|Hne].
    + rewrite decide_True by (apply elem_of_cons; by left).
      f_equal. apply (Hg (k, v)). apply elem_of_cons. by left.
    + rewrite decide_False; [done|]. rewrite elem_of_cons. by intros [?|?].
Qed.

Lemma obj_keys_assign (entries : list (string * V)) o :
  obj_keys (foldl (λ o e, obj_set e.1 e.2 o) o entries)
  = foldl (λ s k, Set_add k s) (obj_keys o) (entries.*1).
Proof.
  revert o. induction entries as [|[k v] entries IH]; intros o; simpl; [done|].
  by rewrite IH, obj_keys_set.
Qed.

End objects.

Lemma obj_get_None {V} (o : JsObject V) (p : string) :
  obj_get p o = None ↔ p ∉ obj_keys o.
Proof.
  unfold obj_keys. induction o as [|[k v] o IH]; csimpl.
  - split; [intros _; apply not_elem_of_nil|done].
  - rewrite not_elem_of_cons. destruct (decide (p = k)) as [->|Hne].
    + split; [done|]. by intros [? _].
    + rewrite IH. tauto.
Qed.

Lemma Set_add_NoDup (x : string) (s : list string) : NoDup s → NoDup (Set_add x s).
Proof.
  intros Hs. unfold Set_add. case_decide; [done|].
  apply NoDup_app. split_and!; [done| |apply NoDup_singleton].
  intros y Hy ->%list_elem_of_singleton. done.
Qed.

Lemma elem_of_Set_add (x y : string) (s : list string) :
  y ∈ Set_add x s ↔ y = x ∨ y ∈ s.
Proof.
  unfold Set_add. case_decide.
  - split; [by right|]. by intros [->|?].
  - rewrite elem_of_app, list_elem_of_singleton. tauto.
Qed.

Lemma Set_add_all_NoDup (l s : list string) :
  NoDup s → NoDup (foldl (λ s k, Set_add k s) s l).
Proof.
  revert s. induction l as [|k l IH]; intros s Hs; simpl; [done|].
  by apply IH, Set_add_NoDup.
Qed.

Lemma elem_of_Set_add_all (l s : list string) (y : string) :
  y ∈ foldl (λ s k, Set_add k s) s l ↔ y ∈ l ∨ y ∈ s.
Proof.
  revert s. induction l as [|k l IH]; intros s; simpl.
  - rewrite elem_of_nil. tauto.
  - rewrite IH, elem_of_Set_add, elem_of_cons. tauto.
Qed.

Lemma Set_add_all_sorted (R : relation string) (l s : list string) :
  StronglySorted R (s ++ l) → StronglySorted R (foldl (λ s k, Set_add k s) s l).
Proof.
  revert s. induction l as [|k l IH]; intros s Hs; simpl.
  { by rewrite app_nil_r in Hs. }
  apply IH. unfold Set_add. case_decide.
  - by eapply StronglySorted_remove_middle.
  - by rewrite <-app_assoc.
Qed.

(** ** [createCacheKey] *)

Lemma Map_of_entries_snoc (l : list (string * option string)) (e : string * option string) :
  Map_of_entries (l ++ [e]) = <[e.1 := e.2]> (Map_of_entries l).
Proof. unfold Map_of_entries. by rewrite foldl_app. Qed.

Lemma Map_of_entries_lookup (l : list (string * option string)) (k : string)
    (v : option string) :
  NoDup (l.*1) → Map_of_entries l !! k = Some v ↔ (k, v) ∈ l.
Proof.
  induction l as [|[k' v'] l IH] using rev_ind; intros Hnd.
  { unfold Map_of_entries. simpl. rewrite lookup_empty, elem_of_nil.
    split; [done|tauto]. }
  rewrite fmap_app in Hnd. apply NoDup_app in Hnd as (Hl & Hfresh & _).
  rewrite Map_of_entries_snoc, lookup_insert, elem_of_app, list_elem_of_singleton.
  simpl. case_decide as Hk.
  - subst k'. split.
    + intros [= ->]. by right.
    + intros [Hin|[= ->]]; [|done].
      exfalso. apply (Hfresh k).
      * apply list_elem_of_fmap. by exists (k, v).
      * apply list_elem_of_singleton. done.
  - rewrite IH by done. split; [tauto|].
    intros [?|[= ? ?]]; [done|]. congruence.
Qed.

Lemma Map_of_entries_Permutation (l l' : list (string * option string)) :
  NoDup (l.*1) → l ≡ₚ l' → Map_of_entries l = Map_of_entries l'.
Proof.
  intros Hnd Hp. apply map_eq. intros k. apply option_eq. intros v.
  rewrite !Map_of_entries_lookup; [by rewrite Hp|by rewrite <-Hp|done].
Qed.

Section createCacheKey.
Context `{NodeRuntime}.

Lemma hash_entries_ext (files : list string) (hashes hashes' : gmap string (option string)) :
  (∀ p, p ∈ files → Map_get hashes p = Map_get hashes' p) →
  Bundle.hash_entries files hashes = Bundle.hash_entries files hashes'.
Proof.
  unfold Bundle.hash_entries. induction files as [|p files IH]; intros Hagree; csimpl; [done|].
  rewrite Hagree by (apply elem_of_cons; by left).
  f_equal. apply IH. intros q Hq. apply Hagree, elem_of_cons. by right.
Qed.

(** C10: the key depends on the hashes of the listed files only. Two hash
    maps that give the same [get(p)] for every path [p] of the file list give
    the same key; what they hold for other paths does not matter. *)
Theorem createCacheKey_only_listed_hashes (b : Bundle.t) (files : list string)
    (hashes hashes' : gmap string (option string)) :
  (∀ p, p ∈ files → Map_get hashes p = Map_get hashes' p) →
  Bundle.createCacheKey b files hashes = Bundle.createCacheKey b files hashes'.
Proof.
  intros Hagree. unfold Bundle.createCacheKey.
  by rewrite (hash_entries_ext files hashes hashes' Hagree).
Qed.

End createCacheKey.

Section createCacheKey_order.
Context `{NodeRuntime} (Hord : CompareOrder localeCompare).

Lemma ascending_flip {A} (getter : A → string) (a b : A) :
  ascending getter b a = CompOpp (ascending getter a b).
Proof using Hord. unfold ascending. apply (cmp_antisym _ Hord). Qed.

Lemma ascending_le_trans {A} (getter : A → string) (a b c : A) :
  cmp_le (ascending getter) a b → cmp_le (ascending getter) b c →
  cmp_le (ascending getter) a c.
Proof using Hord. unfold cmp_le, ascending. apply (cmp_trans _ Hord). Qed.

Lemma localeCompare_le_ne_lt (p q : string) :
  localeCompare p q ≠ Gt → p ≠ q → localeCompare p q = Lt.
Proof using Hord.
  intros Hle Hne. destruct (localeCompare p q) eqn:Hc; try done.
  by apply (cmp_eq _ Hord) in Hc.
Qed.

Lemma sorted_NoDup_strict (l : list string) :
  StronglySorted (cmp_le localeCompare) l → NoDup l →
  StronglySorted (λ p q, localeCompare p q = Lt) l.
Proof using Hord.
  induction 1 as [|p l Hl IH Hp]; intros Hnd; [constructor|].
  apply NoDup_cons in Hnd as [Hfresh Hnd].
  constructor; [by apply IH|].
  rewrite Forall_forall in Hp |- *. intros q Hq.
  apply localeCompare_le_ne_lt; [by apply Hp|]. by intros ->.
Qed.

Lemma createCacheKey_keys_sorted (b : Bundle.t) (files : list string)
    (hashes : gmap string (option string)) :
  StronglySorted (λ p q, localeCompare p q = Lt)
    (obj_keys (CacheKey.hashes (Bundle.createCacheKey b files hashes))).
Proof using Hord.
  simpl. unfold entriesToObject. rewrite obj_keys_assign.
  apply sorted_NoDup_strict.
  - apply Set_add_all_sorted. simpl.
    apply (StronglySorted_fmap _ (cmp_le (ascending fst))); [done|].
    apply Array_sort_sorted; [apply ascending_flip|apply ascending_le_trans].
  - apply Set_add_all_NoDup. constructor.
Qed.

Lemma createCacheKey_lookup (b : Bundle.t) (files : list string)
    (hashes : gmap string (option string)) (p : string) :
  obj_get p (CacheKey.hashes (Bundle.createCacheKey b files hashes))
  = if decide (p ∈ files) then Some (Map_get hashes p) else None.
Proof.
  simpl. unfold entriesToObject.
  rewrite (obj_get_assign (Map_get hashes)).
  - assert (Hkeys : (Array_sort (ascending fst) (Bundle.hash_entries files hashes)).*1 ≡ₚ files).
    { rewrite Array_sort_Permutation. unfold Bundle.hash_entries.
      rewrite <-list_fmap_compose. simpl. by rewrite list_fmap_id. }
    destruct (decide (p ∈ files)) as [Hin|Hout].
    + rewrite decide_True; [done|]. by rewrite Hkeys.
    + rewrite decide_False; [done|]. by rewrite Hkeys.
  - intros e He. rewrite Array_sort_Permutation in He.
    by apply list_elem_of_fmap in He as (q & -> & _).
Qed.

End createCacheKey_order.

Lemma CompareOrder_preorder (cmp : string → string → comparison) :
  CompareOrder cmp → ComparePreorder cmp.
Proof. intros [_ Hflip Htrans]. by split. Qed.

Lemma obj_deep_equal_true {V} `{EqDecision V} (a b : JsObject V) :
  obj_deep_equal a b = true ↔ ∀ k, obj_get k a = obj_get k b.
Proof.
  unfold obj_deep_equal. rewrite forallb_forall. split.
  - intros Hall k.
    destruct (decide (k ∈ obj_keys a ++ obj_keys b)) as [Hin|Hout].
    + apply list_elem_of_In, Hall in Hin. by apply bool_decide_eq_true_1 in Hin.
    + rewrite elem_of_app in Hout.
      assert (obj_get k a = None) as -> by (apply obj_get_None; tauto).
      symmetry. apply obj_get_None. tauto.
  - intros Hget k _. by apply bool_decide_eq_true_2.
Qed.

Lemma deep_equal_true (a b : CacheKey.t) :
  deep_equal a b = true
  ↔ CacheKey.spec a = CacheKey.spec b
    ∧ ∀ k, obj_get k (CacheKey.hashes a) = obj_get k (CacheKey.hashes b).
Proof.
  unfold deep_equal. rewrite andb_true_iff, obj_deep_equal_true.
  by rewrite bool_decide_eq_true.
Qed.

Section createCacheKey_structure.
Context `{NodeRuntime}.

Lemma createCacheKey_keys_NoDup (b : Bundle.t) (files : list string)
    (hashes : gmap string (option string)) :
  NoDup (obj_keys (CacheKey.hashes (Bundle.createCacheKey b files hashes))).
Proof.
  simpl. unfold entriesToObject. rewrite obj_keys_assign.
  apply Set_add_all_NoDup. constructor.
Qed.

Lemma createCacheKey_keys_ascending (b : Bundle.t) (files : list string)
    (hashes : gmap string (option string)) :
  ComparePreorder localeCompare →
  StronglySorted (λ p q, localeCompare p q ≠ Gt)
    (obj_keys (CacheKey.hashes (Bundle.createCacheKey b files hashes))).
Proof.
  intros Hpre. simpl. unfold entriesToObject. rewrite obj_keys_assign.
  apply Set_add_all_sorted. simpl.
  apply (StronglySorted_fmap _ (cmp_le (ascending fst))); [done|].
  apply Array_sort_sorted.
  - intros x y. apply (pre_flip _ Hpre).
  - intros x y z. apply (pre_trans _ Hpre).
Qed.

(** Where no two of the listed paths tie, the sorted entries do not depend
    on the order of the list. *)
Lemma sorted_hash_entries_Permutation (files files' : list string)
    (hashes : gmap string (option string)) :
  ComparePreorder localeCompare →
  (∀ p q, p ∈ files → q ∈ files → localeCompare p q = Eq → p = q) →
  files ≡ₚ files' →
  Array_sort (ascending fst) (Bundle.hash_entries files hashes)
  = Array_sort (ascending fst) (Bundle.hash_entries files' hashes).
Proof.
  intros Hpre Hties Hp.
  assert (Hflip : ∀ x y : string * option string,
            ascending fst y x = CompOpp (ascending fst x y)).
  { intros x y. apply (pre_flip _ Hpre). }
  assert (Htrans : ∀ x y z : string * option string,
            cmp_le (ascending fst) x y → cmp_le (ascending fst) y z →
            cmp_le (ascending fst) x z).
  { intros x y z. apply (pre_trans _ Hpre). }
  apply (StronglySorted_unique_strong (cmp_le (ascending fst))).
  - intros [p v] [q w] Hin1 Hin2 Hle1 Hle2.
    rewrite Array_sort_Permutation in Hin1, Hin2.
    apply list_elem_of_fmap in Hin1 as (p' & [= -> ->] & Hp').
    apply list_elem_of_fmap in Hin2 as (q' & [= -> ->] & Hq').
    unfold cmp_le, ascending in Hle1, Hle2. simpl in *.
    rewrite (pre_flip _ Hpre p' q') in Hle2.
    assert (p' = q') as ->; [|done].
    apply Hties; [done|by rewrite Hp|].
    by destruct (localeCompare p' q').
  - by apply Array_sort_sorted.
  - by apply Array_sort_sorted.
  - rewrite !Array_sort_Permutation. unfold Bundle.hash_entries. by rewrite Hp.
Qed.

(** C2: [createCacheKey] is a function of the contents of its arguments. A
    file list in another order and a hash map built from the same entries
    in another order give keys that are deeply equal: the same spec, and
    tables that hold the same paths with the same hashes. This holds for
    every comparator. The spec of the key is made of the eight fields of the
    bundle. The table has one entry for every listed file and for no other
    path, and the entry of a file without a hash is there with the value
    [undefined] ([Some None]). When [localeCompare] is consistent, the paths
    of the table are in ascending order; when moreover no two of the listed
    paths tie, the two keys are the same property for property, in the same
    order. *)
Theorem createCacheKey_order_independent (b : Bundle.t)
    (files files' : list string) (entries entries' : list (string * option string)) :
  files ≡ₚ files' → entries ≡ₚ entries' → NoDup (entries.*1) →
  let key := Bundle.createCacheKey b files (Map_of_entries entries) in
  let key' := Bundle.createCacheKey b files' (Map_of_entries entries') in
  deep_equal key' key = true
  ∧ CacheKey.spec key' = CacheKey.spec key
  ∧ (∀ p, obj_get p (CacheKey.hashes key') = obj_get p (CacheKey.hashes key))
  ∧ CacheKey.spec key
    = {| BundleSpec.type := Bundle.type b;
         BundleSpec.id := Bundle.id b;
         BundleSpec.publicDirNames := Bundle.publicDirNames b;
         BundleSpec.contextDir := Bundle.contextDir b;
         BundleSpec.sourceRoot := Bundle.sourceRoot b;
         BundleSpec.outputDir := Bundle.outputDir b;
         BundleSpec.banner := Bundle.banner b;
         BundleSpec.manifestPath := Bundle.manifestPath b |}
  ∧ NoDup (obj_keys (CacheKey.hashes key))
  ∧ (∀ p, obj_get p (CacheKey.hashes key)
          = if decide (p ∈ files) then Some (Map_get (Map_of_entries entries) p)
            else None)
  ∧ (∀ p, p ∈ files → Map_of_entries entries !! p = None →
          obj_get p (CacheKey.hashes key) = Some None)
  ∧ (ComparePreorder localeCompare →
     StronglySorted (λ p q, localeCompare p q ≠ Gt) (obj_keys (CacheKey.hashes key))
     ∧ ((∀ p q, p ∈ files → q ∈ files → localeCompare p q = Eq → p = q) →
        key' = key)).
Proof.
  intros Hfiles Hentries Hnd key key'.
  assert (Hmap : Map_of_entries entries' = Map_of_entries entries).
  { symmetry. by apply Map_of_entries_Permutation. }
  assert (Hget : ∀ p, obj_get p (CacheKey.hashes key') = obj_get p (CacheKey.hashes key)).
  { intros p. unfold key, key'. rewrite !createCacheKey_lookup, Hmap.
    destruct (decide (p ∈ files)) as [Hin|Hout].
    - rewrite decide_True; [done|]. by rewrite <-Hfiles.
    - rewrite decide_False; [done|]. by rewrite <-Hfiles. }
  split_and!.
  - by apply deep_equal_true.
  - done.
  - exact Hget.
  - done.
  - apply createCacheKey_keys_NoDup.
  - apply createCacheKey_lookup.
  - intros p Hin Hnone. unfold key. rewrite createCacheKey_lookup.
    rewrite decide_True by done. unfold Map_get. by rewrite Hnone.
  - intros Hpre. split; [by apply createCacheKey_keys_ascending|].
    intros Hties. unfold key, key', Bundle.createCacheKey. rewrite Hmap.
    by rewrite (sorted_hash_entries_Permutation files files').
Qed.

End createCacheKey_structure.

Lemma Posix_compare_order : CompareOrder String.compare.
Proof.
  split.
  - apply String.compare_eq_iff.
  - intros a b. apply String.compare_antisym.
  - intros a b c Hab Hbc Hac.
    assert (Hgt : String_as_OT.lt c a).
    { apply String_as_OT.cmp_lt. unfold String_as_OT.cmp.
      rewrite String.compare_antisym, Hac. done. }
    destruct (String.compare a b) eqn:Eab; [|clear Hab|done].
    { apply String.compare_eq_iff in Eab as ->.
      apply Hbc. rewrite String.compare_antisym.
      apply String_as_OT.cmp_lt in Hgt. unfold String_as_OT.cmp in Hgt.
      by rewrite Hgt. }
    apply String_as_OT.cmp_lt in Eab.
    destruct (String.compare b c) eqn:Ebc; [| |done].
    { apply String.compare_eq_iff in Ebc as ->.
      apply (String_as_OT.lt_not_eq c c); [|done].
      by apply (String_as_OT.lt_trans c a c). }
    apply String_as_OT.cmp_lt in Ebc.
    apply (String_as_OT.lt_not_eq a a); [|done].
    apply (String_as_OT.lt_trans a b a); [done|].
    by apply (String_as_OT.lt_trans b c a).
Qed.

(** The comparator that does not tell upper case from lower case is
    consistent, and has ties. *)
Lemma Posix_caseless_preorder : ComparePreorder (@localeCompare Posix.caseless).
Proof.
  split; simpl.
  - intros a b. apply (cmp_antisym _ Posix_compare_order).
  - intros a b c. apply (cmp_trans _ Posix_compare_order).
Qed.

(** ** [toSpec] and [parseBundles] *)

Lemma toJSON_strings (names : list string) :
  (λ x : value, match x with VUndefined => VNull | _ => toJSON x end)
    <$> (VString <$> names) = VString <$> names.
Proof. induction names as [|n names IH]; csimpl; [done|]. by rewrite IH. Qed.

Lemma strings_all_strings (names : list string) :
  forallb (λ d, String.eqb (typeof d) "string") (VString <$> names) = true.
Proof. induction names as [|n names IH]; csimpl; [done|]. exact IH. Qed.

Lemma as_strings_strings (names : list string) :
  as_strings (VArray (VString <$> names)) = names.
Proof.
  simpl. induction names as [|n names IH]; csimpl; [done|]. by f_equal.
Qed.

Lemma as_optional_of_optional (o : option string) :
  as_optional_string (of_optional_string o) = o.
Proof. by destruct o. Qed.

Section roundtrip.
Context `{NodeRuntime}.

Lemma new_toSpec (s : BundleSpec.t) : Bundle.toSpec (Bundle.new s) = s.
Proof. by destruct s. Qed.

(** An object that reads as the fields of a valid spec parses to its bundle. *)
Lemma parseBundleSpec_reads (spec : value) (s : BundleSpec.t) :
  truthy spec && String.eqb (typeof spec) "object" = true →
  get_prop spec "type" = VString (BundleSpec.type s) →
  get_prop spec "id" = VString (BundleSpec.id s) →
  get_prop spec "publicDirNames" = VArray (VString <$> BundleSpec.publicDirNames s) →
  get_prop spec "contextDir" = VString (BundleSpec.contextDir s) →
  get_prop spec "sourceRoot" = VString (BundleSpec.sourceRoot s) →
  get_prop spec "outputDir" = VString (BundleSpec.outputDir s) →
  get_prop spec "manifestPath" = of_optional_string (BundleSpec.manifestPath s) →
  get_prop spec "banner" = of_optional_string (BundleSpec.banner s) →
  valid_spec s = true →
  parseBundleSpec spec = inr (Bundle.new s).
Proof.
  intros Hobj Htype Hid Hnames Hcontext Hsource Houtput Hmanifest Hbanner.
  unfold valid_spec. rewrite !andb_true_iff, bool_decide_eq_true.
  intros ((((Vtype & Vcontext) & Vsource) & Voutput) & Vmanifest).
  unfold parseBundleSpec.
  rewrite Hobj, Htype, Hid, Hnames, Hcontext, Hsource, Houtput, Hmanifest, Hbanner.
  simpl. rewrite bool_decide_eq_true_2 by done. simpl.
  rewrite strings_all_strings, Vcontext, Vsource, Voutput. simpl.
  rewrite !as_optional_of_optional.
  assert (Hnames' : as_string <$> (VString <$> BundleSpec.publicDirNames s)
                    = BundleSpec.publicDirNames s).
  { apply (as_strings_strings (BundleSpec.publicDirNames s)). }
  rewrite Hnames'.
  destruct s as [type id names contextDir sourceRoot outputDir banner manifestPath].
  simpl in *.
  destruct manifestPath as [manifestPath|], banner as [banner|]; simpl;
    rewrite ?Vmanifest; done.
Qed.

Lemma parseBundleSpec_to_value (s : BundleSpec.t) :
  valid_spec s = true →
  match toJSON (VArray [BundleSpec.to_value s]) with
  | VArray specs => map_throwing parseBundleSpec specs
  | _ => throw (Error "must be an array")
  end = inr [Bundle.new s].
Proof.
  intros Hvalid.
  destruct s as [type id names contextDir sourceRoot outputDir banner manifestPath].
  simpl. rewrite toJSON_strings.
  match goal with |- bind (parseBundleSpec ?spec) _ = _ => set (o := spec) end.
  rewrite (parseBundleSpec_reads o
             (BundleSpec.mk type id names contextDir sourceRoot outputDir
                banner manifestPath)); try done;
    destruct manifestPath, banner; by vm_compute.
Qed.

(** C3: [toSpec] goes through [JSON.stringify] and [parseBundles] unchanged.
    For a bundle whose fields pass the checks of [parseBundles], and a
    [JSON.parse] that reads the text [JSON.stringify] wrote for its spec
    (so that only the properties that are [undefined] are gone), parsing
    [JSON.stringify([b.toSpec()])] succeeds with one bundle, and that bundle
    has the [type], [id], [publicDirNames], [contextDir], [sourceRoot],
    [outputDir], [banner] and [manifestPath] of [b]. *)
Theorem toSpec_parseBundles_roundtrip (b : Bundle.t) :
  valid_spec (Bundle.toSpec b) = true →
  JSON_parse (JSON_stringify (VArray [BundleSpec.to_value (Bundle.toSpec b)]))
  = inr (toJSON (VArray [BundleSpec.to_value (Bundle.toSpec b)])) →
  ∃ b',
    parseBundles
      (VString (JSON_stringify (VArray [BundleSpec.to_value (Bundle.toSpec b)])))
    = inr [b']
    ∧ Bundle.type b' = Bundle.type b
    ∧ Bundle.id b' = Bundle.id b
    ∧ Bundle.publicDirNames b' = Bundle.publicDirNames b
    ∧ Bundle.contextDir b' = Bundle.contextDir b
    ∧ Bundle.sourceRoot b' = Bundle.sourceRoot b
    ∧ Bundle.outputDir b' = Bundle.outputDir b
    ∧ Bundle.banner b' = Bundle.banner b
    ∧ Bundle.manifestPath b' = Bundle.manifestPath b
    ∧ Bundle.toSpec b' = Bundle.toSpec b.
Proof.
  intros Hvalid Hjson. exists (Bundle.new (Bundle.toSpec b)). split.
  - unfold parseBundles. rewrite Hjson. unfold bind at 1.
    by rewrite (parseBundleSpec_to_value (Bundle.toSpec b) Hvalid).
  - by rewrite new_toSpec.
Qed.

(** A bundle that [parseBundles] made passes its checks. *)
Lemma parseBundleSpec_valid (spec : value) (b : Bundle.t) :
  parseBundleSpec spec = inr b → valid_spec (Bundle.toSpec b) = true.
Proof.
  unfold parseBundleSpec.
  repeat (match goal with
          | |- (if ?c then _ else _) = _ → _ => destruct c eqn:?; [done|]
          end).
  intros [= <-]. rewrite new_toSpec. unfold valid_spec. simpl.
  repeat match goal with
         | E : negb _ = false |- _ => apply negb_false_iff in E
         | E : _ || _ = false |- _ => apply orb_false_iff in E as [? ?]
         | E : _ && _ = true |- _ => apply andb_true_iff in E as [? ?]
         end.
  destruct (get_prop spec "type") as [| | | |ty| |] eqn:Htype; try done.
  simpl in *.
  repeat (apply andb_true_iff; split); try done.
  destruct (get_prop spec "manifestPath") eqn:Hm; simpl in *; try done.
  match goal with
  | E : negb (Path_isAbsolute _) = false |- _ => by apply negb_false_iff in E
  end.
Qed.

End roundtrip.

(** ** [readBundleDeps] *)

Lemma isStringArray_strings (l : list string) :
  isStringArray (VArray (VString <$> l)) = true.
Proof. simpl. induction l as [|x l IH]; csimpl; [done|]. exact IH. Qed.

Lemma js_or_optional_strings (o : option (list string)) :
  js_or (of_optional_strings o) (VArray []) = VArray (VString <$> default [] o).
Proof. by destruct o. Qed.

Lemma truthy_path (mp : string) :
  mp ≠ EmptyString → truthy (of_optional_string (Some mp)) = true.
Proof. intros Hne. simpl. by destruct mp. Qed.

Section readBundleDeps.
Context `{NodeRuntime}.

(** C4: [readBundleDeps] returns the documented dependency sets. Without a
    manifest path the result is [{implicit: ["core"], explicit: []}]. With a
    manifest that parses to an object whose [requiredBundles] and
    [requiredPlugins] are arrays of strings or absent, [implicit] is
    ["core"] followed by [requiredPlugins] in their order, and [explicit] is
    [requiredBundles]; an absent field counts as the empty array. *)
Theorem readBundleDeps_documented (fs : FileSystem) (b : Bundle.t)
    (requiredBundles requiredPlugins : option (list string)) :
  match Bundle.manifestPath b with
  | None => requiredBundles = None ∧ requiredPlugins = None
  | Some manifestPath =>
      manifestPath ≠ EmptyString
      ∧ ∃ json props,
          fs manifestPath = inr json
          ∧ JSON_parse json = inr (VObject props)
          ∧ get_prop (VObject props) "requiredBundles"
            = of_optional_strings requiredBundles
          ∧ get_prop (VObject props) "requiredPlugins"
            = of_optional_strings requiredPlugins
  end →
  Bundle.readBundleDeps fs b
  = inr {| Bundle.implicit :=
             DEFAULT_IMPLICIT_BUNDLE_DEPS ++ default [] requiredPlugins;
           Bundle.explicit := default [] requiredBundles |}.
Proof.
  unfold Bundle.readBundleDeps.
  destruct (Bundle.manifestPath b) as [mp|] eqn:Hmp.
  - intros (Hne & json & props & Hread & Hparse & Hbundles & Hplugins).
    rewrite truthy_path by done. cbn [negb default from_option Datatypes.id].
    rewrite Hread. cbn [try_catch bind]. rewrite Hparse. cbn [try_catch bind].
    cbn [typeof truthy String.eqb Ascii.eqb Bool.eqb andb].
    rewrite Hbundles, Hplugins, !js_or_optional_strings.
    cbn [Bundle.spread ret bind].
    rewrite isStringArray_strings.
    change (VArray ((VString <$> DEFAULT_IMPLICIT_BUNDLE_DEPS)
                    ++ (VString <$> default [] requiredPlugins)))
      with (VArray (VString <$> (DEFAULT_IMPLICIT_BUNDLE_DEPS
                                 ++ default [] requiredPlugins))).
    rewrite isStringArray_strings, !as_strings_strings. done.
  - by intros [-> ->].
Qed.

(** Reading the manifest, up to the parsed value. *)
Lemma readBundleDeps_parsed (fs : FileSystem) (b : Bundle.t) (mp json : string)
    (parsed : value) :
  Bundle.manifestPath b = Some mp → mp ≠ EmptyString →
  fs mp = inr json → JSON_parse json = inr parsed →
  Bundle.readBundleDeps fs b
  = bind
      (if String.eqb (typeof parsed) "object" && truthy parsed then
         bind (Bundle.spread (js_or (get_prop parsed "requiredPlugins") (VArray [])))
           (λ plugins,
              if isStringArray (js_or (get_prop parsed "requiredBundles") (VArray []))
                 && isStringArray
                      (VArray ((VString <$> DEFAULT_IMPLICIT_BUNDLE_DEPS) ++ plugins))
              then ret (Some {| Bundle.explicit :=
                                  as_strings
                                    (js_or (get_prop parsed "requiredBundles")
                                       (VArray []));
                                Bundle.implicit :=
                                  as_strings
                                    (VArray ((VString <$> DEFAULT_IMPLICIT_BUNDLE_DEPS)
                                             ++ plugins)) |})
              else ret None)
       else ret None)
      (λ checked,
         match checked with
         | Some deps => ret deps
         | None => throw (Error (Bundle.manifest_shape_message mp))
         end).
Proof.
  intros Hmp Hne Hread Hparse. unfold Bundle.readBundleDeps.
  rewrite Hmp, truthy_path by done. cbn [negb default from_option Datatypes.id].
  rewrite Hread. cbn [try_catch bind]. by rewrite Hparse.
Qed.







Lemma isStringArray_chars (l : list string) (s : string) :
  isStringArray (VArray ((VString <$> l) ++ (VString <$> string_chars s))) = true.
Proof. rewrite <-fmap_app. apply isStringArray_strings. Qed.

(** The check of C5 that the code misses: a [requiredPlugins] that is a
    string, not an array, is not refused; its characters become implicit
    dependencies. *)
Theorem readBundleDeps_requiredPlugins_string (fs : FileSystem) (b : Bundle.t)
    (mp json : string) (props : list (string * value)) (s : string) :
  Bundle.manifestPath b = Some mp → mp ≠ EmptyString →
  fs mp = inr json → JSON_parse json = inr (VObject props) →
  get_prop (VObject props) "requiredBundles" = VUndefined →
  get_prop (VObject props) "requiredPlugins" = VString s →
  s ≠ EmptyString →
  Bundle.readBundleDeps fs b
  = inr {| Bundle.implicit := DEFAULT_IMPLICIT_BUNDLE_DEPS ++ string_chars s;
           Bundle.explicit := [] |}.
Proof.
  intros Hmp Hne Hread Hparse Hbundles Hplugins Hs.
  rewrite (readBundleDeps_parsed fs b mp json (VObject props)) by done.
  cbn [typeof truthy String.eqb Ascii.eqb Bool.eqb andb].
  rewrite Hbundles, Hplugins.
  assert (Htruthy : truthy (VString s) = true) by (by destruct s).
  unfold js_or. rewrite Htruthy. cbn [truthy Bundle.spread ret bind].
  rewrite isStringArray_chars. cbn [isStringArray forallb andb].
  rewrite <-fmap_app, as_strings_strings. done.
Qed.

(** A [requiredPlugins] that is a number other than zero, [true] or an
    object cannot be spread: the [TypeError] of the runtime leaves
    [readBundleDeps], not the error that names the manifest. *)
Lemma readBundleDeps_requiredPlugins_not_iterable (fs : FileSystem) (b : Bundle.t)
    (mp json : string) (props : list (string * value)) (v : value) :
  Bundle.manifestPath b = Some mp → mp ≠ EmptyString →
  fs mp = inr json → JSON_parse json = inr (VObject props) →
  get_prop (VObject props) "requiredPlugins" = v →
  truthy v = true → Array_isArray v = false → is_string v = false →
  Bundle.readBundleDeps fs b = inl (TypeError "value is not iterable").
Proof.
  intros Hmp Hne Hread Hparse Hplugins Htruthy Harray Hstring.
  rewrite (readBundleDeps_parsed fs b mp json (VObject props)) by done.
  cbn [typeof truthy String.eqb Ascii.eqb Bool.eqb andb].
  rewrite Hplugins. unfold js_or. rewrite Htruthy.
  by destruct v.
Qed.


End readBundleDeps.

(** ** The loop over the modules *)

Lemma lastIndexOf_from_absent (i : Z) (l : list string) (x : string) :
  x ∉ l → lastIndexOf_from i l x = (-1)%Z.
Proof.
  revert i. induction l as [|y l IH]; intros i Hx; simpl; [done|].
  apply not_elem_of_cons in Hx as [Hne Hx].
  rewrite IH by done. simpl. by rewrite decide_False by done.
Qed.

Lemma lastIndexOf_from_last (i : Z) (pre post : list string) (x : string) :
  (0 ≤ i)%Z → x ∉ post →
  lastIndexOf_from i (pre ++ x :: post) x = (i + Z.of_nat (length pre))%Z.
Proof.
  revert i. induction pre as [|y pre IH]; intros i Hi Hx; simpl.
  - rewrite lastIndexOf_from_absent by done. simpl.
    rewrite decide_True by done. lia.
  - rewrite IH by (done || lia).
    destruct (0 <=? i + 1 + Z.of_nat (length pre))%Z eqn:Hle; [lia|].
    apply Z.leb_gt in Hle. lia.
Qed.

Lemma lastIndexOf_last (pre post : list string) (x : string) :
  x ∉ post → lastIndexOf (pre ++ x :: post) x = Z.of_nat (length pre).
Proof. intros Hx. unfold lastIndexOf. by rewrite lastIndexOf_from_last by (done || lia). Qed.

Lemma Array_at_after {A} (pre post : list A) (x : A) :
  Array_at (pre ++ x :: post) (Z.of_nat (length pre) + 1) = post !! 0.
Proof.
  unfold Array_at.
  replace (Z.to_nat (Z.of_nat (length pre) + 1)) with (length pre + 1) by lia.
  rewrite lookup_app_r by lia.
  by replace (length pre + 1 - length pre) with 1 by lia.
Qed.

Lemma Array_slice0_after {A} (pre post : list A) (x : A) (k : Z) :
  (0 ≤ k)%Z →
  Array_slice0 (pre ++ x :: post) (Z.of_nat (length pre) + 1 + k)
  = pre ++ x :: take (Z.to_nat k) post.
Proof.
  intros Hk. unfold Array_slice0.
  replace (Z.to_nat (Z.of_nat (length pre) + 1 + k))
    with (length pre + S (Z.to_nat k)) by lia.
  by rewrite take_app_add.
Qed.

Section classify.
Context `{NodeRuntime} `{OptimizerCommon}.

(** The referenced files only grow. *)
Lemma classify_referencedFiles_mono (st st' : Pass.t) (module : WebpackModule)
    (x : string) :
  classify st module = inr st' →
  x ∈ Pass.referencedFiles st → x ∈ Pass.referencedFiles st'.
Proof.
  intros Hc Hx. destruct module as [path deps|exportId|modules| | |inspect];
    simpl in Hc; try (by inversion Hc; subst).
  destruct (negb _).
  - destruct (endsWith _ _); inversion Hc; subst; simpl.
    + apply elem_of_Set_add_all. right. apply elem_of_Set_add. by right.
    + apply elem_of_Set_add. by right.
  - destruct (Array_at _ _); inversion Hc; subst; simpl.
    apply elem_of_Set_add. by right.
Qed.

Lemma classify_all_referencedFiles_mono (modules : list WebpackModule)
    (st st' : Pass.t) (x : string) :
  classify_all st modules = inr st' →
  x ∈ Pass.referencedFiles st → x ∈ Pass.referencedFiles st'.
Proof.
  revert st. induction modules as [|m modules IH]; intros st Hc Hx; simpl in Hc.
  - by inversion Hc; subst.
  - destruct (classify st m) as [e|st1] eqn:Hm; [done|]. simpl in Hc.
    eapply IH; [done|]. by eapply classify_referencedFiles_mono.
Qed.

(** The loop reaches a module with the state the modules before it left. *)
Lemma classify_all_elem (modules : list WebpackModule) (st st' : Pass.t)
    (m : WebpackModule) :
  classify_all st modules = inr st' → m ∈ modules →
  ∃ st1 st2, classify st1 m = inr st2
             ∧ ∀ x, x ∈ Pass.referencedFiles st2 → x ∈ Pass.referencedFiles st'.
Proof.
  revert st. induction modules as [|m' modules IH]; intros st Hc Hin.
  { by apply elem_of_nil in Hin. }
  simpl in Hc. destruct (classify st m') as [e|st1] eqn:Hm; [done|]. simpl in Hc.
  apply elem_of_cons in Hin as [->|Hin].
  - exists st, st1. split; [done|]. intros x.
    by apply (classify_all_referencedFiles_mono modules).
  - by apply (IH st1).
Qed.

(** What a turn of the loop does with a module below [node_modules] whose
    last [node_modules] directory has a directory [pkg] below it. *)
Lemma classify_dependency_module (st : Pass.t) (path : string) (deps : list string)
    (pre rest : list string) (pkg : string) :
  ParsedPath.dirs (parseFilePath path) = pre ++ "node_modules" :: pkg :: rest →
  "node_modules" ∉ pkg :: rest →
  classify st (NormalModule path deps)
  = inr {| Pass.bundleRefExportIds := Pass.bundleRefExportIds st;
           Pass.referencedFiles :=
             Set_add
               (Path_join
                  (ParsedPath.root (parseFilePath path)
                   :: (pre ++ "node_modules"
                       :: take (if startsWith pkg "@" then 2 else 1) (pkg :: rest))
                   ++ ["package.json"]))
               (Pass.referencedFiles st);
           Pass.moduleCount := Pass.moduleCount st + 1;
           Pass.workUnits := Pass.workUnits st |}.
Proof.
  intros Hdirs Hlast. simpl. rewrite Hdirs.
  rewrite bool_decide_eq_true_2
    by (apply elem_of_app; right; apply elem_of_cons; by left).
  cbn [negb]. rewrite lastIndexOf_last by done.
  rewrite Array_at_after. cbn [lookup list_lookup].
  rewrite Array_slice0_after by (by destruct (startsWith pkg "@")).
  by destruct (startsWith pkg "@").
Qed.

(** A module right below [node_modules]: the loop ends with a [TypeError]. *)
Lemma classify_module_below_node_modules (st : Pass.t) (path : string)
    (deps : list string) (pre : list string) :
  ParsedPath.dirs (parseFilePath path) = pre ++ ["node_modules"] →
  classify st (NormalModule path deps)
  = inl (TypeError "Cannot read property 'startsWith' of undefined").
Proof.
  intros Hdirs. simpl. rewrite Hdirs.
  rewrite bool_decide_eq_true_2
    by (apply elem_of_app; right; apply elem_of_cons; by left).
  cbn [negb]. rewrite lastIndexOf_last by apply not_elem_of_nil.
  by rewrite Array_at_after.
Qed.

End classify.

Section observeCompiler_facts.
Context `{NodeRuntime} `{OptimizerCommon}.

Lemma classify_all_app (l1 l2 : list WebpackModule) (st : Pass.t) :
  classify_all st (l1 ++ l2)
  = bind (classify_all st l1) (λ st1, classify_all st1 l2).
Proof.
  revert st. induction l1 as [|m l1 IH]; intros st; simpl; [done|].
  destruct (classify st m) as [e|st1]; simpl; [done|]. apply IH.
Qed.

(** What the loop does for the modules C6 is about, when the path has a
    directory [pkg] below its last [node_modules] directory: the module is
    resolved to the [package.json] of its package, which is the path up to
    and with [node_modules], then [pkg], then one more directory when [pkg]
    starts with [@] and there is one. A turn of the loop adds this file, and
    nothing else, to the referenced files, and when the loop ends the file is
    among them. *)
Theorem dependency_module_references_package_json (bundle : Bundle.t)
    (stats : Stats.t) (st' : Pass.t) (path : string) (deps : list string)
    (pre rest : list string) (pkg : string) :
  NormalModule path deps ∈ Stats.modules stats →
  ParsedPath.dirs (parseFilePath path) = pre ++ "node_modules" :: pkg :: rest →
  "node_modules" ∉ pkg :: rest →
  classify_all (initial_pass bundle stats) (Stats.modules stats) = inr st' →
  let package_json :=
    Path_join
      (ParsedPath.root (parseFilePath path)
       :: (pre ++ "node_modules"
           :: take (if startsWith pkg "@" then 2 else 1) (pkg :: rest))
       ++ ["package.json"]) in
  package_json ∈ Pass.referencedFiles st'
  ∧ ∀ st, ∃ st1,
      classify st (NormalModule path deps) = inr st1
      ∧ Pass.referencedFiles st1 = Set_add package_json (Pass.referencedFiles st)
      ∧ Pass.moduleCount st1 = Pass.moduleCount st + 1.
Proof.
  intros Hin Hdirs Hlast Hall package_json.
  assert (Hstep : ∀ st, ∃ st1,
             classify st (NormalModule path deps) = inr st1
             ∧ Pass.referencedFiles st1 = Set_add package_json (Pass.referencedFiles st)
             ∧ Pass.moduleCount st1 = Pass.moduleCount st + 1).
  { intros st. eexists. split; [by apply (classify_dependency_module st path deps pre rest pkg)|].
    done. }
  split; [|done].
  destruct (classify_all_elem _ _ _ _ Hall Hin) as (st1 & st2 & Hc & Hmono).
  destruct (Hstep st1) as (st2' & Hc' & Hfiles & _).
  rewrite Hc in Hc'. injection Hc' as <-.
  apply Hmono. rewrite Hfiles. apply elem_of_Set_add. by left.
Qed.

Lemma classify_known_kind (st : Pass.t) (m : WebpackModule) (msg : string) :
  known_kind m → classify st m ≠ inl (Error msg).
Proof.
  destruct m as [path deps|exportId|modules| | |inspect]; simpl; try done.
  intros _. destruct (negb _); [by destruct (endsWith _ _)|].
  by destruct (Array_at _ _).
Qed.

(** C7: the loop over the modules has no silent default. A module of none
    of the five kinds ends the loop with an error: the loop does not return,
    and when the modules before it went through the error is "Unexpected
    module type". For modules of the five kinds only, that error is never
    raised. *)
Theorem unknown_module_is_an_error (st : Pass.t) (modules : list WebpackModule) :
  (∀ inspect, UnknownModule inspect ∈ modules →
     ∃ e, classify_all st modules = inl e)
  ∧ (∀ before inspect after st1,
       modules = before ++ UnknownModule inspect :: after →
       classify_all st before = inr st1 →
       classify_all st modules
       = inl (Error ("Unexpected module type: " +:+ inspect)))
  ∧ (Forall known_kind modules →
     ∀ msg, classify_all st modules ≠ inl (Error msg)).
Proof.
  split_and!.
  - intros inspect. revert st.
    induction modules as [|m modules IH]; intros st Hin.
    { by apply elem_of_nil in Hin. }
    simpl. destruct (classify st m) as [e|st1] eqn:Hm; [by exists e|]. simpl.
    apply elem_of_cons in Hin as [<-|Hin]; [done|]. by apply IH.
  - intros before inspect after st1 -> Hbefore.
    by rewrite classify_all_app, Hbefore.
  - intros Hknown msg. revert st.
    induction Hknown as [|m modules Hm Hknown IH]; intros st; simpl; [done|].
    destruct (classify st m) as [e|st1] eqn:Hc; simpl; [|apply IH].
    intros [= ->]. by apply (classify_known_kind st m msg).
Qed.

Lemma classify_workUnits (st st' : Pass.t) (m : WebpackModule) :
  classify st m = inr st' →
  Pass.workUnits st'
  = Pass.workUnits st + (if is_stylesheet_module m then EXTRA_SCSS_WORK_UNITS else 0).
Proof.
  intros Hc. destruct m as [path deps|exportId|modules| | |inspect];
    simpl in *; try (inversion Hc; subst; simpl; lia).
  destruct (negb _); simpl.
  - destruct (endsWith _ _); inversion Hc; subst; simpl; lia.
  - destruct (Array_at _ _); inversion Hc; subst; simpl; lia.
Qed.

Lemma classify_all_workUnits (modules : list WebpackModule) (st st' : Pass.t) :
  classify_all st modules = inr st' →
  Pass.workUnits st'
  = Pass.workUnits st + EXTRA_SCSS_WORK_UNITS * stylesheet_modules modules.
Proof.
  unfold stylesheet_modules.
  revert st. induction modules as [|m modules IH]; intros st Hc; simpl in Hc.
  - inversion Hc; subst. cbn [List.filter length]. lia.
  - destruct (classify st m) as [e|st1] eqn:Hm; [done|]. simpl in Hc.
    rewrite (IH st1 Hc), (classify_workUnits st st1 m Hm). cbn [List.filter].
    destruct (is_stylesheet_module m); cbn [length]; lia.
Qed.

(** What the handler does on a pass that ends well and is classified. *)
Lemma complete_success (out : Outside) (workerConfig : WorkerConfig.t)
    (bundle : Bundle.t) (stats : Stats.t) (disk : gmap string BundleCache.State)
    (moduleCount : nat) :
  Handled.msg (complete out workerConfig bundle stats disk)
  = inr (Some (compilerSuccess (Bundle.id bundle) moduleCount)) →
  ∃ st,
    classify_all (initial_pass bundle stats) (Stats.modules stats) = inr st
    ∧ Pass.moduleCount st = moduleCount
    ∧ complete out workerConfig bundle stats disk
      = let files := Array_sort (ascending (λ p, p)) (Pass.referencedFiles st) in
        let '(settled, disk') := persist out workerConfig bundle st files disk in
        Handled.mk (ret (Some (compilerSuccess (Bundle.id bundle) moduleCount)))
          (WorkerConfig.profileWebpack workerConfig)
          (negb (WorkerConfig.watch workerConfig)) (Some settled) disk'.
Proof.
  unfold complete.
  destruct (Stats.needAdditionalPass stats); [done|].
  destruct (_ && _); [done|].
  destruct (Stats.failure stats); [done|].
  destruct (classify_all _ _) as [e|st]; [done|].
  simpl. destruct (persist _ _ _ _ _ _) as [settled disk'] eqn:Hp. simpl.
  intros [= <-]. exists st. by rewrite Hp.
Qed.

(** C8: the [workUnits] a successful pass persists are the number of file
    dependencies the compilation reports plus [EXTRA_SCSS_WORK_UNITS] (100)
    for every stylesheet module of the pass, a stylesheet module being a
    normal module outside [node_modules] whose path ends in [.scss]. *)
Theorem persisted_workUnits (out : Outside) (workerConfig : WorkerConfig.t)
    (bundle : Bundle.t) (stats : Stats.t) (disk : gmap string BundleCache.State)
    (moduleCount : nat) :
  Handled.msg (complete out workerConfig bundle stats disk)
  = inr (Some (compilerSuccess (Bundle.id bundle) moduleCount)) →
  (∀ files, ∃ hashes, getHashes out files = inr hashes) →
  cache_writable out = true →
  BundleCache.workUnits
    (BundleCache.get (Handled.disk (complete out workerConfig bundle stats disk))
       (Bundle.cache bundle))
  = Some (Stats.fileDependencies_size stats
          + EXTRA_SCSS_WORK_UNITS * stylesheet_modules (Stats.modules stats))
  ∧ EXTRA_SCSS_WORK_UNITS = 100.
Proof.
  intros Hmsg Hhashes Hwritable. split; [|done].
  destruct (complete_success _ _ _ _ _ _ Hmsg) as (st & Hall & _ & ->).
  cbv zeta. unfold persist, Promise_catch, Promise_then, Promise_settled.
  destruct (Hhashes (Array_sort (ascending (λ p, p)) (Pass.referencedFiles st)))
    as [hashes ->].
  unfold BundleCache.set. rewrite Hwritable. cbn.
  unfold BundleCache.get. rewrite lookup_insert_eq. cbn.
  by rewrite (classify_all_workUnits _ _ _ Hall).
Qed.

(** C9: persisting the cache record does not touch the event. The handler
    returns the same message whatever [getHashes] settles to and whether or
    not the cache file can be written; on a classified successful pass that
    message is [Success{moduleCount}]. The promise chain never settles to a
    rejection, and when the hashes or the write fail the cache files stay as
    they were. *)
Theorem persistence_is_fire_and_forget (out out' : Outside)
    (workerConfig : WorkerConfig.t) (bundle : Bundle.t) (stats : Stats.t)
    (disk : gmap string BundleCache.State) :
  stats_writable out = stats_writable out' →
  Handled.msg (complete out workerConfig bundle stats disk)
  = Handled.msg (complete out' workerConfig bundle stats disk)
  ∧ (∀ st,
       Stats.needAdditionalPass stats = false →
       WorkerConfig.profileWebpack workerConfig && negb (stats_writable out) = false →
       Stats.failure stats = None →
       classify_all (initial_pass bundle stats) (Stats.modules stats) = inr st →
       Handled.msg (complete out workerConfig bundle stats disk)
       = inr (Some (compilerSuccess (Bundle.id bundle) (Pass.moduleCount st)))
       ∧ Handled.persisted (complete out workerConfig bundle stats disk)
         = Some (inr ()))
  ∧ (∀ settled,
       Handled.persisted (complete out workerConfig bundle stats disk) = Some settled →
       settled = inr ())
  ∧ (cache_writable out = false ∨ (∀ files, ∃ e, getHashes out files = inl e) →
     Handled.disk (complete out workerConfig bundle stats disk) = disk).
Proof.
  intros Hstats.
  assert (Hpersist : ∀ o st files,
             ∃ disk', persist o workerConfig bundle st files disk = (inr (), disk')
                      ∧ (cache_writable o = false
                         ∨ (∀ files, ∃ e, getHashes o files = inl e) → disk' = disk)).
  { intros o st files. unfold persist, Promise_catch, Promise_then, Promise_settled.
    destruct (getHashes o files) as [e|hashes] eqn:Hh.
    - by exists disk.
    - unfold BundleCache.set. destruct (cache_writable o) eqn:Hw; cbn.
      + eexists. split; [done|]. intros [?|Hno]; [done|].
        destruct (Hno files) as [e He]. congruence.
      + by exists disk. }
  unfold complete. rewrite <-Hstats.
  destruct (Stats.needAdditionalPass stats); [by split_and!|].
  destruct (_ && _) eqn:Hprofile; [by split_and!|].
  destruct (Stats.failure stats); [by split_and!|].
  destruct (classify_all _ _) as [e|st]; [by split_and!|].
  cbv zeta.
  destruct (Hpersist out st (Array_sort (ascending (λ p, p)) (Pass.referencedFiles st)))
    as (disk1 & -> & Hdisk1).
  destruct (Hpersist out' st (Array_sort (ascending (λ p, p)) (Pass.referencedFiles st)))
    as (disk2 & -> & _).
  simpl. split_and!; [done| |by intros ? [= <-]|done].
  by intros st0 _ _ _ [= <-].
Qed.

End observeCompiler_facts.

Section readBundleDeps_errors.
Context `{NodeRuntime}.


End readBundleDeps_errors.

(** ** The cache decision *)

Section bundle_cache_facts.
Context `{NodeRuntime}.

Lemma bundleCacheEvent_disabled (key : option string) (resolved : list string)
    (hashes : gmap string (option string)) (disk : gmap string BundleCache.State)
    (bundle : Bundle.t) :
  bundleCacheEvent false key resolved hashes disk bundle
  = bundle_not_cached cache_disabled None.
Proof. done. Qed.

(** C1, as amended: every bundle of the config gets exactly one event, and
    the first check that applies decides it: cache disabled; then missing
    optimizer cache key, when the key that is passed in is absent or the
    stored record has no [optimizerCacheKey]; then optimizer cache key
    mismatch, when the stored key differs from the key passed in; then
    bundle references outdated; then missing cache key; then cache key
    mismatch, when the stored key is not deeply equal to the recomputed
    one; else the bundle is cached. A stored record whose
    [optimizerCacheKey] and [cacheKey] are both out of date gives the
    optimizer key reason only. *)
Theorem cache_decision_priority (config : OptimizerConfig.t)
    (optimizerCacheKey : option string) (resolved : Bundle.t → list string)
    (hashes : gmap string (option string)) (disk : gmap string BundleCache.State) :
  (getBundleCacheEvent config optimizerCacheKey resolved hashes disk).*1
  = OptimizerConfig.bundles config
  ∧ ∀ bundle event,
      (bundle, event) ∈ getBundleCacheEvent config optimizerCacheKey resolved hashes disk →
      let state := BundleCache.get disk (Bundle.cache bundle) in
      let ids := default [] (BundleCache.bundleRefExportIds state) in
      let key :=
        Bundle.createCacheKey bundle (default [] (BundleCache.files state)) hashes in
      (OptimizerConfig.cache config = false →
       event = bundle_not_cached cache_disabled None)
      ∧ (OptimizerConfig.cache config = true →
         (optimizerCacheKey = None →
          event = bundle_not_cached missing_optimizer_cache_key None)
         ∧ ∀ current, optimizerCacheKey = Some current →
             (BundleCache.optimizerCacheKey state = None →
              event = bundle_not_cached missing_optimizer_cache_key None)
             ∧ ∀ cached, BundleCache.optimizerCacheKey state = Some cached →
                 (cached ≠ current →
                  event = bundle_not_cached optimizer_cache_key_mismatch
                            (Some (diff_optimizerCacheKey (Some cached) current)))
                 ∧ (cached = current →
                    (same_ids ids (resolved bundle) = false →
                     event = bundle_not_cached bundle_references_outdated
                               (Some (diff_bundleRefExportIds (resolved bundle) ids)))
                    ∧ (same_ids ids (resolved bundle) = true →
                       (BundleCache.cacheKey state = None →
                        event = bundle_not_cached missing_cache_key None)
                       ∧ ∀ cachedKey, BundleCache.cacheKey state = Some cachedKey →
                           (deep_equal cachedKey key = false →
                            event = bundle_not_cached cache_key_mismatch
                                      (Some (diff_cacheKey cachedKey key)))
                           ∧ (deep_equal cachedKey key = true →
                              event = bundle_cached)))).
Proof.
  split.
  - unfold getBundleCacheEvent. rewrite <-list_fmap_compose. apply list_fmap_id.
  - intros bundle event Hin state ids key.
    unfold getBundleCacheEvent in Hin.
    apply list_elem_of_fmap in Hin as (bundle' & [= <- ->] & _).
    unfold bundleCacheEvent. fold state. fold ids. fold key.
    split; [by intros ->|]. intros ->. cbn [negb]. split; [by intros ->|].
    intros current ->. split; [by intros ->|].
    intros cached ->. split.
    + intros Hne. apply String.eqb_neq in Hne. by rewrite Hne.
    + intros ->. rewrite String.eqb_refl. cbn [negb]. split; [by intros ->|].
      intros ->. cbn [negb]. split; [by intros ->|].
      intros cachedKey ->. split; by intros ->.
Qed.

End bundle_cache_facts.

(** ** The tests of [bundle_cache.test.ts]

    Each test stores a record, asks for the events of the config and matches
    them against a snapshot; here the stored record, the call and the event
    of the snapshot. *)

Section tests.
Import Posix Examples.

(** [bundleCacheEvent] gives the event of the snapshot in each of the seven
    tests. *)
Example bundleCacheEvent_passes_the_tests :
  Forall (λ test, CacheTests.events_of bundleCacheEvent test
                  = [(foo, CacheTest.snapshot test)])
    CacheTests.all.
Proof. repeat constructor; by vm_compute. Qed.

(** [getBundleCacheEvent] in the setting of the first test. *)
Example test_bundle_cached :
  getBundleCacheEvent (config true) (Some "optimizerCacheKey") resolved hashes
    (CacheTests.disk CacheTests.everything_is_updated)
  = [(foo, bundle_cached)].
Proof. vm_compute. reflexivity. Qed.

(** A stored key with the entries of the recomputed one in another order
    is deeply equal to it: the bundle is cached. *)
Example reordered_key_is_cached :
  bundleCacheEvent true (Some "optimizerCacheKey") [] hashes
    (stored (Some {| CacheKey.spec := CacheKey.spec cacheKey;
                     CacheKey.hashes := reverse (CacheKey.hashes cacheKey) |})
       (Some "optimizerCacheKey") []) foo
  = bundle_cached.
Proof. vm_compute. reflexivity. Qed.

(** No key is passed in: step 2 of section 4.3. *)
Example no_key_passed_in :
  bundleCacheEvent true None [] hashes
    (stored (Some cacheKey) (Some "optimizerCacheKey") []) foo
  = bundle_not_cached missing_optimizer_cache_key None.
Proof. vm_compute. reflexivity. Qed.

(** The scenario of section 8: stored ids [a], resolved ids [a] and [b]. *)
Example scenario_bundle_references_outdated :
  bundleCacheEvent true (Some "optimizerCacheKey") ["a"; "b"] hashes
    (stored (Some cacheKey) (Some "optimizerCacheKey") ["a"]) foo
  = bundle_not_cached bundle_references_outdated
      (Some (diff_bundleRefExportIds ["a"; "b"] ["a"])).
Proof. vm_compute. reflexivity. Qed.

(** C1, counterexample: the test "optimizerCacheKey is missing" (lines
    143-180). Its record has no [optimizerCacheKey] and a key is passed in;
    its snapshot holds the reason "missing optimizer cache key" and no diff.
    Section 4.3 read word for word finds the passed key there in step 2 and
    reports a mismatch in step 3. *)
Lemma section_4_3_misses_the_stored_key :
  BundleCache.optimizerCacheKey
    (CacheTest.record CacheTests.optimizerCacheKey_is_missing) = None
  ∧ CacheTest.optimizerCacheKey CacheTests.optimizerCacheKey_is_missing
    = Some "optimizerCacheKey"
  ∧ CacheTest.snapshot CacheTests.optimizerCacheKey_is_missing
    = bundle_not_cached missing_optimizer_cache_key None
  ∧ CacheTests.events_of decision_of_section_4_3
      CacheTests.optimizerCacheKey_is_missing
    = [(foo, bundle_not_cached optimizer_cache_key_mismatch
               (Some (diff_optimizerCacheKey None "optimizerCacheKey")))]
  ∧ CacheTests.events_of decision_of_section_4_3
      CacheTests.optimizerCacheKey_is_missing
    ≠ [(foo, CacheTest.snapshot CacheTests.optimizerCacheKey_is_missing)].
Proof. split_and!; [by vm_compute..|]. vm_compute. discriminate. Qed.

(** C1 at a record that is out of date in both keys. *)
Lemma cache_decision_priority_witness :
  (foo, bundleCacheEvent true (Some "optimizerCacheKey") [] hashes
          (stored (Some old_cacheKey) (Some "old") []) foo)
  ∈ getBundleCacheEvent (config true) (Some "optimizerCacheKey") resolved hashes
      (stored (Some old_cacheKey) (Some "old") [])
  ∧ deep_equal old_cacheKey cacheKey = false
  ∧ bundleCacheEvent true (Some "optimizerCacheKey") [] hashes
      (stored (Some old_cacheKey) (Some "old") []) foo
    = bundle_not_cached optimizer_cache_key_mismatch
        (Some (diff_optimizerCacheKey (Some "old") "optimizerCacheKey")).
Proof.
  assert (Hin : (foo, bundleCacheEvent true (Some "optimizerCacheKey") [] hashes
                        (stored (Some old_cacheKey) (Some "old") []) foo)
                ∈ getBundleCacheEvent (config true) (Some "optimizerCacheKey")
                    resolved hashes (stored (Some old_cacheKey) (Some "old") [])).
  { apply list_elem_of_here. }
  split_and!; [exact Hin|by vm_compute|].
  destruct (cache_decision_priority (config true) (Some "optimizerCacheKey") resolved
              hashes (stored (Some old_cacheKey) (Some "old") [])) as [_ Hevent].
  destruct (Hevent _ _ Hin) as [_ Henabled].
  destruct (Henabled eq_refl) as [_ Hpassed].
  destruct (Hpassed "optimizerCacheKey" eq_refl) as [_ Hstored].
  destruct (Hstored "old") as [Hmismatch _]; [by vm_compute|].
  apply Hmismatch. by vm_compute.
Defined.

End tests.

(** ** The statements at the mock repository *)

Section witnesses.
Import Posix Examples.

(** C10 at two hash maps that differ at a path outside the file list. *)
Lemma createCacheKey_only_listed_hashes_witness :
  (∀ p, p ∈ files →
        Map_get hashes p = Map_get (<["/mock_repo/README.md" := Some "x"]> hashes) p)
  ∧ Bundle.createCacheKey foo files hashes
    = Bundle.createCacheKey foo files (<["/mock_repo/README.md" := Some "x"]> hashes).
Proof.
  assert (Hagree : ∀ p, p ∈ files →
            Map_get hashes p
            = Map_get (<["/mock_repo/README.md" := Some "x"]> hashes) p).
  { intros p Hp. unfold files in Hp.
    repeat (apply elem_of_cons in Hp as [->|Hp]); [by vm_compute..|].
    by apply elem_of_nil in Hp. }
  split; [exact Hagree|].
  exact (createCacheKey_only_listed_hashes foo files _ _ Hagree).
Defined.

(** C2 at the files and the entries of the tests in another order. *)
Lemma createCacheKey_order_independent_witness :
  files ≡ₚ reverse files
  ∧ hash_entries ≡ₚ reverse hash_entries
  ∧ NoDup (hash_entries.*1)
  ∧ deep_equal
      (Bundle.createCacheKey foo (reverse files) (Map_of_entries (reverse hash_entries)))
      (Bundle.createCacheKey foo files (Map_of_entries hash_entries))
    = true
  ∧ CacheKey.spec (Bundle.createCacheKey foo files (Map_of_entries hash_entries))
    = foo_spec
  ∧ obj_keys (CacheKey.hashes (Bundle.createCacheKey foo (reverse files)
                                 (Map_of_entries (reverse hash_entries))))
    = files
  ∧ ComparePreorder localeCompare
  ∧ (∀ p q, p ∈ files → q ∈ files → localeCompare p q = Eq → p = q)
  ∧ Bundle.createCacheKey foo (reverse files) (Map_of_entries (reverse hash_entries))
    = Bundle.createCacheKey foo files (Map_of_entries hash_entries).
Proof.
  assert (Hfiles : files ≡ₚ reverse files) by (symmetry; apply reverse_Permutation).
  assert (Hentries : hash_entries ≡ₚ reverse hash_entries)
    by (symmetry; apply reverse_Permutation).
  assert (Hnd : NoDup (hash_entries.*1)).
  { apply (bool_decide_unpack _). by vm_compute. }
  assert (Hpre : ComparePreorder localeCompare).
  { apply CompareOrder_preorder, Posix_compare_order. }
  assert (Hties : ∀ p q, p ∈ files → q ∈ files → localeCompare p q = Eq → p = q).
  { intros p q _ _. apply (cmp_eq _ Posix_compare_order). }
  destruct (createCacheKey_order_independent foo files (reverse files) hash_entries
              (reverse hash_entries) Hfiles Hentries Hnd)
    as (Hdeep & _ & _ & Hspec & _ & _ & _ & Hsorted).
  destruct (Hsorted Hpre) as [_ Hsame].
  split_and!; [done..|exact Hdeep|by vm_compute|by vm_compute|exact Hpre|exact Hties|].
  exact (Hsame Hties).
Defined.

(** C3 at plugin [foo]. *)
Lemma toSpec_parseBundles_roundtrip_witness :
  valid_spec (Bundle.toSpec foo) = true
  ∧ JSON_parse (JSON_stringify (VArray [BundleSpec.to_value (Bundle.toSpec foo)]))
    = inr (toJSON (VArray [BundleSpec.to_value (Bundle.toSpec foo)]))
  ∧ ∃ b',
      parseBundles
        (VString (JSON_stringify (VArray [BundleSpec.to_value (Bundle.toSpec foo)])))
      = inr [b']
      ∧ Bundle.toSpec b' = foo_spec.
Proof.
  assert (Hvalid : valid_spec (Bundle.toSpec foo) = true) by (by vm_compute).
  assert (Hjson : JSON_parse
                    (JSON_stringify (VArray [BundleSpec.to_value (Bundle.toSpec foo)]))
                  = inr (toJSON (VArray [BundleSpec.to_value (Bundle.toSpec foo)])))
    by (by vm_compute).
  split_and!; [done..|].
  destruct (toSpec_parseBundles_roundtrip foo Hvalid Hjson)
    as (b' & Hparse & _ & _ & _ & _ & _ & _ & _ & _ & Hspec).
  exists b'. split; [exact Hparse|exact Hspec].
Defined.

(** C4 at the manifest of section 8, and at a bundle without a manifest. *)
Lemma readBundleDeps_documented_witness :
  Bundle.readBundleDeps
    (manifest_on_disk
       (VObject [("requiredBundles", VArray [VString "x"]);
                 ("requiredPlugins", VArray [VString "y"])]))
    foo
  = inr {| Bundle.implicit := ["core"; "y"]; Bundle.explicit := ["x"] |}
  ∧ Bundle.readBundleDeps no_files
      (Bundle.new
         (BundleSpec.mk "entry" "core" ["public"] "/mock_repo/src/core"
            "/mock_repo" "/mock_repo/src/core/target/public" None None))
    = inr {| Bundle.implicit := ["core"]; Bundle.explicit := [] |}.
Proof.
  split.
  - apply (readBundleDeps_documented _ foo (Some ["x"]) (Some ["y"])).
    split; [done|].
    exists (Posix.stringify
              (VObject [("requiredBundles", VArray [VString "x"]);
                        ("requiredPlugins", VArray [VString "y"])])),
      [("requiredBundles", VArray [VString "x"]);
       ("requiredPlugins", VArray [VString "y"])].
    split_and!; by vm_compute.
  - by apply (readBundleDeps_documented no_files _ None None).
Defined.


(** The same with a string: its characters become dependencies. *)
Example string_requiredPlugins_is_spread :
  Bundle.readBundleDeps (manifest_on_disk (VObject [("requiredPlugins", VString "ab")])) foo
  = inr {| Bundle.implicit := ["core"; "a"; "b"]; Bundle.explicit := [] |}.
Proof. by vm_compute. Qed.

(** With a comparator that ties two of the paths, the file list in another
    order gives a table with the same entries in another order: the keys are
    deeply equal and not the same list. *)
Example createCacheKey_with_ties :
  obj_keys (CacheKey.hashes
              (@Bundle.createCacheKey Posix.caseless foo
                 ["/mock_repo/a.ts"; "/mock_repo/A.ts"] ∅))
  = ["/mock_repo/a.ts"; "/mock_repo/A.ts"]
  ∧ obj_keys (CacheKey.hashes
                (@Bundle.createCacheKey Posix.caseless foo
                   ["/mock_repo/A.ts"; "/mock_repo/a.ts"] ∅))
    = ["/mock_repo/A.ts"; "/mock_repo/a.ts"]
  ∧ deep_equal
      (@Bundle.createCacheKey Posix.caseless foo
         ["/mock_repo/A.ts"; "/mock_repo/a.ts"] ∅)
      (@Bundle.createCacheKey Posix.caseless foo
         ["/mock_repo/a.ts"; "/mock_repo/A.ts"] ∅)
    = true.
Proof. split_and!; by vm_compute. Qed.

(** A string spreads into its code points: the two bytes of [U+00E9] stay
    together. *)
Example string_chars_code_points :
  string_chars (String (ascii_of_nat 195) (String (ascii_of_nat 169) "b"))
  = [String (ascii_of_nat 195) (String (ascii_of_nat 169) EmptyString); "b"].
Proof. by vm_compute. Qed.

(** And with a number: the error is the runtime's. *)
Example number_requiredPlugins_is_a_TypeError :
  Bundle.readBundleDeps (manifest_on_disk (VObject [("requiredPlugins", VNumber 5)])) foo
  = inl (TypeError "value is not iterable").
Proof. by vm_compute. Qed.


(** C6 at the input where the code fails: a normal module right below
    [node_modules]. Its path has a [node_modules] directory and the pass has
    no failure; the handler throws a [TypeError], so that no event is
    emitted, no [package.json] is referenced and nothing is persisted. *)
Lemma module_below_node_modules_is_not_resolved :
  is_dependency_module (NormalModule "/mock_repo/node_modules/x.js" []) = true
  ∧ ParsedPath.dirs (parseFilePath "/mock_repo/node_modules/x.js")
    = ["mock_repo"; "node_modules"]
  ∧ Stats.needAdditionalPass stats_below_node_modules = false
  ∧ Stats.failure stats_below_node_modules = None
  ∧ Handled.msg (complete outside_ok workerConfig foo stats_below_node_modules ∅)
    = inl (TypeError "Cannot read property 'startsWith' of undefined")
  ∧ Handled.persisted (complete outside_ok workerConfig foo stats_below_node_modules ∅)
    = None
  ∧ Handled.disk (complete outside_ok workerConfig foo stats_below_node_modules ∅)
    = ∅.
Proof. split_and!; by vm_compute. Qed.

(** The module of the scoped package of the pass is resolved to
    [node_modules/@scope/pkg/package.json], not to [x.js]. *)
Lemma dependency_module_references_package_json_witness :
  ∃ st',
    classify_all (initial_pass foo stats) (Stats.modules stats) = inr st'
    ∧ NormalModule "/mock_repo/node_modules/@scope/pkg/lib/x.js" []
      ∈ Stats.modules stats
    ∧ ParsedPath.dirs (parseFilePath "/mock_repo/node_modules/@scope/pkg/lib/x.js")
      = (["mock_repo"] ++ "node_modules" :: "@scope" :: ["pkg"; "lib"])
    ∧ ("node_modules" ∉ "@scope" :: ["pkg"; "lib"])
    ∧ "/mock_repo/node_modules/@scope/pkg/package.json" ∈ Pass.referencedFiles st'
    ∧ ("/mock_repo/node_modules/@scope/pkg/lib/x.js" ∉ Pass.referencedFiles st').
Proof.
  destruct (classify_all (initial_pass foo stats) (Stats.modules stats))
    as [e|st'] eqn:Hall; [by vm_compute in Hall|].
  assert (Hin : NormalModule "/mock_repo/node_modules/@scope/pkg/lib/x.js" []
                ∈ Stats.modules stats).
  { cbn. do 2 apply list_elem_of_further. apply list_elem_of_here. }
  assert (Hdirs : ParsedPath.dirs
                    (parseFilePath "/mock_repo/node_modules/@scope/pkg/lib/x.js")
                  = (["mock_repo"] ++ "node_modules" :: "@scope" :: ["pkg"; "lib"]))
    by (by vm_compute).
  assert (Hlast : "node_modules" ∉ ("@scope" :: ["pkg"; "lib"])).
  { apply (bool_decide_unpack _). by vm_compute. }
  exists st'. split_and!; [done..| |].
  - exact (proj1 (dependency_module_references_package_json foo stats st'
                    "/mock_repo/node_modules/@scope/pkg/lib/x.js" []
                    ["mock_repo"] ["pkg"; "lib"] "@scope" Hin Hdirs Hlast Hall)).
  - vm_compute in Hall. injection Hall as <-.
    apply (bool_decide_unpack _). by vm_compute.
Defined.

(** C7 at the pass with a module of an unknown kind after its modules. *)
Lemma unknown_module_is_an_error_witness :
  Forall known_kind modules
  ∧ (∀ msg, classify_all (initial_pass foo stats) modules ≠ inl (Error msg))
  ∧ classify_all (initial_pass foo stats) (modules ++ [UnknownModule "CssModule {}"])
    = inl (Error "Unexpected module type: CssModule {}").
Proof.
  assert (Hknown : Forall known_kind modules).
  { apply (bool_decide_unpack _). by vm_compute. }
  destruct (classify_all (initial_pass foo stats) modules) as [e|st1] eqn:Hbefore;
    [by vm_compute in Hbefore|].
  split_and!; [done|done|].
  destruct (unknown_module_is_an_error (initial_pass foo stats)
              (modules ++ [UnknownModule "CssModule {}"])) as (_ & Hunknown & _).
  by apply (Hunknown modules "CssModule {}" [] st1).
Defined.

(** C8 at the pass: seven file dependencies and one stylesheet. *)
Lemma persisted_workUnits_witness :
  Handled.msg (complete outside_ok workerConfig foo stats ∅)
  = inr (Some (compilerSuccess (Bundle.id foo) 5))
  ∧ (∀ files, ∃ hashes, getHashes outside_ok files = inr hashes)
  ∧ cache_writable outside_ok = true
  ∧ BundleCache.workUnits
      (BundleCache.get (Handled.disk (complete outside_ok workerConfig foo stats ∅))
         (Bundle.cache foo))
    = Some 107.
Proof.
  assert (Hmsg : Handled.msg (complete outside_ok workerConfig foo stats ∅)
                 = inr (Some (compilerSuccess (Bundle.id foo) 5))) by (by vm_compute).
  assert (Hhashes : ∀ files, ∃ hashes, getHashes outside_ok files = inr hashes)
    by (intros files; by eexists).
  split_and!; [done..|].
  exact (proj1 (persisted_workUnits outside_ok workerConfig foo stats ∅ 5
                  Hmsg Hhashes eq_refl)).
Defined.

(** C9 at the pass, with hashing and the cache file working and broken. *)
Lemma persistence_is_fire_and_forget_witness :
  stats_writable outside_broken = stats_writable outside_ok
  ∧ Handled.msg (complete outside_broken workerConfig foo stats ∅)
    = Handled.msg (complete outside_ok workerConfig foo stats ∅)
  ∧ Handled.msg (complete outside_broken workerConfig foo stats ∅)
    = inr (Some (compilerSuccess "foo" 5))
  ∧ Handled.disk (complete outside_broken workerConfig foo stats ∅) = ∅.
Proof.
  destruct (persistence_is_fire_and_forget outside_broken outside_ok workerConfig
              foo stats ∅ eq_refl) as (Hsame & _ & _ & Hdisk).
  split_and!; [done|exact Hsame|by vm_compute|].
  apply Hdisk. by left.
Defined.

End witnesses.

(** * More properties of the code *)

(** ** Cache keys *)

Section cache_keys.
Context `{NodeRuntime} (Hord : CompareOrder localeCompare).

Lemma localeCompare_lt_irrefl (p : string) : localeCompare p p ≠ Lt.
Proof using Hord.
  intros Hlt. pose proof (cmp_antisym _ Hord p p) as Hflip.
  rewrite Hlt in Hflip. done.
Qed.

Lemma localeCompare_lt_asym (p q : string) :
  localeCompare p q = Lt → localeCompare q p ≠ Lt.
Proof using Hord.
  intros Hlt Hlt'. pose proof (cmp_antisym _ Hord p q) as Hflip.
  rewrite Hlt, Hlt' in Hflip. done.
Qed.

(** Two objects with their keys in strictly ascending order that read alike
    are the same object. *)
Lemma sorted_object_ext {V} (o1 o2 : JsObject V) :
  StronglySorted (λ p q, localeCompare p q = Lt) (obj_keys o1) →
  StronglySorted (λ p q, localeCompare p q = Lt) (obj_keys o2) →
  (∀ p, obj_get p o1 = obj_get p o2) → o1 = o2.
Proof using Hord.
  revert o2. induction o1 as [|[k1 v1] o1 IH]; intros [|[k2 v2] o2] Hs1 Hs2 Hget.
  - done.
  - specialize (Hget k2). simpl in Hget. by rewrite decide_True in Hget.
  - specialize (Hget k1). simpl in Hget. by rewrite decide_True in Hget.
  - unfold obj_keys in Hs1, Hs2. csimpl in *.
    apply StronglySorted_inv in Hs1 as [Hs1 Hk1].
    apply StronglySorted_inv in Hs2 as [Hs2 Hk2].
    rewrite Forall_forall in Hk1, Hk2.
    assert (Hfresh1 : k1 ∉ o1.*1).
    { intros Hin. by apply (localeCompare_lt_irrefl k1), Hk1. }
    assert (Hfresh2 : k2 ∉ o2.*1).
    { intros Hin. by apply (localeCompare_lt_irrefl k2), Hk2. }
    assert (k1 = k2) as <-.
    { destruct (decide (k1 = k2)) as [|Hne]; [done|]. exfalso.
      pose proof (Hget k1) as G1. pose proof (Hget k2) as G2. simpl in G1, G2.
      rewrite decide_True in G1 by done. rewrite decide_False in G1 by done.
      rewrite decide_False in G2 by done. rewrite decide_True in G2 by done.
      assert (k1 ∈ o2.*1) as Hin1.
      { destruct (decide (k1 ∈ o2.*1)) as [|Hout]; [done|].
        apply (obj_get_None o2) in Hout. congruence. }
      assert (k2 ∈ o1.*1) as Hin2.
      { destruct (decide (k2 ∈ o1.*1)) as [|Hout]; [done|].
        apply (obj_get_None o1) in Hout. congruence. }
      by apply (localeCompare_lt_asym k1 k2); [apply Hk1|apply Hk2]. }
    pose proof (Hget k1) as G. simpl in G. rewrite !decide_True in G by done.
    injection G as <-. f_equal. apply IH; [done..|].
    intros p. destruct (decide (p = k1)) as [->|Hne].
    + apply (obj_get_None o1) in Hfresh1. apply (obj_get_None o2) in Hfresh2.
      congruence.
    + specialize (Hget p). simpl in Hget. by rewrite !decide_False in Hget by done.
Qed.

(** X1: when two calls of [createCacheKey] give the same key. With a
    [localeCompare] that orders the paths totally, the keys are the same
    exactly when the bundles have the same spec, the file lists hold the same
    paths (in any order, any number of times) and the hash maps agree on
    these paths. *)
Theorem createCacheKey_equal_iff (b b' : Bundle.t) (files files' : list string)
    (hashes hashes' : gmap string (option string)) :
  Bundle.createCacheKey b files hashes = Bundle.createCacheKey b' files' hashes'
  ↔ Bundle.toSpec b = Bundle.toSpec b'
    ∧ (∀ p, p ∈ files ↔ p ∈ files')
    ∧ (∀ p, p ∈ files → Map_get hashes p = Map_get hashes' p).
Proof using Hord.
  split.
  - intros Heq.
    assert (Hget : ∀ p,
              (if decide (p ∈ files) then Some (Map_get hashes p) else None)
              = (if decide (p ∈ files') then Some (Map_get hashes' p) else None)).
    { intros p. rewrite <-(createCacheKey_lookup b), <-(createCacheKey_lookup b').
      by rewrite Heq. }
    split_and!.
    + by apply (f_equal CacheKey.spec) in Heq.
    + intros p. specialize (Hget p). by repeat case_decide.
    + intros p Hp. specialize (Hget p). rewrite decide_True in Hget by done.
      case_decide; congruence.
  - intros (Hspec & Hfiles & Hhashes).
    unfold Bundle.createCacheKey. rewrite Hspec. f_equal.
    apply sorted_object_ext.
    + apply (createCacheKey_keys_sorted Hord b files hashes).
    + apply (createCacheKey_keys_sorted Hord b' files' hashes').
    + intros p.
      pose proof (createCacheKey_lookup b files hashes p) as G1.
      pose proof (createCacheKey_lookup b' files' hashes' p) as G2.
      simpl in G1, G2. rewrite G1, G2.
      destruct (decide (p ∈ files)) as [Hin|Hout].
      * rewrite decide_True by (by apply Hfiles). by rewrite Hhashes.
      * rewrite decide_False; [done|]. by rewrite <-Hfiles.
Qed.

End cache_keys.

(** ** [parseBundles] *)

Lemma map_throwing_app {A B} (f : A → result B) (l1 l2 : list A) :
  map_throwing f (l1 ++ l2)
  = bind (map_throwing f l1)
      (λ bs1, bind (map_throwing f l2) (λ bs2, ret (bs1 ++ bs2))).
Proof.
  induction l1 as [|a l1 IH]; simpl.
  - by destruct (map_throwing f l2).
  - destruct (f a) as [e|b]; simpl; [done|]. rewrite IH.
    destruct (map_throwing f l1) as [e|bs1]; simpl; [done|].
    by destruct (map_throwing f l2).
Qed.

Lemma map_throwing_Forall2 {A B} (f : A → result B) (l : list A) (bs : list B) :
  map_throwing f l = inr bs ↔ Forall2 (λ a b, f a = inr b) l bs.
Proof.
  revert bs. induction l as [|a l IH]; intros bs; simpl.
  - split; [by intros [= <-]; constructor|by intros ->%Forall2_nil_inv_l].
  - split.
    + destruct (f a) as [e|b] eqn:Hf; simpl; [done|].
      destruct (map_throwing f l) as [e|bs'] eqn:Hl; simpl; [done|].
      intros [= <-]. constructor; [done|]. by apply IH.
    + intros (b & bs' & Hb & Hrest & ->)%Forall2_cons_inv_l.
      apply IH in Hrest. by rewrite Hb, Hrest.
Qed.

Section parseBundles_facts.
Context `{NodeRuntime}.

Lemma parseBundles_inr (json : value) (bundles : list Bundle.t) :
  parseBundles json = inr bundles ↔
  ∃ text specs,
    json = VString text ∧ JSON_parse text = inr (VArray specs)
    ∧ map_throwing parseBundleSpec specs = inr bundles.
Proof.
  unfold parseBundles, try_catch. split.
  - destruct json as [| | | |text| |]; try done. simpl.
    destruct (JSON_parse text) as [e|[| | | | |specs|]] eqn:Hparse; simpl; try done.
    destruct (map_throwing parseBundleSpec specs) as [e|bs] eqn:Hmap; [done|].
    intros [= <-]. by exists text, specs.
  - intros (text & specs & -> & Hparse & Hmap). simpl. rewrite Hparse. simpl.
    by rewrite Hmap.
Qed.

Lemma parseBundleSpec_new (spec : value) (b : Bundle.t) :
  parseBundleSpec spec = inr b → b = Bundle.new (Bundle.toSpec b).
Proof.
  unfold parseBundleSpec.
  repeat (match goal with
          | |- (if ?c then _ else _) = _ → _ => destruct c; [done|]
          end).
  intros [= <-]. by rewrite new_toSpec.
Qed.

Lemma get_prop_typeof_string (spec : value) (k : string) :
  String.eqb (typeof (get_prop spec k)) "string" = true →
  get_prop spec k = VString (as_string (get_prop spec k)).
Proof. by destruct (get_prop spec k). Qed.

Lemma strings_of_values (l : list value) :
  forallb (λ d, String.eqb (typeof d) "string") l = true →
  l = VString <$> (as_string <$> l).
Proof.
  induction l as [|v l IH]; csimpl; [done|].
  intros [Hv Hl]%andb_true_iff. rewrite <-IH by done.
  f_equal. by destruct v.
Qed.

(** An element that [parseBundleSpec] turns into a bundle has passed every
    check, and the bundle holds its values. *)
Lemma parseBundleSpec_passes_checks (spec : value) (b : Bundle.t) :
  parseBundleSpec spec = inr b → passes_checks spec b.
Proof.
  unfold parseBundleSpec.
  repeat (match goal with
          | |- (if ?c then _ else _) = _ → _ => destruct c eqn:?; [done|]
          end).
  intros [= <-].
  repeat match goal with
         | E : negb _ = false |- _ => apply negb_false_iff in E
         | E : _ || _ = false |- _ => apply orb_false_iff in E as [? ?]
         | E : _ && _ = true |- _ => apply andb_true_iff in E as [? ?]
         | E : String.eqb _ _ = true |- _ => apply String.eqb_eq in E
         end.
  unfold passes_checks. cbn [Bundle.new Bundle.type Bundle.id Bundle.publicDirNames
    Bundle.contextDir Bundle.sourceRoot Bundle.outputDir Bundle.manifestPath
    Bundle.banner Bundle.cache BundleSpec.type BundleSpec.id
    BundleSpec.publicDirNames BundleSpec.contextDir BundleSpec.sourceRoot
    BundleSpec.outputDir BundleSpec.manifestPath BundleSpec.banner BundleCache.path].
  split_and!; try done.
  - by destruct (get_prop spec "type").
  - destruct (get_prop spec "type"); try done.
    match goal with
    | E : includes _ _ = true |- _ => by apply bool_decide_eq_true_1 in E
    end.
  - by destruct (get_prop spec "id").
  - destruct (get_prop spec "publicDirNames") as [| | | | |l|]; try done.
    simpl. f_equal. by apply strings_of_values.
  - by destruct (get_prop spec "contextDir").
  - by destruct (get_prop spec "sourceRoot").
  - by destruct (get_prop spec "outputDir").
  - by destruct (get_prop spec "manifestPath").
  - intros mp Hmp.
    destruct (get_prop spec "manifestPath"); simplify_eq/=.
    match goal with
    | E : negb (Path_isAbsolute _) = false |- _ => by apply negb_false_iff in E
    end.
  - by destruct (get_prop spec "banner").
Qed.

(** X2: what [parseBundles] returns has been checked. When it returns, the
    input is a string that parses to an array, there is one bundle for every
    element of the array, in order, and every element has passed every
    check of its bundle: it is an object with a valid [type], a string [id],
    an array of strings [publicDirNames], absolute paths [contextDir],
    [sourceRoot], [outputDir] and, if any, [manifestPath], and a string
    [banner], if any. The bundle holds these values and its cache is at
    [.osd-optimizer-cache] below its [outputDir]. *)
Theorem parseBundles_checked (json : value) (bundles : list Bundle.t) :
  parseBundles json = inr bundles →
  ∃ text specs,
    json = VString text
    ∧ JSON_parse text = inr (VArray specs)
    ∧ length bundles = length specs
    ∧ Forall2 (λ spec b, parseBundleSpec spec = inr b ∧ passes_checks spec b)
        specs bundles.
Proof.
  intros (text & specs & -> & Hparse & Hmap)%parseBundles_inr.
  apply map_throwing_Forall2 in Hmap.
  exists text, specs. split_and!; [done..| |].
  - symmetry. by eapply Forall2_length.
  - eapply Forall2_impl; [exact Hmap|].
    intros spec b Hb. split; [done|]. by apply parseBundleSpec_passes_checks.
Qed.

(** X3: [parseBundles] stops at the first element that fails a check. When
    the elements before it pass, the error is "unable to parse bundles: "
    followed by the message of that check, whatever comes after the
    element. *)
Theorem parseBundles_first_invalid (text : string) (before after : list value)
    (invalid : value) (bundles : list Bundle.t) (e : exn) :
  JSON_parse text = inr (VArray (before ++ invalid :: after)) →
  map_throwing parseBundleSpec before = inr bundles →
  parseBundleSpec invalid = inl e →
  parseBundles (VString text)
  = inl (Error ("unable to parse bundles: " +:+ exn_message e)).
Proof.
  intros Hparse Hbefore Hinvalid. unfold parseBundles. rewrite Hparse.
  cbn [bind]. rewrite map_throwing_app, Hbefore. cbn [bind map_throwing].
  by rewrite Hinvalid.
Qed.

(** X4: every failure of [parseBundles] is one error whose message starts
    with "unable to parse bundles: "; the message of what went wrong, of
    [JSON.parse] too, follows. *)
Theorem parseBundles_one_error (json : value) (e : exn) :
  parseBundles json = inl e →
  ∃ cause, e = Error ("unable to parse bundles: " +:+ cause)
           ∧ (∀ text e', json = VString text → JSON_parse text = inl e' →
                         cause = exn_message e').
Proof.
  unfold parseBundles, try_catch.
  destruct (match json with VString _ => _ | _ => _ end) as [e0|bs] eqn:Hinner;
    [|done].
  intros [= <-]. exists (exn_message e0). split; [done|].
  intros text e' -> Hparse. rewrite Hparse in Hinner. simpl in Hinner. congruence.
Qed.

(** X5: a parsed bundle has the fields of the object it was parsed from. For
    each of the eight names of a spec, the object that [toSpec] builds of the
    bundle reads as the parsed object does; an optional field is absent in
    one exactly when it is [undefined] in the other. *)
Theorem parseBundleSpec_reflects (spec : value) (b : Bundle.t) :
  parseBundleSpec spec = inr b →
  ∀ k, k ∈ BUNDLE_SPEC_KEYS →
       get_prop (BundleSpec.to_value (Bundle.toSpec b)) k = get_prop spec k.
Proof.
  unfold parseBundleSpec.
  repeat (match goal with
          | |- (if ?c then _ else _) = _ → _ => destruct c eqn:?; [done|]
          end).
  intros [= <-].
  repeat match goal with
         | E : negb _ = false |- _ => apply negb_false_iff in E
         | E : _ || _ = false |- _ => apply orb_false_iff in E as [? ?]
         | E : _ && _ = true |- _ => apply andb_true_iff in E as [? ?]
         end.
  assert (Htype : get_prop spec "type" = VString (as_string (get_prop spec "type"))).
  { destruct (get_prop spec "type"); try done. }
  assert (Hnames : get_prop spec "publicDirNames"
                   = VArray (VString <$> as_strings (get_prop spec "publicDirNames"))).
  { destruct (get_prop spec "publicDirNames") as [| | | | |l|]; try done.
    simpl. f_equal. by apply strings_of_values. }
  assert (Hmanifest : get_prop spec "manifestPath"
                      = of_optional_string
                          (as_optional_string (get_prop spec "manifestPath"))).
  { destruct (get_prop spec "manifestPath"); try done. }
  assert (Hbanner : get_prop spec "banner"
                    = of_optional_string (as_optional_string (get_prop spec "banner"))).
  { destruct (get_prop spec "banner"); try done. }
  intros k Hk. unfold BUNDLE_SPEC_KEYS in Hk.
  repeat (apply elem_of_cons in Hk as [->|Hk]);
    [..|by apply elem_of_nil in Hk];
    (etransitivity; [by vm_compute|]); symmetry;
    first [done | by apply get_prop_typeof_string].
Qed.

(** X6: [parseBundleSpec] reads the eight names of a spec and nothing else:
    two objects that read alike at these names, whatever else they hold and
    in whatever order, parse to the same bundle or fail with the same
    error. *)
Theorem parseBundleSpec_reads_spec_keys (props props' : list (string * value)) :
  (∀ k, k ∈ BUNDLE_SPEC_KEYS →
        get_prop (VObject props) k = get_prop (VObject props') k) →
  parseBundleSpec (VObject props) = parseBundleSpec (VObject props').
Proof.
  intros Hkeys. unfold parseBundleSpec. cbn [truthy typeof].
  rewrite !(Hkeys _) by (apply (bool_decide_unpack _); by vm_compute).
  done.
Qed.

End parseBundles_facts.

(** ** [readBundleDeps], more *)

Section readBundleDeps_facts.
Context `{NodeRuntime}.

(** X7: whenever [readBundleDeps] returns, ["core"] is the first implicit
    dependency, whatever the manifest holds, and all of
    [DEFAULT_IMPLICIT_BUNDLE_DEPS] is in front. *)
Theorem readBundleDeps_core_first (fs : FileSystem) (b : Bundle.t)
    (deps : Bundle.BundleDeps) :
  Bundle.readBundleDeps fs b = inr deps →
  ∃ plugins, Bundle.implicit deps = DEFAULT_IMPLICIT_BUNDLE_DEPS ++ plugins
             ∧ head (Bundle.implicit deps) = Some "core".
Proof.
  unfold Bundle.readBundleDeps.
  destruct (negb _).
  { intros [= <-]. by exists []. }
  destruct (try_catch (fs _) _) as [e|json]; [done|]. cbn [bind].
  destruct (try_catch (JSON_parse json) _) as [e|parsed]; [done|]. cbn [bind].
  destruct (_ && _); [|done].
  destruct (Bundle.spread _) as [e|plugins]; [done|]. cbn [bind].
  destruct (_ && _); [|done]. cbn [bind ret].
  intros [= <-]. by exists (as_string <$> plugins).
Qed.

(** X8: [readBundleDeps] reads one file, the manifest of the bundle. Two
    file systems that hold the same at the manifest path give the same
    result, and a bundle without a manifest path, or with the empty path,
    gets the default dependencies from every file system. *)
Theorem readBundleDeps_reads_the_manifest_only (fs fs' : FileSystem) (b : Bundle.t) :
  (∀ mp, Bundle.manifestPath b = Some mp → mp ≠ EmptyString → fs mp = fs' mp) →
  Bundle.readBundleDeps fs b = Bundle.readBundleDeps fs' b
  ∧ (Bundle.manifestPath b = None ∨ Bundle.manifestPath b = Some EmptyString →
     Bundle.readBundleDeps fs b
     = inr {| Bundle.implicit := DEFAULT_IMPLICIT_BUNDLE_DEPS;
              Bundle.explicit := [] |}).
Proof.
  intros Hsame. unfold Bundle.readBundleDeps.
  destruct (Bundle.manifestPath b) as [mp|]; [|by split].
  destruct (decide (mp = EmptyString)) as [->|Hne]; [by split|].
  split; [|by intros [?|[= ?]]].
  cbn [default from_option Datatypes.id]. by rewrite (Hsame mp).
Qed.

(** X9: a manifest that is a JSON array passes for an object without
    fields: [readBundleDeps] returns the default dependencies. *)
Theorem readBundleDeps_array_manifest (fs : FileSystem) (b : Bundle.t)
    (mp json : string) (elements : list value) :
  Bundle.manifestPath b = Some mp → mp ≠ EmptyString →
  fs mp = inr json → JSON_parse json = inr (VArray elements) →
  Bundle.readBundleDeps fs b
  = inr {| Bundle.implicit := DEFAULT_IMPLICIT_BUNDLE_DEPS; Bundle.explicit := [] |}.
Proof.
  intros Hmp Hne Hread Hparse.
  by rewrite (readBundleDeps_parsed fs b mp json (VArray elements)).
Qed.

End readBundleDeps_facts.

(** ** What a pass counts, references and persists *)

Lemma Set_add_all_fresh (l s : list string) :
  NoDup (s ++ l) → foldl (λ s k, Set_add k s) s l = s ++ l.
Proof.
  revert s. induction l as [|k l IH]; intros s Hnd; simpl.
  { by rewrite app_nil_r. }
  unfold Set_add at 2. rewrite decide_False.
  - rewrite IH; rewrite <-app_assoc; done.
  - apply NoDup_app in Hnd as (_ & Hdisjoint & _).
    intros Hin. apply (Hdisjoint k Hin). by left.
Qed.

Section pass_facts.
Context `{NodeRuntime} `{OptimizerCommon}.

Lemma classify_counts (st st' : Pass.t) (m : WebpackModule) :
  classify st m = inr st' →
  Pass.moduleCount st' = Pass.moduleCount st + counted m
  ∧ Pass.bundleRefExportIds st' = Pass.bundleRefExportIds st ++ exportIds [m]
  ∧ (NoDup (Pass.referencedFiles st) → NoDup (Pass.referencedFiles st'))
  ∧ ∀ x, x ∈ Pass.referencedFiles st'
         ↔ x ∈ Pass.referencedFiles st ∨ x ∈ references m.
Proof.
  intros Hc. destruct m as [path deps|exportId|modules| | |inspect];
    simpl in Hc |- *.
  - destruct (negb _).
    + destruct (endsWith _ _); inversion Hc; subst; simpl.
      * split_and!; [done|by rewrite app_nil_r| |].
        -- intros Hnd. by apply Set_add_all_NoDup, Set_add_NoDup.
        -- intros x. rewrite elem_of_Set_add_all, elem_of_Set_add, elem_of_cons. tauto.
      * split_and!; [done|by rewrite app_nil_r|apply Set_add_NoDup|].
        intros x. rewrite elem_of_Set_add, list_elem_of_singleton. tauto.
    + destruct (Array_at _ _); inversion Hc; subst; simpl.
      split_and!; [done|by rewrite app_nil_r|apply Set_add_NoDup|].
      intros x. rewrite elem_of_Set_add, list_elem_of_singleton. tauto.
  - inversion Hc; subst; simpl. split_and!; [lia|done|done|].
    intros x. rewrite elem_of_nil. tauto.
  - inversion Hc; subst; simpl. split_and!; [done|by rewrite app_nil_r|done|].
    intros x. rewrite elem_of_nil. tauto.
  - inversion Hc; subst; simpl. split_and!; [lia|by rewrite app_nil_r|done|].
    intros x. rewrite elem_of_nil. tauto.
  - inversion Hc; subst; simpl. split_and!; [lia|by rewrite app_nil_r|done|].
    intros x. rewrite elem_of_nil. tauto.
  - done.
Qed.

Lemma classify_all_counts (modules : list WebpackModule) (st st' : Pass.t) :
  classify_all st modules = inr st' →
  Pass.moduleCount st' = Pass.moduleCount st + counted_modules modules
  ∧ Pass.bundleRefExportIds st' = Pass.bundleRefExportIds st ++ exportIds modules
  ∧ (NoDup (Pass.referencedFiles st) → NoDup (Pass.referencedFiles st'))
  ∧ ∀ x, x ∈ Pass.referencedFiles st'
         ↔ x ∈ Pass.referencedFiles st ∨ ∃ m, m ∈ modules ∧ x ∈ references m.
Proof.
  revert st. induction modules as [|m modules IH]; intros st Hc; simpl in Hc.
  - inversion Hc; subst. unfold counted_modules. simpl.
    split_and!; [lia|by rewrite app_nil_r|done|].
    intros x. split; [tauto|]. intros [?|(m & Hm & _)]; [done|].
    by apply elem_of_nil in Hm.
  - destruct (classify st m) as [e|st1] eqn:Hm; [done|]. simpl in Hc.
    destruct (classify_counts st st1 m Hm) as (Hcount1 & Hids1 & Hnd1 & Hfiles1).
    destruct (IH st1 Hc) as (Hcount & Hids & Hnd & Hfiles).
    split_and!.
    + rewrite Hcount, Hcount1. unfold counted_modules. csimpl. lia.
    + rewrite Hids, Hids1, <-app_assoc. f_equal.
      unfold exportIds. simpl. by destruct m.
    + intros ?. by apply Hnd, Hnd1.
    + intros x. rewrite Hfiles, Hfiles1. split.
      * intros [[?|?]|(m' & Hm' & ?)]; [by left| |].
        -- right. exists m. split; [by left|done].
        -- right. exists m'. split; [by right|done].
      * intros [?|(m' & [->|Hm']%elem_of_cons & ?)]; [by left; left|by left; right|].
        right. by exists m'.
Qed.

(** What the handler leaves on disk when a pass ends well and the record
    can be persisted. *)
Lemma complete_persists (out : Outside) (workerConfig : WorkerConfig.t)
    (bundle : Bundle.t) (stats : Stats.t) (disk : gmap string BundleCache.State)
    (moduleCount : nat) :
  Handled.msg (complete out workerConfig bundle stats disk)
  = inr (Some (compilerSuccess (Bundle.id bundle) moduleCount)) →
  (∀ files, ∃ hashes, getHashes out files = inr hashes) →
  cache_writable out = true →
  ∃ st hashes,
    classify_all (initial_pass bundle stats) (Stats.modules stats) = inr st
    ∧ Pass.moduleCount st = moduleCount
    ∧ getHashes out (Array_sort (ascending (λ p, p)) (Pass.referencedFiles st))
      = inr hashes
    ∧ Handled.disk (complete out workerConfig bundle stats disk)
      = <[BundleCache.path (Bundle.cache bundle) :=
            record_of workerConfig bundle st
              (Array_sort (ascending (λ p, p)) (Pass.referencedFiles st)) hashes]>
          disk.
Proof.
  intros Hmsg Hhashes Hwritable.
  destruct (complete_success _ _ _ _ _ _ Hmsg) as (st & Hall & Hcount & ->).
  destruct (Hhashes (Array_sort (ascending (λ p, p)) (Pass.referencedFiles st)))
    as [hashes Hh].
  exists st, hashes. split_and!; [done..|].
  cbv zeta. unfold persist, Promise_catch, Promise_then, Promise_settled.
  rewrite Hh. unfold BundleCache.set. by rewrite Hwritable.
Qed.

(** X10: the [moduleCount] of a [Success] message is one for every normal
    module plus the number of modules inside every concatenated module;
    bundle references, external and ignored modules do not count. The
    record that is persisted holds the same number. *)
Theorem success_moduleCount (out : Outside) (workerConfig : WorkerConfig.t)
    (bundle : Bundle.t) (stats : Stats.t) (disk : gmap string BundleCache.State)
    (moduleCount : nat) :
  Handled.msg (complete out workerConfig bundle stats disk)
  = inr (Some (compilerSuccess (Bundle.id bundle) moduleCount)) →
  moduleCount = counted_modules (Stats.modules stats)
  ∧ ((∀ files, ∃ hashes, getHashes out files = inr hashes) →
     cache_writable out = true →
     BundleCache.moduleCount
       (BundleCache.get (Handled.disk (complete out workerConfig bundle stats disk))
          (Bundle.cache bundle))
     = Some moduleCount).
Proof.
  intros Hmsg.
  assert (Hcount : ∀ st,
            classify_all (initial_pass bundle stats) (Stats.modules stats) = inr st →
            Pass.moduleCount st = counted_modules (Stats.modules stats)).
  { intros st Hall. by destruct (classify_all_counts _ _ _ Hall) as (-> & _). }
  split.
  - destruct (complete_success _ _ _ _ _ _ Hmsg) as (st & Hall & <- & _).
    by apply Hcount.
  - intros Hhashes Hwritable.
    destruct (complete_persists _ _ _ _ _ _ Hmsg Hhashes Hwritable)
      as (st & hashes & Hall & <- & _ & ->).
    unfold BundleCache.get. by rewrite lookup_insert_eq.
Qed.

(** X11: the [bundleRefExportIds] a pass persists are the export ids of its
    bundle reference modules, in the order of the modules, one for every
    module (a repeated id is kept). *)
Theorem persisted_bundleRefExportIds (out : Outside) (workerConfig : WorkerConfig.t)
    (bundle : Bundle.t) (stats : Stats.t) (disk : gmap string BundleCache.State)
    (moduleCount : nat) :
  Handled.msg (complete out workerConfig bundle stats disk)
  = inr (Some (compilerSuccess (Bundle.id bundle) moduleCount)) →
  (∀ files, ∃ hashes, getHashes out files = inr hashes) →
  cache_writable out = true →
  BundleCache.bundleRefExportIds
    (BundleCache.get (Handled.disk (complete out workerConfig bundle stats disk))
       (Bundle.cache bundle))
  = Some (exportIds (Stats.modules stats)).
Proof.
  intros Hmsg Hhashes Hwritable.
  destruct (complete_persists _ _ _ _ _ _ Hmsg Hhashes Hwritable)
    as (st & hashes & Hall & _ & _ & ->).
  unfold BundleCache.get. rewrite lookup_insert_eq. cbn.
  by destruct (classify_all_counts _ _ _ Hall) as (_ & -> & _).
Qed.

Lemma referencedFiles_NoDup (bundle : Bundle.t) (stats : Stats.t) (st : Pass.t) :
  classify_all (initial_pass bundle stats) (Stats.modules stats) = inr st →
  NoDup (Pass.referencedFiles st).
Proof.
  intros Hall.
  destruct (classify_all_counts _ _ _ Hall) as (_ & _ & Hnd & _).
  apply Hnd. unfold initial_pass. simpl.
  destruct (Bundle.manifestPath bundle) as [[|c mp]|]; simpl;
    [constructor|apply NoDup_singleton|constructor].
Qed.

(** X12: the files a pass references. When the loop over the modules ends,
    the referenced files are the manifest path of the bundle, if it has one,
    and what the modules reference: the path of every normal module outside
    [node_modules], the file dependencies of those that end in [.scss], and
    the [package.json] of the package of every normal module below
    [node_modules]. No other file is referenced, and none twice. *)
Theorem referenced_files (bundle : Bundle.t) (stats : Stats.t) (st : Pass.t) :
  classify_all (initial_pass bundle stats) (Stats.modules stats) = inr st →
  NoDup (Pass.referencedFiles st)
  ∧ ∀ x, x ∈ Pass.referencedFiles st
         ↔ (x ≠ EmptyString ∧ Bundle.manifestPath bundle = Some x)
           ∨ ∃ m, m ∈ Stats.modules stats ∧ x ∈ references m.
Proof.
  intros Hall.
  destruct (classify_all_counts _ _ _ Hall) as (_ & _ & Hnd & Hfiles).
  assert (Hinit : NoDup (Pass.referencedFiles (initial_pass bundle stats))
                  ∧ ∀ x, x ∈ Pass.referencedFiles (initial_pass bundle stats)
                         ↔ x ≠ EmptyString ∧ Bundle.manifestPath bundle = Some x).
  { unfold initial_pass. simpl.
    destruct (Bundle.manifestPath bundle) as [[|c mp]|]; simpl.
    - split; [constructor|]. intros x. rewrite elem_of_nil.
      split; [done|]. by intros [? [= <-]].
    - split; [apply NoDup_singleton|]. intros x.
      unfold Set_add. simpl. rewrite list_elem_of_singleton.
      split; [by intros ->|]. by intros [_ [= <-]].
    - split; [constructor|]. intros x. rewrite elem_of_nil.
      split; [done|]. by intros [_ ?]. }
  destruct Hinit as [Hnd0 Hfiles0].
  split; [by apply Hnd|]. intros x. by rewrite Hfiles, Hfiles0.
Qed.

End pass_facts.

Section persisted_files.
Context `{NodeRuntime} `{OptimizerCommon} (Hord : CompareOrder localeCompare).

Lemma strictly_sorted_NoDup (l : list string) :
  StronglySorted (λ p q, localeCompare p q = Lt) l → NoDup l.
Proof using Hord.
  induction 1 as [|p l Hl IH Hp]; constructor; [|done].
  intros Hin. rewrite Forall_forall in Hp.
  by apply (localeCompare_lt_irrefl Hord p), Hp.
Qed.

Lemma strictly_sorted_ext (l k : list string) :
  StronglySorted (λ p q, localeCompare p q = Lt) l →
  StronglySorted (λ p q, localeCompare p q = Lt) k →
  (∀ x, x ∈ l ↔ x ∈ k) → l = k.
Proof using Hord.
  intros Hl Hk Hsame.
  apply (StronglySorted_unique_strong (λ p q, localeCompare p q = Lt)); [|done..|].
  - intros p q _ _ Hpq Hqp. by destruct (localeCompare_lt_asym Hord p q).
  - apply NoDup_Permutation; [by apply strictly_sorted_NoDup..|done].
Qed.

Lemma sorted_files (l : list string) :
  NoDup l →
  StronglySorted (λ p q, localeCompare p q = Lt) (Array_sort (ascending (λ p, p)) l).
Proof using Hord.
  intros Hnd. apply (sorted_NoDup_strict Hord).
  - apply Array_sort_sorted;
      [apply (ascending_flip Hord)|apply (ascending_le_trans Hord)].
  - by rewrite Array_sort_Permutation.
Qed.

(** X13: the file list a pass persists and the cache key beside it. With a
    [localeCompare] that orders the paths totally, the [files] of the record
    are the referenced files in strictly ascending order, each once, and the
    paths of the table of [cacheKey] are this very list; the hashes of the
    table are those [getHashes] gave for the list. *)
Theorem persisted_files_and_key (out : Outside) (workerConfig : WorkerConfig.t)
    (bundle : Bundle.t) (stats : Stats.t) (disk : gmap string BundleCache.State)
    (moduleCount : nat) :
  Handled.msg (complete out workerConfig bundle stats disk)
  = inr (Some (compilerSuccess (Bundle.id bundle) moduleCount)) →
  (∀ files, ∃ hashes, getHashes out files = inr hashes) →
  cache_writable out = true →
  ∃ st files hashes key,
    classify_all (initial_pass bundle stats) (Stats.modules stats) = inr st
    ∧ BundleCache.files
        (BundleCache.get (Handled.disk (complete out workerConfig bundle stats disk))
           (Bundle.cache bundle)) = Some files
    ∧ BundleCache.cacheKey
        (BundleCache.get (Handled.disk (complete out workerConfig bundle stats disk))
           (Bundle.cache bundle)) = Some key
    ∧ StronglySorted (λ p q, localeCompare p q = Lt) files
    ∧ (∀ x, x ∈ files ↔ x ∈ Pass.referencedFiles st)
    ∧ getHashes out files = inr hashes
    ∧ key = Bundle.createCacheKey bundle files hashes
    ∧ obj_keys (CacheKey.hashes key) = files
    ∧ ∀ p, p ∈ files → obj_get p (CacheKey.hashes key) = Some (Map_get hashes p).
Proof using Hord.
  intros Hmsg Hhashes Hwritable.
  destruct (complete_persists _ _ _ _ _ _ Hmsg Hhashes Hwritable)
    as (st & hashes & Hall & _ & Hh & ->).
  pose proof (referencedFiles_NoDup bundle stats st Hall) as Hnd.
  set (files := Array_sort (ascending (λ p, p)) (Pass.referencedFiles st)) in *.
  assert (Hsorted : StronglySorted (λ p q, localeCompare p q = Lt) files)
    by (by apply sorted_files).
  exists st, files, hashes, (Bundle.createCacheKey bundle files hashes).
  unfold BundleCache.get. rewrite lookup_insert_eq. cbn [default from_option Datatypes.id].
  split_and!; [done..| |done|done| |].
  - intros x. unfold files. by rewrite Array_sort_Permutation.
  - apply strictly_sorted_ext; [apply (createCacheKey_keys_sorted Hord)|done|].
    intros x.
    pose proof (obj_get_None (CacheKey.hashes (Bundle.createCacheKey bundle files hashes)) x)
      as Hnone.
    rewrite createCacheKey_lookup in Hnone.
    destruct (decide (x ∈ files)) as [Hin|Hout].
    + split; [done|]. intros _.
      destruct (decide (x ∈ obj_keys (CacheKey.hashes
                                         (Bundle.createCacheKey bundle files hashes))))
        as [|Hout]; [done|].
      by apply Hnone in Hout.
    + split; [|done]. intros Hin. exfalso.
      assert (@None (option string) = None) as Heq by done.
      apply Hnone in Heq. done.
  - intros p Hp. rewrite createCacheKey_lookup. by rewrite decide_True.
Qed.

End persisted_files.

Section handler_writes.
Context `{NodeRuntime} `{OptimizerCommon}.

(** X14: the handler writes the cache only for a pass it reports as a
    success, and only the record of its own bundle. Whatever the stats and
    whatever happens outside, the cache files are as before, or the message
    is [Success] and the files are as before except at the cache path of the
    bundle. A pass that asks for another pass, a failed pass and a pass whose
    modules cannot be classified leave every cache file alone. *)
Theorem cache_written_on_success_only (out : Outside) (workerConfig : WorkerConfig.t)
    (bundle : Bundle.t) (stats : Stats.t) (disk : gmap string BundleCache.State) :
  Handled.disk (complete out workerConfig bundle stats disk) = disk
  ∨ ((∃ moduleCount,
        Handled.msg (complete out workerConfig bundle stats disk)
        = inr (Some (compilerSuccess (Bundle.id bundle) moduleCount)))
     ∧ Stats.needAdditionalPass stats = false
     ∧ Stats.failure stats = None
     ∧ ∃ record,
         Handled.disk (complete out workerConfig bundle stats disk)
         = <[BundleCache.path (Bundle.cache bundle) := record]> disk).
Proof.
  unfold complete.
  destruct (Stats.needAdditionalPass stats); [by left|].
  destruct (_ && _); [by left|].
  destruct (Stats.failure stats); [by left|].
  destruct (classify_all _ _) as [e|st]; [by left|].
  cbv zeta. unfold persist, Promise_catch, Promise_then, Promise_settled.
  destruct (getHashes out _) as [e|hashes]; [by left|].
  unfold BundleCache.set. destruct (cache_writable out); [|by left].
  right. split_and!; [by eexists|done|done|by eexists].
Qed.

End handler_writes.

(** ** The observable of a compiler *)

Section stream_facts.
Context `{NodeRuntime} `{OptimizerCommon}.

(** The three ways a call of the handler ends. *)
Lemma complete_cases (out : Outside) (workerConfig : WorkerConfig.t)
    (bundle : Bundle.t) (stats : Stats.t) (disk : gmap string BundleCache.State) :
  (Stats.needAdditionalPass stats = true
   ∧ complete out workerConfig bundle stats disk
     = Handled.mk (inr None) false false None disk)
  ∨ (Stats.needAdditionalPass stats = false
     ∧ ∃ e, Handled.msg (complete out workerConfig bundle stats disk) = inl e)
  ∨ (Stats.needAdditionalPass stats = false
     ∧ ∃ msg,
         Handled.msg (complete out workerConfig bundle stats disk) = inr (Some msg)
         ∧ is_terminal msg = true
         ∧ bundleId_of msg = Bundle.id bundle
         ∧ Handled.done_scheduled (complete out workerConfig bundle stats disk)
           = negb (WorkerConfig.watch workerConfig)).
Proof.
  unfold complete.
  destruct (Stats.needAdditionalPass stats); [by left|]. right.
  destruct (_ && _); [left; split; [done|by eexists]|].
  destruct (Stats.failure stats); [right; split; [done|by eexists]|].
  destruct (classify_all _ _) as [e|st]; [left; split; [done|by eexists]|].
  cbv zeta. destruct (persist _ _ _ _ _ _). right. split; [done|by eexists].
Qed.

Lemma complete_other_paths (out : Outside) (workerConfig : WorkerConfig.t)
    (bundle : Bundle.t) (stats : Stats.t) (disk : gmap string BundleCache.State)
    (path : string) :
  path ≠ BundleCache.path (Bundle.cache bundle) →
  Handled.disk (complete out workerConfig bundle stats disk) !! path = disk !! path.
Proof.
  intros Hpath. unfold complete.
  destruct (Stats.needAdditionalPass stats); [done|].
  destruct (_ && _); [done|].
  destruct (Stats.failure stats); [done|].
  destruct (classify_all _ _) as [e|st]; [done|].
  cbv zeta. unfold persist, Promise_catch, Promise_then, Promise_settled.
  destruct (getHashes out _) as [e|hashes]; [done|].
  unfold BundleCache.set. destruct (cache_writable out); [|done].
  simpl. by rewrite lookup_insert_ne.
Qed.

Lemma observeCompiler_app (workerConfig : WorkerConfig.t) (bundle : Bundle.t)
    (disk : gmap string BundleCache.State) (events more : list HookEvent) :
  observeCompiler workerConfig bundle disk (events ++ more)
  = foldl (observe_step workerConfig bundle)
      (observeCompiler workerConfig bundle disk events) more.
Proof. unfold observeCompiler. apply foldl_app. Qed.

Lemma observe_step_additional_pass (workerConfig : WorkerConfig.t)
    (bundle : Bundle.t) (s : Stream.t) (event : HookEvent) :
  asks_additional_pass event = true →
  observe_step workerConfig bundle s event = s.
Proof.
  destruct event as [| |stats out|error]; try done. simpl. intros Hpass.
  unfold observe_step, complete. rewrite Hpass. simpl.
  destruct s as [[| |] emitted disk]; simpl; [|done..].
  by rewrite app_nil_r.
Qed.

(** X16: a pass that asks for another pass is not seen. The observable over
    the calls of the hooks is the one over the calls without the [done]
    calls whose compilation has [needAdditionalPass]: the same messages, the
    same end, the same cache files. *)
Theorem observeCompiler_skips_additional_passes (workerConfig : WorkerConfig.t)
    (bundle : Bundle.t) (disk : gmap string BundleCache.State)
    (events : list HookEvent) :
  observeCompiler workerConfig bundle disk
    (List.filter (λ event, negb (asks_additional_pass event)) events)
  = observeCompiler workerConfig bundle disk events.
Proof.
  unfold observeCompiler. generalize (Stream.mk stream_open [] disk).
  induction events as [|event events IH]; intros s; simpl; [done|].
  destruct (asks_additional_pass event) eqn:Hpass; simpl.
  - by rewrite observe_step_additional_pass.
  - apply IH.
Qed.

Lemma observe_step_run_shape (workerConfig : WorkerConfig.t) (bundle : Bundle.t)
    (s : Stream.t) (event : HookEvent) :
  WorkerConfig.watch workerConfig = false →
  run_shape bundle s → run_shape bundle (observe_step workerConfig bundle s event).
Proof.
  intros Hwatch Hshape. unfold observe_step.
  destruct (Stream.state s) eqn:Hstate; [|done..].
  destruct Hshape as [[_ Hrunning]|[Hcompleted _]]; [|congruence].
  destruct event as [| |stats out|error].
  - left. split; [done|]. apply Forall_app. split; [done|]. by constructor.
  - left. split; [done|]. apply Forall_app. split; [done|]. by constructor.
  - destruct (complete_cases out workerConfig bundle stats (Stream.disk s))
      as [[_ ->]|[[_ [e ->]]|[_ (msg & -> & Hterminal & Hid & ->)]]]; simpl.
    + left. split; [done|]. by rewrite app_nil_r.
    + by left.
    + rewrite Hwatch. simpl. right. split; [done|]. by exists (Stream.emitted s), msg.
  - by left.
Qed.

(** X17: a run without watching emits at most one message that ends a pass,
    and that message is the last one. Whatever hooks are called, the
    messages are [Running] messages, followed, exactly when the observable
    has completed, by one [Success] or [Failure]; all are messages of the
    bundle. *)
Theorem observeCompiler_run_ends_once (workerConfig : WorkerConfig.t)
    (bundle : Bundle.t) (disk : gmap string BundleCache.State)
    (events : list HookEvent) :
  WorkerConfig.watch workerConfig = false →
  let s := observeCompiler workerConfig bundle disk events in
  (Stream.state s ≠ stream_completed
   ∧ Forall (λ msg, msg = compilerRunning (Bundle.id bundle)) (Stream.emitted s))
  ∨ (Stream.state s = stream_completed
     ∧ ∃ running last,
         Stream.emitted s = running ++ [last]
         ∧ Forall (λ msg, msg = compilerRunning (Bundle.id bundle)) running
         ∧ is_terminal last = true
         ∧ bundleId_of last = Bundle.id bundle).
Proof.
  intros Hwatch. cbv zeta. unfold observeCompiler.
  assert (Hinit : run_shape bundle (Stream.mk stream_open [] disk)).
  { left. split; [done|constructor]. }
  revert Hinit. generalize (Stream.mk stream_open [] disk).
  induction events as [|event events IH]; intros s Hshape; simpl; [done|].
  apply IH. by apply observe_step_run_shape.
Qed.

(** X18: while watching, the observable never completes of itself: after
    any calls of the hooks it is open or has ended with an error, and every
    message is a message of the bundle. *)
Theorem observeCompiler_watch_stays_open (workerConfig : WorkerConfig.t)
    (bundle : Bundle.t) (disk : gmap string BundleCache.State)
    (events : list HookEvent) :
  WorkerConfig.watch workerConfig = true →
  Stream.state (observeCompiler workerConfig bundle disk events) ≠ stream_completed
  ∧ Forall (λ msg, bundleId_of msg = Bundle.id bundle)
      (Stream.emitted (observeCompiler workerConfig bundle disk events)).
Proof.
  intros Hwatch. unfold observeCompiler.
  assert (Hinit : Stream.state (Stream.mk stream_open [] disk) ≠ stream_completed
                  ∧ Forall (λ msg, bundleId_of msg = Bundle.id bundle)
                      (Stream.emitted (Stream.mk stream_open [] disk))).
  { split; [done|constructor]. }
  revert Hinit. generalize (Stream.mk stream_open [] disk).
  induction events as [|event events IH]; intros s [Hstate Hids]; simpl; [done|].
  apply IH. unfold observe_step.
  destruct (Stream.state s) eqn:Hs; [|by rewrite Hs..].
  destruct event as [| |stats out|error]; simpl.
  - split; [done|]. apply Forall_app. split; [done|]. by constructor.
  - split; [done|]. apply Forall_app. split; [done|]. by constructor.
  - destruct (complete_cases out workerConfig bundle stats (Stream.disk s))
      as [[_ ->]|[[_ [e ->]]|[_ (msg & -> & Hterminal & Hid & ->)]]]; simpl.
    + split; [done|]. by rewrite app_nil_r.
    + done.
    + rewrite Hwatch. simpl. split; [done|].
      apply Forall_app. split; [done|]. by constructor.
  - done.
Qed.

(** X19: an observable touches the cache of its own bundle only. After any
    calls of the hooks, the cache files are as at the start at every path
    but the cache path of the bundle. *)
Theorem observeCompiler_own_cache_only (workerConfig : WorkerConfig.t)
    (bundle : Bundle.t) (disk : gmap string BundleCache.State)
    (events : list HookEvent) (path : string) :
  path ≠ BundleCache.path (Bundle.cache bundle) →
  Stream.disk (observeCompiler workerConfig bundle disk events) !! path
  = disk !! path.
Proof.
  intros Hpath. unfold observeCompiler.
  change (disk !! path) with (Stream.disk (Stream.mk stream_open [] disk) !! path).
  generalize (Stream.mk stream_open [] disk).
  induction events as [|event events IH]; intros s; simpl; [done|].
  rewrite IH. unfold observe_step.
  destruct (Stream.state s); [|done..].
  destruct event as [| |stats out|error]; simpl; [done|done| |done].
  pose proof (complete_other_paths out workerConfig bundle stats (Stream.disk s)
                path Hpath) as Hdisk.
  by destruct (Handled.msg _).
Qed.

End stream_facts.

(** ** The observable of all compilers *)

Section run_facts.
Context `{NodeRuntime} `{OptimizerCommon}.

(** What the handler reports does not depend on the cache files. *)
Lemma complete_msg_disk_free (out : Outside) (workerConfig : WorkerConfig.t)
    (bundle : Bundle.t) (stats : Stats.t) (disk disk' : gmap string BundleCache.State) :
  Handled.msg (complete out workerConfig bundle stats disk)
  = Handled.msg (complete out workerConfig bundle stats disk')
  ∧ Handled.done_scheduled (complete out workerConfig bundle stats disk)
    = Handled.done_scheduled (complete out workerConfig bundle stats disk').
Proof.
  unfold complete.
  destruct (Stats.needAdditionalPass stats); [done|].
  destruct (_ && _); [done|].
  destruct (Stats.failure stats); [done|].
  destruct (classify_all _ _) as [e|st]; [done|].
  cbv zeta. by do 2 destruct (persist _ _ _ _ _ _).
Qed.

Lemma observe_step_state_disk_free (workerConfig : WorkerConfig.t)
    (bundle : Bundle.t) (s s' : Stream.t) (event : HookEvent) :
  Stream.state s = Stream.state s' →
  Stream.state (observe_step workerConfig bundle s event)
  = Stream.state (observe_step workerConfig bundle s' event).
Proof.
  intros Hstate. unfold observe_step. rewrite <-Hstate.
  destruct (Stream.state s) eqn:Hs; [|congruence..].
  destruct event as [| |stats out|error]; [done|done| |done].
  destruct (complete_msg_disk_free out workerConfig bundle stats
              (Stream.disk s) (Stream.disk s')) as [-> ->].
  by destruct (Handled.msg _).
Qed.

Lemma runCompilers_snoc (workerConfig : WorkerConfig.t) (bundles : list Bundle.t)
    (disk : gmap string BundleCache.State) (calls : list (nat * HookEvent))
    (call : nat * HookEvent) :
  runCompilers workerConfig bundles disk (calls ++ [call])
  = run_step workerConfig bundles (runCompilers workerConfig bundles disk calls) call.
Proof. unfold runCompilers. cbv zeta. by rewrite foldl_app. Qed.

Lemma run_step_open_before (workerConfig : WorkerConfig.t) (bundles : list Bundle.t)
    (r : Run.t) (call : nat * HookEvent) :
  Run.state (run_step workerConfig bundles r call) = stream_open →
  Run.state r = stream_open.
Proof. unfold run_step. destruct (Run.state r) eqn:Hr; [done|congruence..]. Qed.

Lemma run_ended (workerConfig : WorkerConfig.t) (bundles : list Bundle.t)
    (r : Run.t) (calls : list (nat * HookEvent)) :
  Run.state r ≠ stream_open →
  foldl (run_step workerConfig bundles) r calls = r.
Proof.
  intros Hended. induction calls as [|call calls IH]; simpl; [done|].
  replace (run_step workerConfig bundles r call) with r; [done|].
  unfold run_step. by destruct (Run.state r).
Qed.

Lemma runCompilers_length (workerConfig : WorkerConfig.t) (bundles : list Bundle.t)
    (disk : gmap string BundleCache.State) (calls : list (nat * HookEvent)) :
  length (Run.compilers (runCompilers workerConfig bundles disk calls))
  = length bundles.
Proof.
  induction calls as [|call calls IH] using rev_ind.
  - simpl. by rewrite length_replicate.
  - rewrite runCompilers_snoc. unfold run_step.
    destruct (Run.state _); [|done..].
    destruct (bundles !! call.1); [|done].
    destruct (Run.compilers _ !! call.1); [|done].
    simpl. by rewrite length_insert.
Qed.

Lemma calls_of_snoc (i : nat) (calls : list (nat * HookEvent))
    (call : nat * HookEvent) :
  calls_of i (calls ++ [call])
  = calls_of i calls ++ (if bool_decide (call.1 = i) then [call.2] else []).
Proof.
  unfold calls_of. rewrite List.filter_app, fmap_app. simpl.
  by destruct (bool_decide (call.1 = i)).
Qed.

(** X20: as long as the observable of [runCompilers] is open, the
    observable of each compiler is in the state it would be in alone, over
    the calls of the hooks of its own compiler, whatever the cache files
    were. *)
Theorem runCompilers_compiler_alone (workerConfig : WorkerConfig.t)
    (bundles : list Bundle.t) (disk disk' : gmap string BundleCache.State)
    (calls : list (nat * HookEvent)) (compilerIndex : nat) (bundle : Bundle.t) :
  Run.state (runCompilers workerConfig bundles disk calls) = stream_open →
  bundles !! compilerIndex = Some bundle →
  Run.compilers (runCompilers workerConfig bundles disk calls) !! compilerIndex
  = Some (Stream.state
            (observeCompiler workerConfig bundle disk' (calls_of compilerIndex calls))).
Proof.
  intros Hopen Hbundle. induction calls as [|call calls IH] using rev_ind.
  - simpl. apply lookup_replicate_2. by apply lookup_lt_Some in Hbundle.
  - rewrite runCompilers_snoc in Hopen |- *.
    pose proof (run_step_open_before _ _ _ _ Hopen) as Hbefore.
    specialize (IH Hbefore). rewrite calls_of_snoc.
    pose proof (runCompilers_length workerConfig bundles disk calls) as Hlength.
    unfold run_step in Hopen |- *. rewrite Hbefore in Hopen |- *.
    destruct (bundles !! call.1) as [bundle'|] eqn:Hbundle'.
    + destruct (Run.compilers _ !! call.1) as [inner|] eqn:Hinner.
      * simpl. case_bool_decide as Hindex.
        -- rewrite Hindex in *. rewrite list_lookup_insert_eq
             by (by apply lookup_lt_Some in Hinner).
           f_equal. rewrite observeCompiler_app. simpl.
           assert (bundle' = bundle) as -> by congruence.
           apply observe_step_state_disk_free. simpl. congruence.
        -- rewrite list_lookup_insert_ne by done. by rewrite app_nil_r.
      * apply lookup_ge_None in Hinner. apply lookup_lt_Some in Hbundle'. lia.
    + case_bool_decide as Hindex; [congruence|]. by rewrite app_nil_r.
Qed.

Lemma filter_insert_length {A} (p : A → bool) (l : list A) (i : nat) (old x : A) :
  l !! i = Some old →
  length (List.filter p (<[i := x]> l)) + count_of (p old)
  = length (List.filter p l) + count_of (p x).
Proof.
  revert i. induction l as [|a l IH]; intros [|i] Hold; simplify_eq/=.
  - destruct (p old), (p x); simpl; lia.
  - specialize (IH i Hold). destruct (p a); simpl; lia.
Qed.

Lemma forallb_filter_length {A} (p : A → bool) (l : list A) :
  (length (List.filter p l) ≤ length l)%nat
  ∧ (forallb p l = true ↔ length (List.filter p l) = length l).
Proof.
  induction l as [|a l [IH1 IH2]]; simpl; [done|].
  destruct (p a); simpl; [|split; [lia|split; [done|lia]]].
  split; [lia|]. rewrite IH2. lia.
Qed.

Lemma observe_step_terminal (workerConfig : WorkerConfig.t) (bundle : Bundle.t)
    (inner : StreamState) (disk : gmap string BundleCache.State) (event : HookEvent) :
  WorkerConfig.watch workerConfig = false →
  let s := observe_step workerConfig bundle (Stream.mk inner [] disk) event in
  length (List.filter is_terminal (Stream.emitted s)) + count_of (is_completed inner)
  = count_of (is_completed (Stream.state s)).
Proof.
  intros Hwatch. cbv zeta. unfold observe_step. simpl.
  destruct inner; [|done..].
  destruct event as [| |stats out|error]; [done|done| |done].
  destruct (complete_cases out workerConfig bundle stats disk)
    as [[_ ->]|[[_ [e ->]]|[_ (msg & -> & Hterminal & Hid & ->)]]]; simpl; [done|done|].
  by rewrite Hwatch, Hterminal.
Qed.

Lemma forallb_insert_false {A} (p : A → bool) (l : list A) (i : nat) (x : A) :
  (i < length l)%nat → p x = false → forallb p (<[i := x]> l) = false.
Proof.
  revert i. induction l as [|a l IH]; intros [|i] Hi Hx; simpl in *; try lia.
  - by rewrite Hx.
  - rewrite IH by (done || lia). by destruct (p a).
Qed.

Lemma run_step_counted (workerConfig : WorkerConfig.t) (bundles : list Bundle.t)
    (r : Run.t) (call : nat * HookEvent) :
  WorkerConfig.watch workerConfig = false →
  run_counted r → run_counted (run_step workerConfig bundles r call).
Proof.
  intros Hwatch [Hcount Hstate]. unfold run_step.
  destruct (Run.state r) eqn:Hr; [|by unfold run_counted; rewrite Hr..].
  destruct (bundles !! call.1) as [bundle|];
    [|by unfold run_counted; rewrite Hr].
  destruct (Run.compilers r !! call.1) as [inner|] eqn:Hinner;
    [|by unfold run_counted; rewrite Hr].
  unfold run_counted.
  pose proof (observe_step_terminal workerConfig bundle inner (Run.disk r) call.2 Hwatch)
    as Hstep. cbv zeta in Hstep.
  pose proof (filter_insert_length is_completed (Run.compilers r) call.1 inner
                (Stream.state (observe_step workerConfig bundle
                                 (Stream.mk inner [] (Run.disk r)) call.2)) Hinner)
    as Hinsert.
  split; simpl.
  - rewrite List.filter_app, length_app. lia.
  - clear Hstate. destruct (Stream.state (observe_step _ _ _ _)) eqn:Hs.
    + unfold merged_state. destruct (forallb _ _); by split.
    + unfold merged_state. destruct (forallb _ _); by split.
    + rewrite forallb_insert_false; [by split|by apply lookup_lt_Some in Hinner|done].
Qed.

(** X21: a run without watching emits one message that ends a pass for each
    compiler, and completes with the last of them. At any time the
    [Success] and [Failure] messages are at most as many as the bundles, and
    the observable of [runCompilers] has completed exactly when they are as
    many. *)
Theorem runCompilers_completes_with_the_last (workerConfig : WorkerConfig.t)
    (bundles : list Bundle.t) (disk : gmap string BundleCache.State)
    (calls : list (nat * HookEvent)) :
  WorkerConfig.watch workerConfig = false →
  let r := runCompilers workerConfig bundles disk calls in
  (length (List.filter is_terminal (Run.emitted r)) ≤ length bundles)%nat
  ∧ (Run.state r = stream_completed
     ↔ length (List.filter is_terminal (Run.emitted r)) = length bundles).
Proof.
  intros Hwatch. cbv zeta.
  assert (Hcounted : run_counted (runCompilers workerConfig bundles disk calls)).
  { induction calls as [|call calls IH] using rev_ind.
    - unfold runCompilers, run_counted, merged_state. simpl.
      induction (length bundles) as [|n [IH1 IH2]]; simpl; [done|].
      split; [done|]. by split.
    - rewrite runCompilers_snoc. by apply run_step_counted. }
  destruct Hcounted as [Hcount Hstate].
  pose proof (runCompilers_length workerConfig bundles disk calls) as Hlength.
  destruct (forallb_filter_length is_completed
              (Run.compilers (runCompilers workerConfig bundles disk calls)))
    as [Hle Hall].
  rewrite Hstate, Hall, Hcount, Hlength. split; [lia|done].
Qed.

Lemma runCompilers_watch_open (workerConfig : WorkerConfig.t)
    (bundles : list Bundle.t) (disk : gmap string BundleCache.State)
    (calls : list (nat * HookEvent)) :
  WorkerConfig.watch workerConfig = true →
  Run.state (runCompilers workerConfig bundles disk calls) = stream_open →
  Forall (λ inner, inner = stream_open)
    (Run.compilers (runCompilers workerConfig bundles disk calls)).
Proof.
  intros Hwatch. induction calls as [|call calls IH] using rev_ind; intros Hopen.
  - simpl. apply Forall_replicate. done.
  - rewrite runCompilers_snoc in Hopen |- *.
    pose proof (run_step_open_before _ _ _ _ Hopen) as Hbefore.
    specialize (IH Hbefore).
    unfold run_step in Hopen |- *. rewrite Hbefore in Hopen |- *.
    destruct (bundles !! call.1) as [bundle|]; [|done].
    destruct (Run.compilers _ !! call.1) as [inner|] eqn:Hinner; [|done].
    simpl in *. apply Forall_insert; [done|].
    assert (inner = stream_open) as ->.
    { by apply (Forall_lookup_1 _ _ _ _ IH Hinner). }
    revert Hopen. unfold observe_step. simpl.
    destruct call.2 as [| |stats out|error]; [done|done| |done].
    destruct (complete_cases out workerConfig bundle stats
                (Run.disk (runCompilers workerConfig bundles disk calls)))
      as [[_ ->]|[[_ [e ->]]|[_ (msg & -> & Hterminal & Hid & ->)]]]; simpl; [done|done|].
    by rewrite Hwatch.
Qed.

(** X22: while watching, the failure of one compiler ends the observable of
    all. When [failed] is called on the compiler of a bundle while the
    observable of [runCompilers] is open, it ends with the error message of
    that bundle, and the later calls of hooks, of any compiler, emit nothing
    and write no cache. *)
Theorem runCompilers_failed_ends_all (workerConfig : WorkerConfig.t)
    (bundles : list Bundle.t) (disk : gmap string BundleCache.State)
    (calls later : list (nat * HookEvent)) (compilerIndex : nat)
    (bundle : Bundle.t) (error : exn) :
  WorkerConfig.watch workerConfig = true →
  Run.state (runCompilers workerConfig bundles disk calls) = stream_open →
  bundles !! compilerIndex = Some bundle →
  let r := runCompilers workerConfig bundles disk calls in
  let r' := runCompilers workerConfig bundles disk
              (calls ++ (compilerIndex, hook_failed error) :: later) in
  Run.state r'
  = stream_errored (inr (compilerError (Bundle.id bundle) (exn_message error)))
  ∧ Run.emitted r' = Run.emitted r
  ∧ Run.disk r' = Run.disk r.
Proof.
  intros Hwatch Hopen Hbundle. cbv zeta.
  pose proof (runCompilers_watch_open workerConfig bundles disk calls Hwatch Hopen)
    as Hall.
  pose proof (runCompilers_length workerConfig bundles disk calls) as Hlength.
  destruct (lookup_lt_is_Some_2
              (Run.compilers (runCompilers workerConfig bundles disk calls))
              compilerIndex) as [inner Hinner].
  { rewrite Hlength. by apply lookup_lt_Some in Hbundle. }
  assert (inner = stream_open) as ->.
  { by apply (Forall_lookup_1 _ _ _ _ Hall Hinner). }
  assert (Hstep : runCompilers workerConfig bundles disk
                    (calls ++ (compilerIndex, hook_failed error) :: later)
                  = run_step workerConfig bundles
                      (runCompilers workerConfig bundles disk calls)
                      (compilerIndex, hook_failed error)).
  { unfold runCompilers. cbv zeta. rewrite foldl_app. simpl.
    apply run_ended. fold (runCompilers workerConfig bundles disk calls).
    unfold run_step. rewrite Hopen. simpl. by rewrite Hbundle, Hinner. }
  rewrite Hstep. unfold run_step. rewrite Hopen. simpl. rewrite Hbundle, Hinner.
  simpl. by rewrite app_nil_r.
Qed.

End run_facts.

(** ** More statements at the mock repository *)

Section more_witnesses.
Import Posix Examples Scenarios.

(** The files of the tests in another order, and hashes that differ at a
    path outside the list, give the key of the tests. *)
Lemma createCacheKey_equal_iff_witness :
  Bundle.toSpec foo = Bundle.toSpec foo
  ∧ (∀ p, p ∈ files ↔ p ∈ reverse files)
  ∧ (∀ p, p ∈ files →
          Map_get hashes p = Map_get (<["/mock_repo/README.md" := Some "x"]> hashes) p)
  ∧ Bundle.createCacheKey foo files hashes
    = Bundle.createCacheKey foo (reverse files)
        (<["/mock_repo/README.md" := Some "x"]> hashes).
Proof.
  assert (Hfiles : ∀ p, p ∈ files ↔ p ∈ reverse files).
  { intros p. by rewrite elem_of_reverse. }
  assert (Hagree : ∀ p, p ∈ files →
            Map_get hashes p
            = Map_get (<["/mock_repo/README.md" := Some "x"]> hashes) p).
  { intros p Hp. unfold files in Hp.
    repeat (apply elem_of_cons in Hp as [->|Hp]); [by vm_compute..|].
    by apply elem_of_nil in Hp. }
  split_and!; [done..|].
  exact (proj2 (createCacheKey_equal_iff Posix_compare_order foo foo files
                  (reverse files) hashes (<["/mock_repo/README.md" := Some "x"]> hashes))
           (conj eq_refl (conj Hfiles Hagree))).
Defined.

(** The specs of [foo] and [bar], written and parsed. *)
Lemma parseBundles_checked_witness :
  parseBundles
    (VString (JSON_stringify
                (VArray [BundleSpec.to_value foo_spec; BundleSpec.to_value bar_spec])))
  = inr [foo; bar]
  ∧ ∃ text specs,
      VString (JSON_stringify
                 (VArray [BundleSpec.to_value foo_spec; BundleSpec.to_value bar_spec]))
      = VString text
      ∧ JSON_parse text = inr (VArray specs)
      ∧ length [foo; bar] = length specs
      ∧ Forall2 (λ spec b, parseBundleSpec spec = inr b ∧ passes_checks spec b)
          specs [foo; bar].
Proof.
  assert (Hparsed : parseBundles
                      (VString (JSON_stringify
                                  (VArray [BundleSpec.to_value foo_spec;
                                           BundleSpec.to_value bar_spec])))
                    = inr [foo; bar]) by (by vm_compute).
  split; [exact Hparsed|].
  exact (parseBundles_checked _ _ Hparsed).
Defined.

(** A spec with a relative [contextDir] after the spec of [foo]. *)
Lemma parseBundles_first_invalid_witness :
  JSON_parse (JSON_stringify
                (VArray [BundleSpec.to_value foo_spec; relative_object; VNumber 1]))
  = inr (VArray ([VObject foo_properties] ++ relative_object :: [VNumber 1]))
  ∧ map_throwing parseBundleSpec [VObject foo_properties] = inr [foo]
  ∧ parseBundleSpec relative_object
    = inl (Error "`bundles[]` must have an absolute path `contextDir` property")
  ∧ parseBundles
      (VString (JSON_stringify
                  (VArray [BundleSpec.to_value foo_spec; relative_object; VNumber 1])))
    = inl (Error "unable to parse bundles: `bundles[]` must have an absolute path `contextDir` property").
Proof.
  assert (Hparse : JSON_parse
                     (JSON_stringify
                        (VArray [BundleSpec.to_value foo_spec; relative_object; VNumber 1]))
                   = inr (VArray ([VObject foo_properties]
                                  ++ relative_object :: [VNumber 1])))
    by (by vm_compute).
  assert (Hbefore : map_throwing parseBundleSpec [VObject foo_properties] = inr [foo])
    by (by vm_compute).
  assert (Hinvalid : parseBundleSpec relative_object
                     = inl (Error "`bundles[]` must have an absolute path `contextDir` property"))
    by (by vm_compute).
  split_and!; [done..|].
  exact (parseBundles_first_invalid _ _ _ _ _ _ Hparse Hbefore Hinvalid).
Defined.

(** A text that is not JSON. *)
Lemma parseBundles_one_error_witness :
  parseBundles (VString "{")
  = inl (Error "unable to parse bundles: Unexpected end of JSON input")
  ∧ ∃ cause,
      Error "unable to parse bundles: Unexpected end of JSON input"
      = Error ("unable to parse bundles: " +:+ cause)
      ∧ (∀ text e', VString "{" = VString text → JSON_parse text = inl e' →
                    cause = exn_message e').
Proof.
  assert (Hfailed : parseBundles (VString "{")
                    = inl (Error "unable to parse bundles: Unexpected end of JSON input"))
    by (by vm_compute).
  split; [exact Hfailed|].
  exact (parseBundles_one_error _ _ Hfailed).
Defined.

(** The object of [foo] with its properties in another order. *)
Lemma parseBundleSpec_reflects_witness :
  parseBundleSpec foo_object_reordered = inr foo
  ∧ ∀ k, k ∈ BUNDLE_SPEC_KEYS →
         get_prop (BundleSpec.to_value (Bundle.toSpec foo)) k
         = get_prop foo_object_reordered k.
Proof.
  assert (Hparsed : parseBundleSpec foo_object_reordered = inr foo) by (by vm_compute).
  split; [exact Hparsed|].
  exact (parseBundleSpec_reflects _ _ Hparsed).
Defined.

(** The same object and the object as [JSON.parse] gives it. *)
Lemma parseBundleSpec_reads_spec_keys_witness :
  (∀ k, k ∈ BUNDLE_SPEC_KEYS →
        get_prop (VObject foo_properties_reordered) k
        = get_prop (VObject foo_properties) k)
  ∧ parseBundleSpec (VObject foo_properties_reordered)
    = parseBundleSpec (VObject foo_properties).
Proof.
  assert (Hsame : ∀ k, k ∈ BUNDLE_SPEC_KEYS →
            get_prop (VObject foo_properties_reordered) k
            = get_prop (VObject foo_properties) k).
  { intros k Hk. unfold BUNDLE_SPEC_KEYS in Hk.
    repeat (apply elem_of_cons in Hk as [->|Hk]); [by vm_compute..|].
    by apply elem_of_nil in Hk. }
  split; [exact Hsame|].
  exact (parseBundleSpec_reads_spec_keys _ _ Hsame).
Defined.

(** The manifest of [foo] with a required plugin and a required bundle. *)
Lemma readBundleDeps_core_first_witness :
  Bundle.readBundleDeps (manifest_on_disk foo_manifest) foo
  = inr {| Bundle.implicit := ["core"; "data"]; Bundle.explicit := ["bar"] |}
  ∧ ∃ plugins,
      ["core"; "data"] = DEFAULT_IMPLICIT_BUNDLE_DEPS ++ plugins
      ∧ head ["core"; "data"] = Some "core".
Proof.
  assert (Hdeps : Bundle.readBundleDeps (manifest_on_disk foo_manifest) foo
                  = inr {| Bundle.implicit := ["core"; "data"];
                           Bundle.explicit := ["bar"] |}) by (by vm_compute).
  split; [exact Hdeps|].
  exact (readBundleDeps_core_first _ _ _ Hdeps).
Defined.

(** The manifest of [foo] on a disk without other files and on a disk where
    every path holds a file. *)
Lemma readBundleDeps_reads_the_manifest_only_witness :
  (∀ mp, Bundle.manifestPath foo = Some mp → mp ≠ EmptyString →
         manifest_on_disk foo_manifest mp = crowded_disk mp)
  ∧ Bundle.readBundleDeps (manifest_on_disk foo_manifest) foo
    = Bundle.readBundleDeps crowded_disk foo.
Proof.
  assert (Hsame : ∀ mp, Bundle.manifestPath foo = Some mp → mp ≠ EmptyString →
                        manifest_on_disk foo_manifest mp = crowded_disk mp).
  { intros mp [= <-] _. by vm_compute. }
  split; [exact Hsame|].
  exact (proj1 (readBundleDeps_reads_the_manifest_only _ _ foo Hsame)).
Defined.

(** A manifest that is the array [[1]]. *)
Lemma readBundleDeps_array_manifest_witness :
  Bundle.manifestPath foo = Some "/mock_repo/plugins/foo/opensearch_dashboards.json"
  ∧ "/mock_repo/plugins/foo/opensearch_dashboards.json" ≠ EmptyString
  ∧ manifest_on_disk (VArray [VNumber 1])
      "/mock_repo/plugins/foo/opensearch_dashboards.json"
    = inr "[1]"
  ∧ JSON_parse "[1]" = inr (VArray [VNumber 1])
  ∧ Bundle.readBundleDeps (manifest_on_disk (VArray [VNumber 1])) foo
    = inr {| Bundle.implicit := DEFAULT_IMPLICIT_BUNDLE_DEPS; Bundle.explicit := [] |}.
Proof.
  assert (Hread : manifest_on_disk (VArray [VNumber 1])
                    "/mock_repo/plugins/foo/opensearch_dashboards.json"
                  = inr "[1]") by (by vm_compute).
  assert (Hparse : JSON_parse "[1]" = inr (VArray [VNumber 1])) by (by vm_compute).
  split_and!; [done..|].
  exact (readBundleDeps_array_manifest (manifest_on_disk (VArray [VNumber 1])) foo
           "/mock_repo/plugins/foo/opensearch_dashboards.json" "[1]" [VNumber 1]
           eq_refl ltac:(done) Hread Hparse).
Defined.

(** The pass of the mock repository: three normal modules and a concatenated
    module of two. *)
Lemma success_moduleCount_witness :
  Handled.msg (complete outside_ok workerConfig foo stats ∅)
  = inr (Some (compilerSuccess (Bundle.id foo) 5))
  ∧ (∀ files, ∃ hashes, getHashes outside_ok files = inr hashes)
  ∧ cache_writable outside_ok = true
  ∧ 5 = counted_modules (Stats.modules stats)
  ∧ BundleCache.moduleCount
      (BundleCache.get (Handled.disk (complete outside_ok workerConfig foo stats ∅))
         (Bundle.cache foo))
    = Some 5.
Proof.
  assert (Hmsg : Handled.msg (complete outside_ok workerConfig foo stats ∅)
                 = inr (Some (compilerSuccess (Bundle.id foo) 5))) by (by vm_compute).
  assert (Hhashes : ∀ files, ∃ hashes, getHashes outside_ok files = inr hashes)
    by (intros files; by eexists).
  split_and!; [done..| |].
  - exact (proj1 (success_moduleCount outside_ok workerConfig foo stats ∅ 5 Hmsg)).
  - exact (proj2 (success_moduleCount outside_ok workerConfig foo stats ∅ 5 Hmsg)
             Hhashes eq_refl).
Defined.

(** The same pass has one bundle reference. *)
Lemma persisted_bundleRefExportIds_witness :
  Handled.msg (complete outside_ok workerConfig foo stats ∅)
  = inr (Some (compilerSuccess (Bundle.id foo) 5))
  ∧ (∀ files, ∃ hashes, getHashes outside_ok files = inr hashes)
  ∧ cache_writable outside_ok = true
  ∧ exportIds (Stats.modules stats) = ["plugin/bar/public"]
  ∧ BundleCache.bundleRefExportIds
      (BundleCache.get (Handled.disk (complete outside_ok workerConfig foo stats ∅))
         (Bundle.cache foo))
    = Some (exportIds (Stats.modules stats)).
Proof.
  assert (Hmsg : Handled.msg (complete outside_ok workerConfig foo stats ∅)
                 = inr (Some (compilerSuccess (Bundle.id foo) 5))) by (by vm_compute).
  assert (Hhashes : ∀ files, ∃ hashes, getHashes outside_ok files = inr hashes)
    by (intros files; by eexists).
  split_and!; [done..|].
  exact (persisted_bundleRefExportIds outside_ok workerConfig foo stats ∅ 5
           Hmsg Hhashes eq_refl).
Defined.

(** The files the same pass references. *)
Lemma referenced_files_witness :
  ∃ st,
    classify_all (initial_pass foo stats) (Stats.modules stats) = inr st
    ∧ NoDup (Pass.referencedFiles st)
    ∧ ∀ x, x ∈ Pass.referencedFiles st
           ↔ (x ≠ EmptyString ∧ Bundle.manifestPath foo = Some x)
             ∨ ∃ m, m ∈ Stats.modules stats ∧ x ∈ references m.
Proof.
  assert (Hall : ∃ st, classify_all (initial_pass foo stats) (Stats.modules stats)
                       = inr st) by (eexists; by vm_compute).
  destruct Hall as [st Hall]. exists st.
  split; [exact Hall|].
  exact (referenced_files foo stats st Hall).
Defined.

(** What the same pass persists. *)
Lemma persisted_files_and_key_witness :
  Handled.msg (complete outside_ok workerConfig foo stats ∅)
  = inr (Some (compilerSuccess (Bundle.id foo) 5))
  ∧ (∀ files, ∃ hashes, getHashes outside_ok files = inr hashes)
  ∧ cache_writable outside_ok = true
  ∧ ∃ st files hashes key,
      classify_all (initial_pass foo stats) (Stats.modules stats) = inr st
      ∧ BundleCache.files
          (BundleCache.get (Handled.disk (complete outside_ok workerConfig foo stats ∅))
             (Bundle.cache foo)) = Some files
      ∧ BundleCache.cacheKey
          (BundleCache.get (Handled.disk (complete outside_ok workerConfig foo stats ∅))
             (Bundle.cache foo)) = Some key
      ∧ StronglySorted (λ p q, localeCompare p q = Lt) files
      ∧ (∀ x, x ∈ files ↔ x ∈ Pass.referencedFiles st)
      ∧ getHashes outside_ok files = inr hashes
      ∧ key = Bundle.createCacheKey foo files hashes
      ∧ obj_keys (CacheKey.hashes key) = files
      ∧ ∀ p, p ∈ files → obj_get p (CacheKey.hashes key) = Some (Map_get hashes p).
Proof.
  assert (Hmsg : Handled.msg (complete outside_ok workerConfig foo stats ∅)
                 = inr (Some (compilerSuccess (Bundle.id foo) 5))) by (by vm_compute).
  assert (Hhashes : ∀ files, ∃ hashes, getHashes outside_ok files = inr hashes)
    by (intros files; by eexists).
  split_and!; [done..|].
  exact (persisted_files_and_key Posix_compare_order outside_ok workerConfig foo stats
           ∅ 5 Hmsg Hhashes eq_refl).
Defined.

(** The run of [run_events]. *)
Lemma observeCompiler_run_ends_once_witness :
  WorkerConfig.watch workerConfig = false
  ∧ Stream.emitted (observeCompiler workerConfig foo ∅ run_events)
    = [compilerRunning "foo"; compilerSuccess "foo" 5]
  ∧ ((Stream.state (observeCompiler workerConfig foo ∅ run_events) ≠ stream_completed
      ∧ Forall (λ msg, msg = compilerRunning (Bundle.id foo))
          (Stream.emitted (observeCompiler workerConfig foo ∅ run_events)))
     ∨ (Stream.state (observeCompiler workerConfig foo ∅ run_events) = stream_completed
        ∧ ∃ running last,
            Stream.emitted (observeCompiler workerConfig foo ∅ run_events)
            = running ++ [last]
            ∧ Forall (λ msg, msg = compilerRunning (Bundle.id foo)) running
            ∧ is_terminal last = true
            ∧ bundleId_of last = Bundle.id foo)).
Proof.
  split_and!; [done|by vm_compute|].
  exact (observeCompiler_run_ends_once workerConfig foo ∅ run_events eq_refl).
Defined.

(** Watching over [watch_events]. *)
Lemma observeCompiler_watch_stays_open_witness :
  WorkerConfig.watch watchConfig = true
  ∧ Stream.emitted (observeCompiler watchConfig foo ∅ watch_events)
    = [compilerRunning "foo"; compilerSuccess "foo" 5;
       compilerRunning "foo"; compilerFailure "foo" "Module not found"]
  ∧ Stream.state (observeCompiler watchConfig foo ∅ watch_events) ≠ stream_completed
  ∧ Forall (λ msg, bundleId_of msg = Bundle.id foo)
      (Stream.emitted (observeCompiler watchConfig foo ∅ watch_events)).
Proof.
  split_and!; [done|by vm_compute|..].
  - exact (proj1 (observeCompiler_watch_stays_open watchConfig foo ∅ watch_events
                    eq_refl)).
  - exact (proj2 (observeCompiler_watch_stays_open watchConfig foo ∅ watch_events
                    eq_refl)).
Defined.

(** The run of [foo] leaves the cache of [bar] alone. *)
Lemma observeCompiler_own_cache_only_witness :
  BundleCache.path (Bundle.cache bar) ≠ BundleCache.path (Bundle.cache foo)
  ∧ Stream.disk (observeCompiler workerConfig foo ∅ run_events)
    !! BundleCache.path (Bundle.cache bar)
    = (∅ : gmap string BundleCache.State) !! BundleCache.path (Bundle.cache bar).
Proof.
  assert (Hpath : BundleCache.path (Bundle.cache bar)
                  ≠ BundleCache.path (Bundle.cache foo)).
  { intros Heq. vm_compute in Heq. discriminate Heq. }
  split; [exact Hpath|].
  exact (observeCompiler_own_cache_only workerConfig foo ∅ run_events _ Hpath).
Defined.

(** The compiler of [foo] among the two compilers of [calls]. *)
Lemma runCompilers_compiler_alone_witness :
  Run.state (runCompilers workerConfig [foo; bar] ∅ calls) = stream_open
  ∧ [foo; bar] !! 0 = Some foo
  ∧ calls_of 0 calls = [hook_beforeRun; hook_done stats outside_ok]
  ∧ Run.compilers (runCompilers workerConfig [foo; bar] ∅ calls) !! 0
    = Some (Stream.state (observeCompiler workerConfig foo ∅ (calls_of 0 calls))).
Proof.
  assert (Hopen : Run.state (runCompilers workerConfig [foo; bar] ∅ calls) = stream_open)
    by (by vm_compute).
  split_and!; [done..|].
  exact (runCompilers_compiler_alone workerConfig [foo; bar] ∅ ∅ calls 0 foo
           Hopen eq_refl).
Defined.

(** The run of [calls], and the same run after [bar] has ended its pass. *)
Lemma runCompilers_completes_with_the_last_witness :
  WorkerConfig.watch workerConfig = false
  ∧ Run.state (runCompilers workerConfig [foo; bar] ∅ calls) = stream_open
  ∧ Run.state (runCompilers workerConfig [foo; bar] ∅
                 (calls ++ [(1, hook_done stats_failure outside_ok)]))
    = stream_completed
  ∧ (length (List.filter is_terminal
               (Run.emitted (runCompilers workerConfig [foo; bar] ∅
                               (calls ++ [(1, hook_done stats_failure outside_ok)]))))
     ≤ length [foo; bar])%nat
  ∧ (Run.state (runCompilers workerConfig [foo; bar] ∅
                  (calls ++ [(1, hook_done stats_failure outside_ok)]))
     = stream_completed
     ↔ length (List.filter is_terminal
                 (Run.emitted (runCompilers workerConfig [foo; bar] ∅
                                 (calls ++ [(1, hook_done stats_failure outside_ok)]))))
       = length [foo; bar]).
Proof.
  split_and!; [done|by vm_compute|by vm_compute|..].
  - exact (proj1 (runCompilers_completes_with_the_last workerConfig [foo; bar] ∅
                    (calls ++ [(1, hook_done stats_failure outside_ok)]) eq_refl)).
  - exact (proj2 (runCompilers_completes_with_the_last workerConfig [foo; bar] ∅
                    (calls ++ [(1, hook_done stats_failure outside_ok)]) eq_refl)).
Defined.

(** While watching [foo] and [bar], the compiler of [bar] fails; [foo] is
    compiled once more afterwards. *)
Lemma runCompilers_failed_ends_all_witness :
  WorkerConfig.watch watchConfig = true
  ∧ Run.state (runCompilers watchConfig [foo; bar] ∅ watch_calls) = stream_open
  ∧ [foo; bar] !! 1 = Some bar
  ∧ Run.state (runCompilers watchConfig [foo; bar] ∅
                 (watch_calls ++ (1, hook_failed (Error "out of memory"))
                              :: [(0, hook_watchRun); (0, hook_done stats outside_ok)]))
    = stream_errored (inr (compilerError (Bundle.id bar)
                             (exn_message (Error "out of memory"))))
  ∧ Run.emitted (runCompilers watchConfig [foo; bar] ∅
                   (watch_calls ++ (1, hook_failed (Error "out of memory"))
                                :: [(0, hook_watchRun); (0, hook_done stats outside_ok)]))
    = Run.emitted (runCompilers watchConfig [foo; bar] ∅ watch_calls)
  ∧ Run.disk (runCompilers watchConfig [foo; bar] ∅
                (watch_calls ++ (1, hook_failed (Error "out of memory"))
                             :: [(0, hook_watchRun); (0, hook_done stats outside_ok)]))
    = Run.disk (runCompilers watchConfig [foo; bar] ∅ watch_calls).
Proof.
  assert (Hopen : Run.state (runCompilers watchConfig [foo; bar] ∅ watch_calls)
                  = stream_open) by (by vm_compute).
  split_and!; [done..| | |];
    destruct (runCompilers_failed_ends_all watchConfig [foo; bar] ∅ watch_calls
                [(0, hook_watchRun); (0, hook_done stats outside_ok)] 1 bar
                (Error "out of memory") eq_refl Hopen eq_refl) as (Hstate & Hemitted & Hdisk);
    done.
Defined.

End more_witnesses.
